(** * QuakeSiren: event ingestion, alerting, risk scoring, rate overlay and
      quota-gated access

    A shallow embedding of the TypeScript server core:

    - [server/storage.ts]                 (MemStorage: the event and alert store)
    - [server/earthquakeService.ts]       (parseEarthquakeData, processNewEarthquakes)
    - [server/flareNetwork.ts]            (verifyEarthquakeData)
    - [server/oracle/financialImpactOracle.ts]
                                          (risk scoring, cache, API keys)
    - [server/oracle/oracleRoutes.ts]     (the verifyApiKey middleware)
    - [server/exchangeRateService.ts]     (enrichExchangeRateDataWithEarthquakes)

    Modelling conventions.

    - A JavaScript [number] that carries a measurement (magnitude, depth,
      coordinates, rates, scores) is an exact rational [Q]: the rounding error
      of IEEE-754 double arithmetic, NaN and the infinities are not modelled.
      Counters and budgets that the program only ever moves by whole steps are
      [Z].
    - A [Date] is its millisecond time value, a [Z]; comparing two dates
      compares these values, as JavaScript does through [valueOf].
    - Whatever the JavaScript host supplies (the wall clock, [Math.random], the
      trigonometric functions of [Math], number and date formatting) is a field
      of the record [Host]; a theorem that depends on a property of the host
      states it as a hypothesis.
    - Module level mutable state (MemStorage's maps and counters, the oracle's
      cache and key table) is the record [World], threaded through a small
      state monad.  [async] functions are run to completion: nothing in the
      modelled code awaits anything but the in-memory store. *)

From Stdlib Require Import QArith Qabs Qround ZArith Ascii String List Lia Lqa DecimalString Permutation Sorted.
From stdpp Require Import base list strings gmap.

Set Default Proof Using "Type".

(* ===================================================================== *)
(** * JavaScript numbers and the parts of [Math] the program uses           *)
(* ===================================================================== *)

Module JS.

(** [x < y], [x <= y], [x >= y] on numbers. *)
Definition ltb (x y : Q) : bool := negb (Qle_bool y x).
Definition leb (x y : Q) : bool := Qle_bool x y.
Definition geb (x y : Q) : bool := Qle_bool y x.

(** [Math.min(x, y)], [Math.max(x, y)], [Math.abs(x)]. *)
Definition Math_min (x y : Q) : Q := if Qle_bool x y then x else y.
Definition Math_max (x y : Q) : Q := if Qle_bool x y then y else x.
Definition Math_abs (x : Q) : Q := Qabs x.

(** [Math.round(x)]: the nearest integer, a tie going up. *)
Definition Math_round (x : Q) : Q := inject_Z (Qfloor (x + (1 # 2))%Q).

(** [parseFloat(x.toFixed(4))].  [toFixed] picks the integer [n] with
    [n / 10^4] nearest to [x], the larger one on a tie, and works on the
    absolute value of a negative [x]; [parseFloat] reads the decimal back. *)
Definition toFixed4_nonneg (x : Q) : Q :=
  (inject_Z (Qfloor (x * 10000 + (1 # 2))) / 10000)%Q.
Definition parseFloat_toFixed4 (x : Q) : Q :=
  if ltb x 0 then (- toFixed4_nonneg (- x))%Q else toFixed4_nonneg x.

(** [Array.prototype.findIndex]; [None] stands for the result [-1]. *)
Fixpoint findIndex {A : Type} (p : A -> bool) (l : list A) : option nat :=
  match l with
  | [] => None
  | x :: l' => if p x then Some O else option_map S (findIndex p l')
  end.

(** [Array.prototype.some]. *)
Definition some {A : Type} (p : A -> bool) (l : list A) : bool := existsb p l.

(** [Array.prototype.join(sep)] on strings. *)
Fixpoint join (sep : string) (l : list string) : string :=
  match l with
  | [] => EmptyString
  | [x] => x
  | x :: l' => (x ++ sep ++ join sep l')%string
  end.

End JS.

(* ===================================================================== *)
(** * The host                                                              *)
(* ===================================================================== *)

(** What the JavaScript runtime and the date-fns library provide.  The two
    sequences are oracles: the value of the n-th reading of the wall clock
    ([Date.now()], [new Date()]) and of the n-th call of [Math.random()]. *)
Record Host : Type := {
  wall_clock : nat -> Z;
  random_source : nat -> Q;
  (** [x.toString(radix)] *)
  Number_toString_radix : Z -> Q -> string;
  (** the string a number becomes inside a template literal *)
  Number_toString : Q -> string;
  (** [parseFloat(s)]; [None] is NaN *)
  parseFloat : string -> option Q;
  Math_sin : Q -> Q;
  Math_cos : Q -> Q;
  Math_sqrt : Q -> Q;
  Math_atan2 : Q -> Q -> Q;
  Math_PI : Q;
  (** date-fns [format(new Date(t), 'yyyy-MM-dd')] *)
  format_yyyy_MM_dd : Z -> string;
  (** [d.setDate(d.getDate() + n)], on time values *)
  Date_addDays : Z -> Z -> Z
}.

(** The values ECMAScript fixes for the boundary arguments of the functions it
    otherwise leaves to the implementation: [sin(+0) = +0], [sqrt(+0) = +0],
    [sqrt(1) = 1], and [atan2(+0, x) = +0] for [x > 0]. *)
Record HostBoundaryValues (H : Host) : Prop := {
  sin_zero : forall x : Q, (x == 0 -> Math_sin H x == 0)%Q;
  sqrt_zero : forall x : Q, (x == 0 -> Math_sqrt H x == 0)%Q;
  sqrt_one : forall x : Q, (x == 1 -> Math_sqrt H x == 1)%Q;
  atan2_zero : forall y x : Q, (y == 0 -> 0 < x -> Math_atan2 H y x == 0)%Q
}.

(* ===================================================================== *)
(** * Data model ([shared/schema.ts] and the oracle's interfaces)           *)
(* ===================================================================== *)

(** [InsertEarthquake]: an event before the store gives it an identity. *)
Module InsertEarthquake.
Record t : Type := mk {
  place : string;
  magnitude : Q;
  depth : Q;
  latitude : Q;
  longitude : Q;
  time : Z;
  flareNetworkId : option string;
  verified : option bool;
  source : string;
  url : option string;
  tsunami : option bool
}.
End InsertEarthquake.

(** [Earthquake]: the stored event, [{...insertEarthquake, id, createdAt}].
    [flareVerified] is the property that [verifyEarthquakeData] adds to the
    stored object; it is absent ([None]) on a freshly created event. *)
Module Earthquake.
Record t : Type := mk {
  id : string;
  createdAt : Z;
  data : InsertEarthquake.t;
  flareVerified : option bool
}.
Definition place (e : t) : string := InsertEarthquake.place (data e).
Definition magnitude (e : t) : Q := InsertEarthquake.magnitude (data e).
Definition depth (e : t) : Q := InsertEarthquake.depth (data e).
Definition latitude (e : t) : Q := InsertEarthquake.latitude (data e).
Definition longitude (e : t) : Q := InsertEarthquake.longitude (data e).
Definition time (e : t) : Z := InsertEarthquake.time (data e).
End Earthquake.

(** [InsertAlert] and [Alert] ([{...insertAlert, id}]). *)
Module InsertAlert.
Record t : Type := mk {
  message : string;
  severity : string;
  magnitude : option Q;
  location : option string;
  earthquakeId : option string;
  timestamp : Z;
  active : option bool
}.
End InsertAlert.

Module Alert.
Record t : Type := mk {
  id : Z;
  data : InsertAlert.t
}.
End Alert.

(** [EarthquakeFilters]. *)
Module EarthquakeFilters.
Record t : Type := mk {
  timeRange : string;
  magnitude : string;
  region : string
}.
End EarthquakeFilters.

Inductive RiskLevel : Type := LOW | MEDIUM | HIGH | CRITICAL.

(** [FinancialImpactData].  [marketSpecificScores] is the object built by
    assigning [marketSpecificScores[market]] for each affected market. *)
Module FinancialImpactData.
Record t : Type := mk {
  earthquakeId : string;
  timestamp : Z;
  marketImpactScore : Q;
  volatilityIndex : Q;
  affectedMarkets : list string;
  affectedCurrencies : list string;
  riskLevel : RiskLevel;
  marketSpecificScores : gmap string Q;
  summary : string;
  recommendations : list string
}.
End FinancialImpactData.

(** [OracleSubscription]. *)
Module OracleSubscription.
Record t : Type := mk {
  id : Z;
  apiKey : string;
  subscriber : string;
  organizationName : string;
  contactEmail : string;
  startDate : Z;
  endDate : Z;
  active : bool;
  remainingRequests : Z;
  lastRequestDate : option Z
}.
End OracleSubscription.

(** [ApiKeyValidation]: [{ valid: false }], or the valid record with its five
    fields. *)
Module ApiKeyValidation.
Inductive t : Type :=
| invalid
| valid (subscriberId : string) (subscriptionId : Z) (organization : string)
        (remainingRequests : Z) (expiresAt : Z).
Definition is_valid (v : t) : bool :=
  match v with invalid => false | valid _ _ _ _ _ => true end.
End ApiKeyValidation.

(** [ExchangeRateData] and [CurrencyPair]. *)
Module QuakeRef.
Record t : Type := mk { id : string; magnitude : Q; place : string }.
End QuakeRef.

Module ExchangeRateData.
Record t : Type := mk {
  date : string;
  rate : Q;
  earthquake : option QuakeRef.t
}.
End ExchangeRateData.

Module CurrencyPair.
Record t : Type := mk { base : string; quote : string; name : string }.
End CurrencyPair.

(* ===================================================================== *)
(** * The mutable world and its monad                                       *)
(* ===================================================================== *)

(** A JavaScript [Map] with string keys whose iteration order the program
    observes: pairs in insertion order; [set] on a present key replaces the
    value where it stands. *)
Module JSMap.
Section Ops.
Context {V : Type}.

Fixpoint get (k : string) (m : list (string * V)) : option V :=
  match m with
  | [] => None
  | (k', v) :: m' => if String.eqb k' k then Some v else get k m'
  end.

Fixpoint set (k : string) (v : V) (m : list (string * V)) : list (string * V) :=
  match m with
  | [] => [(k, v)]
  | (k', v') :: m' =>
      if String.eqb k' k then (k, v) :: m' else (k', v') :: set k v m'
  end.

Definition values (m : list (string * V)) : list V := map snd m.
End Ops.
End JSMap.

(** [earthquakes], [alerts], [alertIdCounter]: the fields of [MemStorage];
    [financialImpactCache], [apiKeys]: the oracle's module level maps;
    [clock_reads], [random_draws]: how far the two host oracles were read. *)
Record World : Type := mkWorld {
  earthquakes : list (string * Earthquake.t);
  alerts : gmap Z Alert.t;
  alertIdCounter : Z;
  financialImpactCache : gmap string FinancialImpactData.t;
  apiKeys : gmap string OracleSubscription.t;
  clock_reads : nat;
  random_draws : nat
}.

Definition set_earthquakes (x : list (string * Earthquake.t)) (w : World) : World :=
  mkWorld x (alerts w) (alertIdCounter w) (financialImpactCache w) (apiKeys w)
          (clock_reads w) (random_draws w).
Definition set_alerts (x : gmap Z Alert.t) (w : World) : World :=
  mkWorld (earthquakes w) x (alertIdCounter w) (financialImpactCache w) (apiKeys w)
          (clock_reads w) (random_draws w).
Definition set_alertIdCounter (x : Z) (w : World) : World :=
  mkWorld (earthquakes w) (alerts w) x (financialImpactCache w) (apiKeys w)
          (clock_reads w) (random_draws w).
Definition set_financialImpactCache (x : gmap string FinancialImpactData.t)
    (w : World) : World :=
  mkWorld (earthquakes w) (alerts w) (alertIdCounter w) x (apiKeys w)
          (clock_reads w) (random_draws w).
Definition set_apiKeys (x : gmap string OracleSubscription.t) (w : World) : World :=
  mkWorld (earthquakes w) (alerts w) (alertIdCounter w) (financialImpactCache w) x
          (clock_reads w) (random_draws w).
Definition set_clock_reads (x : nat) (w : World) : World :=
  mkWorld (earthquakes w) (alerts w) (alertIdCounter w) (financialImpactCache w)
          (apiKeys w) x (random_draws w).
Definition set_random_draws (x : nat) (w : World) : World :=
  mkWorld (earthquakes w) (alerts w) (alertIdCounter w) (financialImpactCache w)
          (apiKeys w) (clock_reads w) x.

(** The world of a process that has stored nothing yet (the constructor of
    [MemStorage] before [initializeSampleData], and the two empty maps of the
    oracle). *)
Definition empty_world : World :=
  mkWorld [] ∅ 1%Z ∅ ∅ O O.

(** Computations over the world. *)
Definition M (A : Type) : Type := World -> A * World.

Definition ret {A : Type} (a : A) : M A := fun w => (a, w).
Definition bind {A B : Type} (m : M A) (k : A -> M B) : M B :=
  fun w => k (fst (m w)) (snd (m w)).
Definition gets {A : Type} (f : World -> A) : M A := fun w => (f w, w).
Definition modify (f : World -> World) : M unit := fun w => (tt, f w).

Declare Scope world_scope.
Delimit Scope world_scope with world.
Notation "x <- m ;; k" := (bind m (fun x => k))
  (at level 89, m at next level, right associativity) : world_scope.
Notation "m ;;; k" := (bind m (fun _ => k))
  (at level 89, right associativity) : world_scope.

(** What a computation returns and the world it leaves. *)
Definition result {A : Type} (m : M A) (w : World) : A := fst (m w).
Definition after {A : Type} (m : M A) (w : World) : World := snd (m w).

Section Program.

Context (H : Host).
Local Open Scope world_scope.

(** [Date.now()] / [new Date()]: the next value of the wall clock. *)
Definition Date_now : M Z :=
  fun w => (wall_clock H (clock_reads w), set_clock_reads (S (clock_reads w)) w).

(** [Math.random()]: the next value of the random source. *)
Definition Math_random : M Q :=
  fun w => (random_source H (random_draws w),
            set_random_draws (S (random_draws w)) w).

(* =================================================================== *)
(** ** [server/storage.ts]: MemStorage                                   *)
(* =================================================================== *)

(** The [switch] on [filters.timeRange]; every other string, 'custom'
    included, takes the [default] branch that '24h' falls into. *)
Definition timeFilter_of (timeRange : string) : Z :=
  if String.eqb timeRange "7d" then 7 * 24 * 60 * 60 * 1000
  else if String.eqb timeRange "30d" then 30 * 24 * 60 * 60 * 1000
  else if String.eqb timeRange "1y" then 365 * 24 * 60 * 60 * 1000
  else 24 * 60 * 60 * 1000.

(** The magnitude filter: skipped for 'all', else [quake.magnitude >=
    parseFloat(filters.magnitude)], false for every quake when that is NaN. *)
Definition magnitude_filter (magnitude : string) (quake : Earthquake.t) : bool :=
  if String.eqb magnitude "all" then true
  else match parseFloat H magnitude with
       | Some minMagnitude => JS.geb (Earthquake.magnitude quake) minMagnitude
       | None => false
       end.

Definition in_box (quake : Earthquake.t) (lat_lo lat_hi lon_lo lon_hi : Q) : bool :=
  JS.geb (Earthquake.latitude quake) lat_lo && JS.leb (Earthquake.latitude quake) lat_hi
  && JS.geb (Earthquake.longitude quake) lon_lo
  && JS.leb (Earthquake.longitude quake) lon_hi.

(** The region filter: skipped for 'global'; the [switch] has no default,
    so a region it does not list filters nothing. *)
Definition region_filter (region : string) (quake : Earthquake.t) : bool :=
  if String.eqb region "global" then true
  else if String.eqb region "north_america" then in_box quake 15 90 (-170) (-30)
  else if String.eqb region "south_america" then in_box quake (-60) 15 (-90) (-30)
  else if String.eqb region "europe" then in_box quake 35 75 (-25) 45
  else if String.eqb region "asia" then in_box quake 0 80 45 180
  else if String.eqb region "africa" then in_box quake (-40) 40 (-20) 55
  else if String.eqb region "australia" then in_box quake (-50) (-10) 110 180
  else true.

(** [earthquakes.sort((a, b) => b.time - a.time)]: most recent first; the
    sort is stable, so events of equal time keep their order. *)
Fixpoint insert_by_time (x : Earthquake.t) (l : list Earthquake.t) : list Earthquake.t :=
  match l with
  | [] => [x]
  | y :: l' =>
      if (Earthquake.time y <=? Earthquake.time x)%Z then x :: y :: l'
      else y :: insert_by_time x l'
  end.
Definition sort_most_recent_first (l : list Earthquake.t) : list Earthquake.t :=
  fold_right insert_by_time [] l.

Definition getEarthquakes (filters : EarthquakeFilters.t) : M (list Earthquake.t) :=
  all <- gets (fun w => JSMap.values (earthquakes w)) ;;
  now <- Date_now ;;
  let timeFilter := timeFilter_of (EarthquakeFilters.timeRange filters) in
  let in_time := List.filter
    (fun quake => (now - Earthquake.time quake <=? timeFilter)%Z) all in
  let by_magnitude := List.filter
    (magnitude_filter (EarthquakeFilters.magnitude filters)) in_time in
  let by_region := List.filter
    (region_filter (EarthquakeFilters.region filters)) by_magnitude in
  ret (sort_most_recent_first by_region).

Definition getEarthquake (id : string) : M (option Earthquake.t) :=
  gets (fun w => JSMap.get id (earthquakes w)).

(** The identity is ['eq_'] followed by characters 2..8 of the base 36
    expansion of a random number. *)
Definition createEarthquake (insertEarthquake : InsertEarthquake.t) : M Earthquake.t :=
  r <- Math_random ;;
  let id := ("eq_" ++ String.substring 2 7 (Number_toString_radix H 36 r))%string in
  now <- Date_now ;;
  let earthquake := Earthquake.mk id now insertEarthquake None in
  modify (fun w => set_earthquakes (JSMap.set id earthquake (earthquakes w)) w) ;;;
  ret earthquake.

(** [updateEarthquake(id, data)] stores [{...earthquake, ...data}]; [data]
    is given by what spreading it over the stored object yields. *)
Definition updateEarthquake (id : string) (data : Earthquake.t -> Earthquake.t)
    : M (option Earthquake.t) :=
  earthquake <- gets (fun w => JSMap.get id (earthquakes w)) ;;
  match earthquake with
  | None => ret None
  | Some e =>
      let updatedEarthquake := data e in
      modify (fun w => set_earthquakes
                         (JSMap.set id updatedEarthquake (earthquakes w)) w) ;;;
      ret (Some updatedEarthquake)
  end.

Definition createAlert (insertAlert : InsertAlert.t) : M Alert.t :=
  id <- gets alertIdCounter ;;
  modify (set_alertIdCounter (id + 1)%Z) ;;;
  let alert := Alert.mk id insertAlert in
  modify (fun w => set_alerts (<[id := alert]> (alerts w)) w) ;;;
  ret alert.

(* =================================================================== *)
(** ** [server/flareNetwork.ts]                                          *)
(* =================================================================== *)

(** [verifyEarthquakeData]: marks the stored event [flareVerified] and draws
    one random number for the transaction hash of its reply; the result here
    is the reply's [success]. *)
Definition verifyEarthquakeData (earthquakeId : string) : M bool :=
  earthquake <- getEarthquake earthquakeId ;;
  match earthquake with
  | None => ret false
  | Some e =>
      updateEarthquake earthquakeId
        (fun _ => Earthquake.mk (Earthquake.id e) (Earthquake.createdAt e)
                                (Earthquake.data e) (Some true)) ;;;
      Math_random ;;;
      ret true
  end.

(* =================================================================== *)
(** ** [server/earthquakeService.ts]: ingestion                          *)
(* =================================================================== *)

(** The predicate handed to [existingEarthquakes.some]. *)
Definition same_occurrence (quakeData : InsertEarthquake.t) (existing : Earthquake.t)
    : bool :=
  String.eqb (Earthquake.place existing) (InsertEarthquake.place quakeData)
  && JS.ltb (JS.Math_abs (Earthquake.magnitude existing
                          - InsertEarthquake.magnitude quakeData)) 0.1
  && (Z.abs (Earthquake.time existing - InsertEarthquake.time quakeData)
      <? 1000 * 60 * 5)%Z.

(** The alert built for a stored event of magnitude at least 4.0. *)
Definition alertData_for (quakeData : InsertEarthquake.t) (earthquake : Earthquake.t)
    (timestamp : Z) : InsertAlert.t :=
  InsertAlert.mk
    (if JS.geb (InsertEarthquake.magnitude quakeData) 6.0
     then "Major Earthquake Warning" else "Moderate Earthquake Alert")
    (if JS.geb (InsertEarthquake.magnitude quakeData) 6.0 then "high" else "medium")
    (Some (InsertEarthquake.magnitude quakeData))
    (Some (InsertEarthquake.place quakeData))
    (Some (Earthquake.id earthquake))
    timestamp
    (Some true).

(** One turn of the loop of [processNewEarthquakes]: [Some earthquake] when
    the candidate was stored and pushed on [newEarthquakes]. *)
Definition processCandidate (quakeData : InsertEarthquake.t) : M (option Earthquake.t) :=
  existingEarthquakes <-
    getEarthquakes (EarthquakeFilters.mk "24h" "all" "global") ;;
  let exists_ := JS.some (same_occurrence quakeData) existingEarthquakes in
  if negb exists_ then
    earthquake <- createEarthquake quakeData ;;
    (if JS.geb (InsertEarthquake.magnitude quakeData) 4.0 then
       timestamp <- Date_now ;;
       createAlert (alertData_for quakeData earthquake timestamp) ;;;
       ret tt
     else ret tt) ;;;
    (if JS.geb (InsertEarthquake.magnitude quakeData) 5.0 then
       verifyEarthquakeData (Earthquake.id earthquake) ;;; ret tt
     else ret tt) ;;;
    ret (Some earthquake)
  else ret None.

Fixpoint processNewEarthquakes_from (newEarthquakes : list Earthquake.t)
    (earthquakes : list InsertEarthquake.t) : M (list Earthquake.t) :=
  match earthquakes with
  | [] => ret newEarthquakes
  | quakeData :: rest =>
      admitted <- processCandidate quakeData ;;
      processNewEarthquakes_from
        (match admitted with
         | Some earthquake => newEarthquakes ++ [earthquake]
         | None => newEarthquakes
         end) rest
  end.

Definition processNewEarthquakes (earthquakes : list InsertEarthquake.t)
    : M (list Earthquake.t) :=
  processNewEarthquakes_from [] earthquakes.

(* =================================================================== *)
(** ** [server/oracle/financialImpactOracle.ts]: the risk model          *)
(* =================================================================== *)

Local Open Scope Q_scope.

Definition calculateMagnitudeImpact (magnitude : Q) : Q :=
  if JS.ltb magnitude 5.0 then magnitude * 5
  else if JS.ltb magnitude 6.0 then 25 + (magnitude - 5.0) * 20
  else if JS.ltb magnitude 7.0 then 45 + (magnitude - 6.0) * 25
  else 70 + JS.Math_min 30 ((magnitude - 7.0) * 15).

Definition calculateDepthImpact (depth : Q) : Q :=
  if JS.ltb depth 10 then 80 + JS.Math_max 0 (10 - depth) * 2
  else if JS.ltb depth 30 then 60 + JS.Math_max 0 (30 - depth)
  else if JS.ltb depth 70 then 40 + JS.Math_max 0 (70 - depth) / 2
  else JS.Math_max 10 (100 - depth).

Definition deg2rad (deg : Q) : Q := deg * (Math_PI H / 180).

(** The haversine distance test, Earth's radius being 6371 km. *)
Definition isLocationNearRegion (lat1 lon1 lat2 lon2 radius : Q) : bool :=
  let R := 6371 in
  let dLat := deg2rad (lat2 - lat1) in
  let dLon := deg2rad (lon2 - lon1) in
  let a :=
    Math_sin H (dLat / 2) * Math_sin H (dLat / 2)
    + Math_cos H (deg2rad lat1) * Math_cos H (deg2rad lat2)
      * Math_sin H (dLon / 2) * Math_sin H (dLon / 2) in
  let c := 2 * Math_atan2 H (Math_sqrt H a) (Math_sqrt H (1 - a)) in
  let distance := R * c in
  JS.leb distance radius.

Definition calculateLocationImpact (latitude longitude : Q) : Q :=
  if isLocationNearRegion latitude longitude 35.6762 139.6503 500 then 90
  else if isLocationNearRegion latitude longitude 37.7749 (-122.4194) 300 then 85
  else if isLocationNearRegion latitude longitude 40.7128 (-74.0060) 300 then 90
  else if isLocationNearRegion latitude longitude 51.5074 (-0.1278) 300 then 85
  else if isLocationNearRegion latitude longitude 22.3193 114.1694 300 then 90
  else if isLocationNearRegion latitude longitude 1.3521 103.8198 300 then 80
  else 30.

(** The two arrays the function fills with [push], in that order. *)
Definition getAffectedMarketsAndCurrencies (latitude longitude : Q)
    : list string * list string :=
  let '(m1, c1) :=
    if isLocationNearRegion latitude longitude 35.6762 139.6503 800
    then (["NIKKEI"; "JPX"], ["JPY"]) else ([], []) in
  let '(m2, c2) :=
    if isLocationNearRegion latitude longitude 37.7749 (-122.4194) 800
    then (m1 ++ ["NASDAQ"; "NYSE"; "SP500"], c1 ++ ["USD"]) else (m1, c1) in
  let '(m3, c3) :=
    if isLocationNearRegion latitude longitude (-33.8688) 151.2093 800
    then (m2 ++ ["ASX200"], c2 ++ ["AUD"]) else (m2, c2) in
  let '(m4, c4) :=
    if isLocationNearRegion latitude longitude 31.2304 121.4737 800
    then (m3 ++ ["SSE"; "SZSE"], c3 ++ ["CNY"]) else (m3, c3) in
  if (length m4 =? 0)%nat
  then (m4 ++ ["GLOBAL_MARKETS"], c4 ++ ["USD"; "EUR"])
  else (m4, c4).

(** The string value of a member of the [RiskLevel] enum. *)
Definition RiskLevel_value (r : RiskLevel) : string :=
  match r with
  | LOW => "LOW" | MEDIUM => "MEDIUM" | HIGH => "HIGH" | CRITICAL => "CRITICAL"
  end.

Definition generateRecommendations (riskLevel : RiskLevel)
    (affectedMarkets affectedCurrencies : list string) : list string :=
  match riskLevel with
  | LOW =>
      [ "Monitor situation for potential supply chain disruptions in affected regions.";
        "No immediate market action required, continue normal operations." ]
  | MEDIUM =>
      [ "Monitor " ++ JS.join ", " affectedMarkets
          ++ " for increased volatility in the next 24-48 hours.";
        "Consider hedging exposure to " ++ JS.join ", " affectedCurrencies
          ++ " in the short term.";
        "Review supply chain resilience in affected regions." ]
  | HIGH =>
      [ "Anticipate significant volatility in " ++ JS.join ", " affectedMarkets
          ++ " for 3-5 days.";
        "Implement hedging strategies for " ++ JS.join ", " affectedCurrencies
          ++ " positions.";
        "Activate business continuity plans for operations in affected regions.";
        "Consider temporary portfolio reallocation to reduce risk exposure." ]
  | CRITICAL =>
      [ "Immediate action required to mitigate exposure to "
          ++ JS.join ", " affectedMarkets ++ ".";
        "Implement maximum hedging for " ++ JS.join ", " affectedCurrencies
          ++ " positions.";
        "Activate emergency business continuity protocols.";
        "Prepare for potential market circuit breakers and trading halts.";
        "Set up crisis management team to monitor developments." ]
  end%string.

Definition generateSummary (earthquake : Earthquake.t) (riskLevel : RiskLevel)
    (marketImpactScore volatilityIndex : Q) : string :=
  (RiskLevel_value riskLevel ++ " financial impact risk from M"
   ++ Number_toString H (Earthquake.magnitude earthquake)
   ++ " earthquake near " ++ Earthquake.place earthquake
   ++ ". Market impact score: " ++ Number_toString H marketImpactScore
   ++ "/100, Expected volatility index: " ++ Number_toString H volatilityIndex
   ++ "/100. Monitor markets for potential disruptions and implement appropriate risk management strategies.")%string.

(** The overall score of an event: [Math.min(100, Math.round(...))] of the
    weighted impacts. *)
Definition marketImpactScore_of (earthquake : Earthquake.t) : Q :=
  let magnitudeImpact := calculateMagnitudeImpact (Earthquake.magnitude earthquake) in
  let depthImpact := calculateDepthImpact (Earthquake.depth earthquake) in
  let locationImpact :=
    calculateLocationImpact (Earthquake.latitude earthquake)
                            (Earthquake.longitude earthquake) in
  JS.Math_min 100
    (JS.Math_round (magnitudeImpact * 0.5 + depthImpact * 0.2 + locationImpact * 0.3)).

(** The chain of comparisons that turns the score into a risk level. *)
Definition riskLevel_of (marketImpactScore : Q) : RiskLevel :=
  if JS.ltb marketImpactScore 30 then LOW
  else if JS.ltb marketImpactScore 60 then MEDIUM
  else if JS.ltb marketImpactScore 85 then HIGH
  else CRITICAL.

(** [affectedMarkets.forEach(market => marketSpecificScores[market] = ...)],
    one random draw for each market. *)
Fixpoint marketSpecificScores_from (scores : gmap string Q) (marketImpactScore : Q)
    (affectedMarkets : list string) : M (gmap string Q) :=
  match affectedMarkets with
  | [] => ret scores
  | market :: rest =>
      r <- Math_random ;;
      marketSpecificScores_from
        (<[market := JS.Math_min 100
                       (JS.Math_round (marketImpactScore * (0.7 + r * 0.5)))]> scores)
        marketImpactScore rest
  end.

Definition generateFinancialImpactData (earthquake : Earthquake.t)
    : M FinancialImpactData.t :=
  cached <- gets (fun w => financialImpactCache w !! Earthquake.id earthquake) ;;
  match cached with
  | Some impactData => ret impactData
  | None =>
      let marketImpactScore := marketImpactScore_of earthquake in
      let riskLevel := riskLevel_of marketImpactScore in
      let '(affectedMarkets, affectedCurrencies) :=
        getAffectedMarketsAndCurrencies (Earthquake.latitude earthquake)
                                        (Earthquake.longitude earthquake) in
      r <- Math_random ;;
      let volatilityIndex :=
        JS.Math_min 100 (JS.Math_round (marketImpactScore * 0.8 + r * 20)) in
      marketSpecificScores <-
        marketSpecificScores_from ∅ marketImpactScore affectedMarkets ;;
      let recommendations :=
        generateRecommendations riskLevel affectedMarkets affectedCurrencies in
      let summary :=
        generateSummary earthquake riskLevel marketImpactScore volatilityIndex in
      timestamp <- Date_now ;;
      let impactData :=
        FinancialImpactData.mk (Earthquake.id earthquake) timestamp marketImpactScore
          volatilityIndex affectedMarkets affectedCurrencies riskLevel
          marketSpecificScores summary recommendations in
      modify (fun w => set_financialImpactCache
                         (<[Earthquake.id earthquake := impactData]>
                            (financialImpactCache w)) w) ;;;
      ret impactData
  end.

Definition getFinancialImpactForEarthquake (earthquakeId : string)
    : M (option FinancialImpactData.t) :=
  cached <- gets (fun w => financialImpactCache w !! earthquakeId) ;;
  match cached with
  | Some impactData => ret (Some impactData)
  | None =>
      earthquake <- getEarthquake earthquakeId ;;
      match earthquake with
      | None => ret None
      | Some e => impactData <- generateFinancialImpactData e ;; ret (Some impactData)
      end
  end.

(** [filteredEarthquakes.map(quake => ({...quake, financialImpact: ...}))]:
    each element is the event paired with its assessment. *)
Fixpoint withFinancialImpact (quakes : list Earthquake.t)
    : M (list (Earthquake.t * FinancialImpactData.t)) :=
  match quakes with
  | [] => ret []
  | quake :: rest =>
      financialImpact <- generateFinancialImpactData quake ;;
      more <- withFinancialImpact rest ;;
      ret ((quake, financialImpact) :: more)
  end.

Definition getEarthquakesWithFinancialImpact (startTime endTime : Z)
    : M (list (Earthquake.t * FinancialImpactData.t)) :=
  earthquakes <- getEarthquakes (EarthquakeFilters.mk "custom" "all" "global") ;;
  let filteredEarthquakes :=
    List.filter (fun quake => (startTime <=? Earthquake.time quake)%Z
                              && (Earthquake.time quake <=? endTime)%Z) earthquakes in
  withFinancialImpact filteredEarthquakes.

(* =================================================================== *)
(** ** [server/oracle/financialImpactOracle.ts]: API keys                *)
(* =================================================================== *)

Definition validateApiKey (apiKey : string) : M ApiKeyValidation.t :=
  subscription <- gets (fun w => apiKeys w !! apiKey) ;;
  match subscription with
  | None => ret ApiKeyValidation.invalid
  | Some subscription =>
      now <- Date_now ;;
      if negb (OracleSubscription.active subscription)
         || (OracleSubscription.endDate subscription <? now)%Z
      then ret ApiKeyValidation.invalid
      else if (OracleSubscription.remainingRequests subscription <=? 0)%Z
      then ret ApiKeyValidation.invalid
      else ret (ApiKeyValidation.valid
                  (OracleSubscription.subscriber subscription)
                  (OracleSubscription.id subscription)
                  (OracleSubscription.organizationName subscription)
                  (OracleSubscription.remainingRequests subscription)
                  (OracleSubscription.endDate subscription))
  end.

(** ['qs_'] and two runs of up to 13 base 36 digits. *)
Definition generateRandomApiKey : M string :=
  r1 <- Math_random ;;
  r2 <- Math_random ;;
  ret ("qs_" ++ String.substring 2 13 (Number_toString_radix H 36 r1)
             ++ String.substring 2 13 (Number_toString_radix H 36 r2))%string.

Definition createApiKey (subscriber organizationName contactEmail : string)
    (durationDays requestLimit : Z) : M (string * OracleSubscription.t) :=
  apiKey <- generateRandomApiKey ;;
  startDate <- Date_now ;;
  endDate0 <- Date_now ;;
  let endDate := Date_addDays H endDate0 durationDays in
  size <- gets (fun w => Z.of_nat (size (apiKeys w))) ;;
  let subscriptionId := (size + 1)%Z in
  let subscription :=
    OracleSubscription.mk subscriptionId apiKey subscriber organizationName
      contactEmail startDate endDate true requestLimit None in
  modify (fun w => set_apiKeys (<[apiKey := subscription]> (apiKeys w)) w) ;;;
  ret (apiKey, subscription).

(** A call either returns or throws an [Error] with a message. *)
Inductive Outcome (A : Type) : Type :=
| Returned (a : A)
| Thrown (message : string).
Arguments Returned {A} a.
Arguments Thrown {A} message.

(** [recordApiRequest]: the subscription object is mutated where it sits in
    the key table. *)
Definition recordApiRequest (apiKey : string) : M (Outcome Z) :=
  subscription <- gets (fun w => apiKeys w !! apiKey) ;;
  match subscription with
  | None => ret (Thrown "Invalid API key")
  | Some s =>
      let remaining := (OracleSubscription.remainingRequests s - 1)%Z in
      now <- Date_now ;;
      let s' :=
        OracleSubscription.mk
          (OracleSubscription.id s) (OracleSubscription.apiKey s)
          (OracleSubscription.subscriber s) (OracleSubscription.organizationName s)
          (OracleSubscription.contactEmail s) (OracleSubscription.startDate s)
          (OracleSubscription.endDate s) (OracleSubscription.active s)
          remaining (Some now) in
      modify (fun w => set_apiKeys (<[apiKey := s']> (apiKeys w)) w) ;;;
      ret (Returned remaining)
  end.

(* =================================================================== *)
(** ** [server/oracle/oracleRoutes.ts]: the [verifyApiKey] middleware    *)
(* =================================================================== *)

(** What the middleware does with a request: it answers with a status and
    the [error] and [code] of its JSON body, or it calls [next()] after
    attaching the validation and the remaining budget to the request. *)
Inductive Gate : Type :=
| Respond (status : Z) (error code : string)
| Next (apiKeyValidation : ApiKeyValidation.t) (remainingRequests : Z).

(** [apiKey] is the [x-api-key] header; an absent header and the empty
    string are both falsy. *)
Definition verifyApiKey (apiKey : option string) : M Gate :=
  match apiKey with
  | None | Some EmptyString =>
      ret (Respond 401 "API key is required" "MISSING_API_KEY")
  | Some apiKey =>
      validation <- validateApiKey apiKey ;;
      if negb (ApiKeyValidation.is_valid validation) then
        ret (Respond 401 "Invalid API key" "INVALID_API_KEY")
      else
        recorded <- recordApiRequest apiKey ;;
        match recorded with
        | Returned remainingRequests => ret (Next validation remainingRequests)
        | Thrown _ =>
            ret (Respond 400 "Failed to record API request" "REQUEST_RECORDING_FAILED")
        end
  end.

(* =================================================================== *)
(** ** [server/exchangeRateService.ts]: the earthquake overlay           *)
(* =================================================================== *)

(** The body of the loop over the significant quakes: the overlay of one
    quake on the series built so far. *)
Definition overlay_quake (currencyPair : CurrencyPair.t)
    (result : list ExchangeRateData.t) (quake : Earthquake.t)
    : list ExchangeRateData.t :=
  let quakeDate := format_yyyy_MM_dd H (Earthquake.time quake) in
  match JS.findIndex (fun r => String.eqb (ExchangeRateData.date r) quakeDate) result with
  | None => result
  | Some matchingRateIndex =>
      let impactMagnitude :=
        if JS.geb (Earthquake.magnitude quake) 7.0 then 0.02
        else if JS.geb (Earthquake.magnitude quake) 6.0 then 0.01
        else 0.005 in
      let impactDirection :=
        if String.eqb (CurrencyPair.base currencyPair) "USD" then -1 else 1 in
      match result !! matchingRateIndex with
      | None => result
      | Some matching =>
          let impactedRate :=
            ExchangeRateData.rate matching * (1 + impactDirection * impactMagnitude) in
          let result1 :=
            <[matchingRateIndex :=
                ExchangeRateData.mk
                  (ExchangeRateData.date matching)
                  (JS.parseFloat_toFixed4 impactedRate)
                  (Some (QuakeRef.mk (Earthquake.id quake)
                                     (Earthquake.magnitude quake)
                                     (Earthquake.place quake)))]> result in
          if (Z.of_nat matchingRateIndex <? Z.of_nat (length result1) - 1)%Z then
            match result1 !! S matchingRateIndex with
            | None => result1
            | Some following =>
                let aftershockImpact := impactMagnitude * 0.4 in
                let aftershockRate :=
                  ExchangeRateData.rate following
                  * (1 + impactDirection * aftershockImpact) in
                <[S matchingRateIndex :=
                    ExchangeRateData.mk
                      (ExchangeRateData.date following)
                      (JS.parseFloat_toFixed4 aftershockRate)
                      (ExchangeRateData.earthquake following)]> result1
            end
          else result1
      end
  end.

Definition enrichExchangeRateDataWithEarthquakes
    (exchangeRates : list ExchangeRateData.t) (earthquakes : list Earthquake.t)
    (currencyPair : CurrencyPair.t) : list ExchangeRateData.t :=
  let result := exchangeRates in
  let significantQuakes :=
    List.filter (fun eq => JS.geb (Earthquake.magnitude eq) 5.0) earthquakes in
  fold_left (overlay_quake currencyPair) significantQuakes result.

End Program.

Arguments Returned {A} a.
Arguments Thrown {A} message.

(* ===================================================================== *)
(** * [server/earthquakeService.ts]: parsing the feed                       *)
(* ===================================================================== *)

(** The feed is untyped ([rawData: any]).  A feature may lack its
    [properties] or its [geometry], a geometry its [coordinates], and the
    properties any of their members; [None] is JavaScript's [undefined]. *)
Module RawFeature.
Record properties_t : Type := mk_properties {
  place : option string;
  mag : option Q;
  time : option Z;
  url : option string;
  tsunami : option Z
}.
Record geometry_t : Type := mk_geometry {
  coordinates : option (list Q)
}.
Record t : Type := mk {
  properties : option properties_t;
  geometry : option geometry_t;
  id : option string
}.
End RawFeature.

(** What [parseEarthquakeData] builds for a feature: the members of an
    [InsertEarthquake], those read from the feed still possibly
    [undefined]; a [time] of [None] is the Invalid Date that
    [new Date(undefined)] yields. *)
Module ParsedEarthquake.
Record t : Type := mk {
  place : option string;
  magnitude : option Q;
  depth : option Q;
  latitude : option Q;
  longitude : option Q;
  time : option Z;
  source : string;
  url : option string;
  tsunami : bool;
  verified : bool
}.
End ParsedEarthquake.

(** The callback of [rawData.features.map].  Reading [coordinates] of a
    missing geometry, destructuring missing coordinates and reading a member
    of missing properties each throw a [TypeError]; a missing array element or
    property is [undefined]. *)
Definition parseFeature (feature : RawFeature.t) : Outcome ParsedEarthquake.t :=
  match RawFeature.geometry feature with
  | None => Thrown "TypeError"
  | Some geometry =>
      match RawFeature.coordinates geometry with
      | None => Thrown "TypeError"
      | Some coordinates =>
          let longitude := nth_error coordinates 0 in
          let latitude := nth_error coordinates 1 in
          let depth := nth_error coordinates 2 in
          match RawFeature.properties feature with
          | None => Thrown "TypeError"
          | Some properties =>
              Returned
                (ParsedEarthquake.mk
                   (RawFeature.place properties)
                   (RawFeature.mag properties)
                   depth latitude longitude
                   (RawFeature.time properties)
                   "USGS"
                   (RawFeature.url properties)
                   (match RawFeature.tsunami properties with
                    | Some 1%Z => true
                    | _ => false
                    end)
                   false)
          end
      end
  end.

(** [Array.prototype.map] with a callback that may throw: the first throw
    ends the whole call. *)
Fixpoint map_features (features : list RawFeature.t)
    : Outcome (list ParsedEarthquake.t) :=
  match features with
  | [] => Returned []
  | feature :: rest =>
      match parseFeature feature with
      | Thrown message => Thrown message
      | Returned parsed =>
          match map_features rest with
          | Thrown message => Thrown message
          | Returned more => Returned (parsed :: more)
          end
      end
  end.

(** [parseEarthquakeData(rawData)]: the parsed records, and the lines written
    with [console.error].  [rawData] is [None] when the fetch returned [null],
    [Some None] when it has no [features]. *)
Definition parseEarthquakeData (rawData : option (option (list RawFeature.t)))
    : list ParsedEarthquake.t * list string :=
  match rawData with
  | Some (Some features) =>
      match map_features features with
      | Returned parsed => (parsed, [])
      | Thrown _ => ([], ["Error parsing earthquake data:"%string])
      end
  | _ => ([], ["Error parsing earthquake data:"%string])
  end.

(* ===================================================================== *)
(** * A reference host                                                      *)
(* ===================================================================== *)

(** A concrete host on which the program can be run: a clock that starts at
    [epoch] and advances one millisecond at each reading, a fixed cycle of
    random numbers, positional number formatting, polynomial approximations
    of the trigonometric functions, and UTC calendar dates. *)
Module RefHost.

Definition digit_char (d : Z) : ascii :=
  if (d <? 10)%Z then ascii_of_nat (48 + Z.to_nat d)
  else ascii_of_nat (87 + Z.to_nat d).

(** The digits of a natural number in a radix, most significant first. *)
Fixpoint digits_of (fuel : nat) (radix n : Z) (acc : string) : string :=
  match fuel with
  | O => acc
  | S fuel' =>
      let acc' := String (digit_char (n mod radix)) acc in
      if (n / radix =? 0)%Z then acc' else digits_of fuel' radix (n / radix) acc'
  end.

(** The digits of a fraction in [0, 1), up to [fuel] of them. *)
Fixpoint fraction_digits (fuel : nat) (radix : Z) (x : Q) : string :=
  match fuel with
  | O => EmptyString
  | S fuel' =>
      if Qeq_bool x 0 then EmptyString
      else
        let scaled := (x * inject_Z radix)%Q in
        let d := Qfloor scaled in
        String (digit_char d) (fraction_digits fuel' radix (scaled - inject_Z d)%Q)
  end.

Definition toString_radix (radix : Z) (x : Q) : string :=
  let negative := JS.ltb x 0 in
  let a := Qabs x in
  let whole := Qfloor a in
  let fraction := (a - inject_Z whole)%Q in
  ((if negative then "-" else "")
   ++ digits_of 64 radix whole EmptyString
   ++ (if Qeq_bool fraction 0 then "" else "." ++ fraction_digits 16 radix fraction))%string.

Definition digit_value (c : ascii) : option Z :=
  let n := Z.of_nat (nat_of_ascii c) in
  if ((48 <=? n) && (n <=? 57))%Z then Some (n - 48)%Z else None.

(** Reads [digits] or [digits.digits]; anything else is NaN. *)
Fixpoint parse_decimal (s : string) (whole : Z) (scale : option Z) (seen : bool)
    : option Q :=
  match s with
  | EmptyString =>
      if seen then
        Some (match scale with
              | None => inject_Z whole
              | Some k => (inject_Z whole / inject_Z k)%Q
              end)
      else None
  | String c s' =>
      match digit_value c with
      | Some d =>
          parse_decimal s' (whole * 10 + d)%Z
            (match scale with None => None | Some k => Some (k * 10)%Z end) true
      | None =>
          if (Ascii.eqb c "."%char && seen)%bool then
            match scale with
            | None => parse_decimal s' whole (Some 1%Z) seen
            | Some _ => None
            end
          else None
      end
  end.

(** Values are kept to twelve decimals. *)
Definition approx (x : Q) : Q :=
  Qred (inject_Z (Qfloor (x * 1000000000000)) / 1000000000000)%Q.

Definition sin_poly (x : Q) : Q :=
  let x := approx x in
  approx (x - x * x * x / 6 + x * x * x * x * x / 120)%Q.
Definition cos_poly (x : Q) : Q :=
  let x := approx x in
  approx (1 - x * x / 2 + x * x * x * x / 24)%Q.
Definition atan_poly (t : Q) : Q :=
  let t := approx t in
  approx (t - t * t * t / 3 + t * t * t * t * t / 5)%Q.

(** Twenty Newton steps from 1; 0 for an argument that is not positive. *)
Definition newton_step (x g : Q) : Q := approx ((g + x / g) / 2)%Q.
Fixpoint newton (steps : nat) (x g : Q) : Q :=
  match steps with
  | O => g
  | S steps' => newton steps' x (newton_step x g)
  end.
Definition sqrt_newton (x : Q) : Q :=
  if Qle_bool x 0 then 0%Q else newton 20 (approx x) 1%Q.

Definition PI : Q := 3.141592653589793%Q.

Definition atan2 (y x : Q) : Q :=
  if JS.ltb 0 x then atan_poly (y / x)%Q
  else if JS.ltb x 0 then
    (if JS.leb 0 y then atan_poly (y / x) + PI else atan_poly (y / x) - PI)%Q
  else if JS.ltb 0 y then (PI / 2)%Q
  else if JS.ltb y 0 then (- (PI / 2))%Q
  else 0%Q.

Definition pad2 (n : Z) : string :=
  ((if (n <? 10)%Z then "0" else "") ++ digits_of 8 10 n EmptyString)%string.
Definition pad4 (n : Z) : string :=
  ((if (n <? 10)%Z then "000" else if (n <? 100)%Z then "00"
    else if (n <? 1000)%Z then "0" else "") ++ digits_of 8 10 n EmptyString)%string.

(** The UTC calendar date of a time value, as [yyyy-MM-dd]. *)
Definition utc_date (t : Z) : string :=
  let z := (t / 86400000 + 719468)%Z in
  let era := (z / 146097)%Z in
  let doe := (z - era * 146097)%Z in
  let yoe := ((doe - doe / 1460 + doe / 36524 - doe / 146096) / 365)%Z in
  let doy := (doe - (365 * yoe + yoe / 4 - yoe / 100))%Z in
  let mp := ((5 * doy + 2) / 153)%Z in
  let d := (doy - (153 * mp + 2) / 5 + 1)%Z in
  let m := (if (mp <? 10)%Z then mp + 3 else mp - 9)%Z in
  let y := (yoe + era * 400 + (if (m <=? 2)%Z then 1 else 0))%Z in
  (pad4 y ++ "-" ++ pad2 m ++ "-" ++ pad2 d)%string.

Definition random_cycle (n : nat) : Q :=
  match (n mod 4)%nat with
  | 0%nat => 0.2718281828%Q
  | 1%nat => 0.5772156649%Q
  | 2%nat => 0.6931471805%Q
  | _ => 0.1415926535%Q
  end.

Definition host (epoch : Z) : Host := {|
  wall_clock := fun n => (epoch + Z.of_nat n)%Z;
  random_source := random_cycle;
  Number_toString_radix := toString_radix;
  Number_toString := toString_radix 10;
  parseFloat := fun s => parse_decimal s 0 None false;
  Math_sin := sin_poly;
  Math_cos := cos_poly;
  Math_sqrt := sqrt_newton;
  Math_atan2 := atan2;
  Math_PI := PI;
  format_yyyy_MM_dd := utc_date;
  Date_addDays := fun t n => (t + n * 86400000)%Z
|}.

End RefHost.

(* ===================================================================== *)
(** * Vocabulary of the statements                                          *)
(* ===================================================================== *)

(** The order [LOW < MEDIUM < HIGH < CRITICAL]. *)
Definition RiskLevel_rank (r : RiskLevel) : nat :=
  match r with LOW => 0 | MEDIUM => 1 | HIGH => 2 | CRITICAL => 3 end.
Definition RiskLevel_le (r1 r2 : RiskLevel) : Prop :=
  (RiskLevel_rank r1 <= RiskLevel_rank r2)%nat.

(** The 24 hour window of the store at the instant [now]: the stored events
    that pass the default time filter of [getEarthquakes]. *)
Definition in_24h_window (now : Z) (quake : Earthquake.t) : bool :=
  (now - Earthquake.time quake <=? 24 * 60 * 60 * 1000)%Z.
Definition window_24h (now : Z) (w : World) : list Earthquake.t :=
  List.filter (in_24h_window now) (JSMap.values (earthquakes w)).

(** The three conditions under which a candidate repeats a stored event. *)
Definition duplicate_of (quakeData : InsertEarthquake.t) (existing : Earthquake.t)
    : Prop :=
  Earthquake.place existing = InsertEarthquake.place quakeData
  /\ (Qabs (Earthquake.magnitude existing - InsertEarthquake.magnitude quakeData)
      < 0.1)%Q
  /\ (Z.abs (Earthquake.time existing - InsertEarthquake.time quakeData)
      < 5 * 60 * 1000)%Z.

(** The candidate repeats an event of the 24 hour window, taken at the
    instant the next reading of the clock gives. *)
Definition repeats_window (H : Host) (quakeData : InsertEarthquake.t) (w : World)
    : Prop :=
  exists existing,
    In existing (window_24h (wall_clock H (clock_reads w)) w)
    /\ duplicate_of quakeData existing.

(** The event that [createEarthquake] builds for a candidate whose turn
    starts in the world [w]: the turn has read the clock once before, and
    the identity comes from the next random number. *)
Definition created_for (H : Host) (quakeData : InsertEarthquake.t) (w : World)
    : Earthquake.t :=
  Earthquake.mk
    ("eq_" ++ String.substring 2 7
                (Number_toString_radix H 36 (random_source H (random_draws w))))
    (wall_clock H (S (clock_reads w)))
    quakeData None.

(** The events a turn of the ingestion loop hands back, as a list. *)
Definition pushed (admitted : option Earthquake.t) : list Earthquake.t :=
  match admitted with Some earthquake => [earthquake] | None => [] end.

(** The subscription after one recorded request at the instant [now]. *)
Definition charged (s : OracleSubscription.t) (now : Z) : OracleSubscription.t :=
  OracleSubscription.mk
    (OracleSubscription.id s) (OracleSubscription.apiKey s)
    (OracleSubscription.subscriber s) (OracleSubscription.organizationName s)
    (OracleSubscription.contactEmail s) (OracleSubscription.startDate s)
    (OracleSubscription.endDate s) (OracleSubscription.active s)
    (OracleSubscription.remainingRequests s - 1)%Z (Some now).

(** No subscription of the key table has a negative budget. *)
Definition budgets_nonnegative (w : World) : Prop :=
  forall k s, apiKeys w !! k = Some s -> (0 <= OracleSubscription.remainingRequests s)%Z.

(** A sequence of requests through the middleware, one per header value. *)
Fixpoint requests (H : Host) (headers : list (option string)) : M (list Gate) :=
  match headers with
  | [] => ret []
  | header :: rest =>
      bind (verifyApiKey H header)
           (fun gate => bind (requests H rest) (fun gates => ret (gate :: gates)))
  end.

(** The budget a request that went through reports; none for a refusal. *)
Definition reported_budget (gate : Gate) : option Z :=
  match gate with
  | Next _ remainingRequests => Some remainingRequests
  | Respond _ _ _ => None
  end.

(** A feature has the parts whose absence makes the parser throw: a
    geometry with coordinates, and properties. *)
Definition can_be_read (feature : RawFeature.t) : bool :=
  match RawFeature.geometry feature, RawFeature.properties feature with
  | Some geometry, Some _ =>
      match RawFeature.coordinates geometry with Some _ => true | None => false end
  | _, _ => false
  end.

(* ===================================================================== *)
(** * Scenarios                                                             *)
(* ===================================================================== *)

(** Concrete events, worlds and hosts on which the program is run. *)
Module Scenario.

(** 2023-11-14T22:13:20Z. *)
Definition T0 : Z := 1700000000000.

Definition host : Host := RefHost.host T0.

(** An event at the coordinates of Tokyo, of a given magnitude. *)
Definition tokyo_bay (id : string) (magnitude : Q) : Earthquake.t :=
  Earthquake.mk id (T0 - 60000)
    (InsertEarthquake.mk "Tokyo Bay" magnitude 8 35.6762 139.6503 (T0 - 120000)
       None (Some false) "USGS" None (Some false))
    None.

(** The dedup scenario: an event at "X" of magnitude 5.0 ten minutes before
    [T0], a second report two minutes later of magnitude 5.05, and a report
    of the same instant of magnitude 5.2. *)
Definition T : Z := T0 - 600000.
Definition report (magnitude : Q) (time : Z) : InsertEarthquake.t :=
  InsertEarthquake.mk "X" magnitude 10 0 0 time None (Some false) "USGS" None
    (Some false).
Definition candidate_A : InsertEarthquake.t := report 5.0 T.

(** The world once A has been ingested by a fresh process. *)
Definition world_A : World :=
  after (processNewEarthquakes host [candidate_A]) empty_world.

(** A report of an event three days before [T0], and the world once it and
    A have been ingested. *)
Definition old_report : InsertEarthquake.t :=
  InsertEarthquake.mk "Y" 4.5 10 0 0 (T0 - 3 * 86400000) None (Some false) "USGS"
    None (Some false).
Definition stored_old : Earthquake.t := created_for host old_report empty_world.
Definition world_old_and_A : World :=
  after (processNewEarthquakes host [old_report; candidate_A]) empty_world.

(** Features of the feed: the two of the sample response, one without
    coordinates, one without a magnitude. *)
Definition feature_nc : RawFeature.t :=
  RawFeature.mk
    (Some (RawFeature.mk_properties (Some "Northern California"%string) (Some 3.5%Q)
             (Some (T0 - 900000)%Z) (Some "https://example.com/earthquake/nc1"%string)
             (Some 0%Z)))
    (Some (RawFeature.mk_geometry (Some [(-121.5)%Q; 38.2%Q; 10.2%Q])))
    (Some "nc12345"%string).
Definition feature_ak : RawFeature.t :=
  RawFeature.mk
    (Some (RawFeature.mk_properties (Some "Southern Alaska"%string) (Some 4.2%Q)
             (Some (T0 - 1800000)%Z) (Some "https://example.com/earthquake/ak1"%string)
             (Some 0%Z)))
    (Some (RawFeature.mk_geometry (Some [(-150.3)%Q; 61.1%Q; 15.5%Q])))
    (Some "ak12345"%string).
Definition feature_without_coordinates : RawFeature.t :=
  RawFeature.mk
    (Some (RawFeature.mk_properties (Some "Offshore Chile"%string) (Some 5.1%Q)
             (Some (T0 - 600000)%Z) None (Some 0%Z)))
    (Some (RawFeature.mk_geometry None))
    (Some "cl1"%string).
Definition feature_without_magnitude : RawFeature.t :=
  RawFeature.mk
    (Some (RawFeature.mk_properties (Some "Offshore Chile"%string) None
             (Some (T0 - 600000)%Z) None (Some 0%Z)))
    (Some (RawFeature.mk_geometry (Some [(-71.5)%Q; (-30.2)%Q; 35%Q])))
    (Some "cl2"%string).


(** A key issued by a fresh process for 30 days and 3 requests. *)
Definition issued : (string * OracleSubscription.t) * World :=
  createApiKey host "0x71C7656EC7ab88b098defB751B7401B5f6d8976F" "Acme Re"
    "risk@acme.example" 30 3 empty_world.
Definition key_3 : string := fst (fst issued).
Definition world_3 : World := snd issued.

(** A key table with one active subscription of budget 5 that ends at the
    very instant the host's clock shows next. *)
Definition ending_now : OracleSubscription.t :=
  OracleSubscription.mk 1 "qs_ending" "0x71C7656EC7ab88b098defB751B7401B5f6d8976F"
    "Acme Re" "risk@acme.example" (T0 - 30 * 86400000) T0 true 5 None.
Definition world_ending_now : World :=
  set_apiKeys (<["qs_ending"%string := ending_now]> ∅) empty_world.

End Scenario.

(* ===================================================================== *)
(** * Further operations: the rest of the store, the routes, the services   *)
(* ===================================================================== *)

(** The statistics object of [getEarthquakeStats] and of the statistics
    route. *)
Module EarthquakeStats.
Record t : Type := mk {
  total : nat;
  averageMagnitude : Q;
  majorCount : nat;
  moderateCount : nat;
  minorCount : nat
}.
End EarthquakeStats.

(** What [calculateOverallRisk] reads of an element of [marketRisks]. *)
Module MarketRisk.
Record t : Type := mk {
  riskLevel : RiskLevel;
  riskScore : Q
}.
End MarketRisk.

Section FurtherProgram.

Context (H : Host).
Local Open Scope world_scope.

(* =================================================================== *)
(** ** [server/storage.ts]: the constructor and the other queries        *)
(* =================================================================== *)

(** The array literal [sampleEarthquakes]; [n1] .. [n4] are the four
    readings of [Date.now()] it makes, in order. *)
Definition sampleEarthquakes (n1 n2 n3 n4 : Z) : list InsertEarthquake.t :=
  [ InsertEarthquake.mk "San Francisco, CA" 6.2 12.4 37.7749 (-122.4194)
      (n1 - 12 * 60 * 1000) (Some "flare123"%string) (Some true) "USGS"
      (Some "https://example.com/earthquake/1"%string) (Some false);
    InsertEarthquake.mk "Tokyo, Japan" 4.8 8.7 35.6762 139.6503
      (n2 - 47 * 60 * 1000) (Some "flare456"%string) (Some true) "JMA"
      (Some "https://example.com/earthquake/2"%string) (Some false);
    InsertEarthquake.mk "Santiago, Chile" 5.2 15.3 (-33.4489) (-70.6693)
      (n3 - 2 * 60 * 60 * 1000) (Some "flare789"%string) (Some true) "USGS"
      (Some "https://example.com/earthquake/3"%string) (Some false);
    InsertEarthquake.mk "Athens, Greece" 3.7 5.1 37.9838 23.7275
      (n4 - 4 * 60 * 60 * 1000) None (Some false) "EMSC"
      (Some "https://example.com/earthquake/4"%string) (Some false) ].

(** The decimal digits of an array index, as a template literal prints it. *)
Definition index_toString (n : nat) : string :=
  NilEmpty.string_of_uint (Nat.to_uint n).

(** [sampleEarthquakes.forEach((quake, index) => ...)], from [index] on. *)
Fixpoint setSampleEarthquakes (index : nat) (quakes : list InsertEarthquake.t)
    : M unit :=
  match quakes with
  | [] => ret tt
  | quake :: rest =>
      let id := ("eq_" ++ index_toString (index + 1))%string in
      createdAt <- Date_now H ;;
      modify (fun w => set_earthquakes
                         (JSMap.set id (Earthquake.mk id createdAt quake None)
                                    (earthquakes w)) w) ;;;
      setSampleEarthquakes (S index) rest
  end.

(** The array literal [sampleAlerts], with its two readings of the clock. *)
Definition sampleAlerts (n1 n2 : Z) : list InsertAlert.t :=
  [ InsertAlert.mk "Major Earthquake Warning" "high" (Some 6.2%Q)
      (Some "San Francisco, CA"%string) (Some "eq_1"%string)
      (n1 - 12 * 60 * 1000) (Some true);
    InsertAlert.mk "Moderate Earthquake Alert" "medium" (Some 4.8%Q)
      (Some "Tokyo, Japan"%string) (Some "eq_2"%string)
      (n2 - 47 * 60 * 1000) (Some true) ].

Fixpoint createSampleAlerts (sample : list InsertAlert.t) : M unit :=
  match sample with
  | [] => ret tt
  | alert :: rest => createAlert alert ;;; createSampleAlerts rest
  end.

(** [initializeSampleData], run by the constructor on the empty maps. *)
Definition initializeSampleData : M unit :=
  n1 <- Date_now H ;; n2 <- Date_now H ;; n3 <- Date_now H ;; n4 <- Date_now H ;;
  setSampleEarthquakes 0 (sampleEarthquakes n1 n2 n3 n4) ;;;
  a1 <- Date_now H ;; a2 <- Date_now H ;;
  createSampleAlerts (sampleAlerts a1 a2).

(** [l.slice(0, end)] for an integer [end]: a negative [end] counts from the
    end of the array. *)
Definition slice_to {A : Type} (l : list A) (end_ : Z) : list A :=
  if (end_ <? 0)%Z
  then firstn (Z.to_nat (Z.max (Z.of_nat (length l) + end_) 0)) l
  else firstn (Z.to_nat end_) l.

(** [getRecentEarthquakes(limit = 10)]; [None] is an omitted argument. *)
Definition getRecentEarthquakes (limit : option Z) : M (list Earthquake.t) :=
  all <- gets (fun w => JSMap.values (earthquakes w)) ;;
  ret (slice_to (sort_most_recent_first all)
                (match limit with Some n => n | None => 10%Z end)).




(** Truthiness of an optional string and of an optional boolean. *)
Definition truthy_string (s : option string) : bool :=
  match s with Some (String _ _) => true | _ => false end.
Definition truthy_bool (b : option bool) : bool :=
  match b with Some true => true | _ => false end.

Definition getFlareVerifiedEarthquakes : M (list Earthquake.t) :=
  earthquakes <- gets (fun w => JSMap.values (earthquakes w)) ;;
  ret (List.filter
         (fun quake => truthy_string (InsertEarthquake.flareNetworkId (Earthquake.data quake))
                       && truthy_bool (InsertEarthquake.verified (Earthquake.data quake)))
         earthquakes).

(* =================================================================== *)
(** ** [server/exchangeRateService.ts]                                   *)
(* =================================================================== *)

Definition fetchEarthquakesForPeriod (startDate endDate : Z) : M (list Earthquake.t) :=
  allEarthquakes <- getRecentEarthquakes (Some 100%Z) ;;
  ret (List.filter (fun eq => (startDate <=? Earthquake.time eq)%Z
                              && (Earthquake.time eq <=? endDate)%Z) allEarthquakes).

(* =================================================================== *)
(** ** [server/earthquakeService.ts]: [getEarthquakeTimeAgo]             *)
(* =================================================================== *)

(** [toLocaleDateString] is the host's rendering of a date in its locale. *)
Definition getEarthquakeTimeAgo (toLocaleDateString : Z -> string) (time : Z)
    : M string :=
  now <- Date_now H ;;
  let number (n : Z) := Number_toString H (inject_Z n) in
  let diffMs := (now - time)%Z in
  let diffSec := (diffMs / 1000)%Z in
  if (diffSec <? 60)%Z then ret (number diffSec ++ " seconds ago")%string
  else
    let diffMin := (diffSec / 60)%Z in
    if (diffMin <? 60)%Z
    then ret (number diffMin ++ " " ++ (if (diffMin =? 1)%Z then "min" else "mins")
                ++ " ago")%string
    else
      let diffHour := (diffMin / 60)%Z in
      if (diffHour <? 24)%Z
      then ret (number diffHour ++ " " ++ (if (diffHour =? 1)%Z then "hour" else "hours")
                  ++ " ago")%string
      else
        let diffDay := (diffHour / 24)%Z in
        if (diffDay <? 7)%Z
        then ret (number diffDay ++ " " ++ (if (diffDay =? 1)%Z then "day" else "days")
                    ++ " ago")%string
        else ret (toLocaleDateString time).

(* =================================================================== *)
(** ** [server/oracle/oracleRoutes.ts]: [calculateOverallRisk]           *)
(* =================================================================== *)

Definition RiskLevel_eqb (a b : RiskLevel) : bool :=
  match a, b with
  | LOW, LOW | MEDIUM, MEDIUM | HIGH, HIGH | CRITICAL, CRITICAL => true
  | _, _ => false
  end.

(** The callback of [marketRisks.forEach], on the pair of the two variables
    it updates. *)
Definition overallRisk_step (acc : RiskLevel * Q) (risk : MarketRisk.t)
    : RiskLevel * Q :=
  let highestRiskLevel := fst acc in
  let totalScore := (snd acc + MarketRisk.riskScore risk)%Q in
  if RiskLevel_eqb (MarketRisk.riskLevel risk) CRITICAL then (CRITICAL, totalScore)
  else if RiskLevel_eqb (MarketRisk.riskLevel risk) HIGH
          && negb (RiskLevel_eqb highestRiskLevel CRITICAL)
  then (HIGH, totalScore)
  else if RiskLevel_eqb (MarketRisk.riskLevel risk) MEDIUM
          && negb (RiskLevel_eqb highestRiskLevel CRITICAL)
          && negb (RiskLevel_eqb highestRiskLevel HIGH)
  then (MEDIUM, totalScore)
  else (highestRiskLevel, totalScore).

(** The result is the pair of [level] and [score]. *)
Definition calculateOverallRisk (marketRisks : list MarketRisk.t) : RiskLevel * Q :=
  if (length marketRisks =? 0)%nat then (LOW, 0%Q)
  else
    let acc := fold_left overallRisk_step marketRisks (LOW, 0%Q) in
    let averageScore := (snd acc / inject_Z (Z.of_nat (length marketRisks)))%Q in
    (fst acc, JS.Math_round averageScore).

End FurtherProgram.

(* ===================================================================== *)
(** * Vocabulary of the further statements                                  *)
(* ===================================================================== *)

(** The operations a running server performs on the world, results set
    aside: a batch through [processNewEarthquakes], [verifyEarthquakeData],
    a query with [getEarthquakes], the three scoring entry points,
    [createApiKey], and a request through the [verifyApiKey] middleware. *)
Inductive Operation : Type :=
| Ingest (batch : list InsertEarthquake.t)
| VerifyOnChain (earthquakeId : string)
| ListEarthquakes (filters : EarthquakeFilters.t)
| Score (earthquake : Earthquake.t)
| ScoreById (earthquakeId : string)
| BulkScore (startTime endTime : Z)
| IssueKey (subscriber organizationName contactEmail : string)
           (durationDays requestLimit : Z)
| Request (header : option string).

Definition perform (H : Host) (op : Operation) : M unit :=
  match op with
  | Ingest batch => bind (processNewEarthquakes H batch) (fun _ => ret tt)
  | VerifyOnChain earthquakeId =>
      bind (verifyEarthquakeData H earthquakeId) (fun _ => ret tt)
  | ListEarthquakes filters => bind (getEarthquakes H filters) (fun _ => ret tt)
  | Score earthquake => bind (generateFinancialImpactData H earthquake) (fun _ => ret tt)
  | ScoreById earthquakeId =>
      bind (getFinancialImpactForEarthquake H earthquakeId) (fun _ => ret tt)
  | BulkScore startTime endTime =>
      bind (getEarthquakesWithFinancialImpact H startTime endTime) (fun _ => ret tt)
  | IssueKey subscriber organizationName contactEmail durationDays requestLimit =>
      bind (createApiKey H subscriber organizationName contactEmail durationDays
                         requestLimit) (fun _ => ret tt)
  | Request header => bind (verifyApiKey H header) (fun _ => ret tt)
  end.

Fixpoint perform_all (H : Host) (ops : list Operation) : M unit :=
  match ops with
  | [] => ret tt
  | op :: rest => bind (perform H op) (fun _ => perform_all H rest)
  end.

(** The world a process starts in: the constructor of [MemStorage] has run on
    the empty maps. *)
Definition initial_world (H : Host) : World :=
  after (initializeSampleData H) empty_world.

(** Every stored event sits under its own identity. *)
Definition store_ids_agree (w : World) : Prop :=
  forall k e, In (k, e) (earthquakes w) -> Earthquake.id e = k.

(** Every alert sits under its own identity, below the counter. *)
Definition alert_ids_below_counter (w : World) : Prop :=
  forall k a, alerts w !! k = Some a -> Alert.id a = k /\ (k < alertIdCounter w)%Z.

(** Every alert that names an event names a stored one. *)
Definition alerts_refer_to_stored (w : World) : Prop :=
  forall k a id,
    alerts w !! k = Some a ->
    InsertAlert.earthquakeId (Alert.data a) = Some id ->
    In id (map fst (earthquakes w)).

Definition store_well_formed (w : World) : Prop :=
  store_ids_agree w /\ alert_ids_below_counter w /\ alerts_refer_to_stored w.

(** The store of events and alerts, and the two maps of the oracle. *)
Definition store_of (w : World) :=
  (earthquakes w, alerts w, alertIdCounter w).
Definition oracle_of (w : World) :=
  (financialImpactCache w, apiKeys w).

(** From [w0] to [w] nothing was taken out of the store: every key of an
    event is still there, no fewer events are held, every alert is as it
    was, and the alert counter did not go back. *)
Definition store_grows (w0 w : World) : Prop :=
  (forall k, In k (map fst (earthquakes w0)) -> In k (map fst (earthquakes w)))
  /\ (length (earthquakes w0) <= length (earthquakes w))%nat
  /\ (forall k a, alerts w0 !! k = Some a -> alerts w !! k = Some a)
  /\ (alertIdCounter w0 <= alertIdCounter w)%Z.

(** The invariant carried along a run that started in [w0]. *)
Definition store_invariant (w0 w : World) : Prop :=
  store_well_formed w /\ store_grows w0 w.

(** Two events that differ at most in their [flareVerified] member. *)
Definition same_record (a b : Earthquake.t) : Prop :=
  Earthquake.id a = Earthquake.id b
  /\ Earthquake.createdAt a = Earthquake.createdAt b
  /\ Earthquake.data a = Earthquake.data b.

(** The batches an operation ingests. *)
Definition ingested_by (op : Operation) : list InsertEarthquake.t :=
  match op with Ingest batch => batch | _ => [] end.

(** The predicate of [getFlareVerifiedEarthquakes]. *)
Definition listed_as_verified (quake : Earthquake.t) : bool :=
  truthy_string (InsertEarthquake.flareNetworkId (Earthquake.data quake))
  && truthy_bool (InsertEarthquake.verified (Earthquake.data quake)).

(** A stored record of [w'] is a record of [w], up to [flareVerified], or
    carries one of the candidates of [batch]. *)
Definition stems_from (w : World) (batch : list InsertEarthquake.t) (w' : World)
    : Prop :=
  forall x, In x (JSMap.values (earthquakes w')) ->
    (exists x0, In x0 (JSMap.values (earthquakes w)) /\ same_record x x0)
    \/ In (Earthquake.data x) batch.

(** Every cached assessment sits under the identity it names. *)
Definition cache_keys_agree (w : World) : Prop :=
  forall k d, financialImpactCache w !! k = Some d -> FinancialImpactData.earthquakeId d = k.

(** The random source stays in the half-open unit interval. *)
Definition random_in_unit_interval (H : Host) : Prop :=
  forall n, (0 <= random_source H n)%Q /\ (random_source H n < 1)%Q.

(** A number is an integer. *)
Definition is_integer (x : Q) : Prop := exists n : Z, x = inject_Z n.

(** The market codes the regional table and its fallback can yield. *)
Definition known_markets : list string :=
  ["NIKKEI"; "JPX"; "NASDAQ"; "NYSE"; "SP500"; "ASX200"; "SSE"; "SZSE";
   "GLOBAL_MARKETS"]%string.
Definition known_currencies : list string :=
  ["JPY"; "USD"; "AUD"; "CNY"; "EUR"]%string.

(** The series is in order of time, most recent first. *)
Definition most_recent_first (l : list Earthquake.t) : Prop :=
  StronglySorted (fun a b => (Earthquake.time b <= Earthquake.time a)%Z) l.

(** [n] direct calls of [recordApiRequest] with one key. *)
Fixpoint record_times (H : Host) (n : nat) (apiKey : string) : M (list (Outcome Z)) :=
  match n with
  | O => ret []
  | S n' =>
      bind (recordApiRequest H apiKey)
           (fun outcome => bind (record_times H n' apiKey)
                                (fun outcomes => ret (outcome :: outcomes)))
  end.

(** The budgets [n - 1], ..., 1, 0. *)
Fixpoint countdown (n : nat) : list Z :=
  match n with
  | O => []
  | S n' => Z.of_nat n' :: countdown n'
  end.

(** Further concrete cases on the reference host. *)
Module Cases.

(** An event at the coordinates of Tokyo, of a given magnitude and depth. *)
Definition tokyo_at_depth (id : string) (magnitude depth : Q) : Earthquake.t :=
  Earthquake.mk id (Scenario.T0 - 60000)
    (InsertEarthquake.mk "Tokyo Bay" magnitude depth 35.6762 139.6503
       (Scenario.T0 - 120000) None (Some false) "USGS" None (Some false))
    None.

(** The record the store holds once candidate A has been ingested by a fresh
    process: the created event, marked [flareVerified]. *)
Definition stored_A : Earthquake.t :=
  Earthquake.mk
    (Earthquake.id (created_for Scenario.host Scenario.candidate_A empty_world))
    (Earthquake.createdAt (created_for Scenario.host Scenario.candidate_A empty_world))
    Scenario.candidate_A (Some true).

(** The first sample record of the store the constructor leaves, once it
    has been verified on chain. *)
Definition sample_1 : Earthquake.t :=
  Earthquake.mk "eq_1" (wall_clock Scenario.host 4)
    (nth 0 (sampleEarthquakes (wall_clock Scenario.host 0) (wall_clock Scenario.host 1)
              (wall_clock Scenario.host 2) (wall_clock Scenario.host 3))
         Scenario.candidate_A)
    (Some true).

(** The subscription of the key issued for 3 requests. *)
Definition subscription_3 : OracleSubscription.t := snd (fst Scenario.issued).

End Cases.

(* ===================================================================== *)
(** * Basic facts about the number operations                               *)
(* ===================================================================== *)

Lemma ltb_true (x y : Q) : JS.ltb x y = true <-> (x < y)%Q.
Proof.
  unfold JS.ltb. rewrite negb_true_iff, <- not_true_iff_false, Qle_bool_iff.
  split; [apply Qnot_le_lt | apply Qlt_not_le].
Qed.

Lemma ltb_false (x y : Q) : JS.ltb x y = false <-> (y <= x)%Q.
Proof. unfold JS.ltb. rewrite negb_false_iff. apply Qle_bool_iff. Qed.

Lemma geb_true (x y : Q) : JS.geb x y = true <-> (y <= x)%Q.
Proof. apply Qle_bool_iff. Qed.

Lemma geb_false (x y : Q) : JS.geb x y = false <-> (x < y)%Q.
Proof.
  unfold JS.geb. rewrite <- not_true_iff_false, Qle_bool_iff.
  split; [apply Qnot_le_lt | apply Qlt_not_le].
Qed.

Lemma leb_true (x y : Q) : JS.leb x y = true <-> (x <= y)%Q.
Proof. apply Qle_bool_iff. Qed.

Lemma Qle_bool_false (x y : Q) : Qle_bool x y = false <-> (y < x)%Q.
Proof.
  rewrite <- not_true_iff_false, Qle_bool_iff.
  split; [apply Qnot_le_lt | apply Qlt_not_le].
Qed.

(** Turns every comparison that was decided into an inequality. *)
Ltac js_facts :=
  repeat match goal with
         | E : JS.ltb _ _ = true |- _ => apply ltb_true in E
         | E : JS.ltb _ _ = false |- _ => apply ltb_false in E
         | E : JS.geb _ _ = true |- _ => apply geb_true in E
         | E : JS.geb _ _ = false |- _ => apply geb_false in E
         | E : JS.leb _ _ = true |- _ => apply leb_true in E
         | E : Qle_bool _ _ = true |- _ => apply Qle_bool_iff in E
         | E : Qle_bool _ _ = false |- _ => apply Qle_bool_false in E
         end.

(** Decides the comparisons of the goal one after the other. *)
Ltac js_cases :=
  repeat match goal with
         | |- context [JS.ltb ?a ?b] => destruct (JS.ltb a b) eqn:?
         | |- context [JS.geb ?a ?b] => destruct (JS.geb a b) eqn:?
         | |- context [Qle_bool ?a ?b] => destruct (Qle_bool a b) eqn:?
         end;
  js_facts.

Lemma Math_min_le_iff (a x y : Q) :
  (JS.Math_min a x <= JS.Math_min a y)%Q <-> (a <= y \/ x <= y)%Q.
Proof. unfold JS.Math_min. js_cases; split; intros; try lra; tauto. Qed.

Lemma Math_min_mono (a x y : Q) :
  (x <= y)%Q -> (JS.Math_min a x <= JS.Math_min a y)%Q.
Proof. intros. apply Math_min_le_iff. now right. Qed.


Lemma Math_round_mono (x y : Q) :
  (x <= y)%Q -> (JS.Math_round x <= JS.Math_round y)%Q.
Proof.
  intros Hxy. unfold JS.Math_round. rewrite <- Zle_Qle.
  apply Qfloor_resp_le. lra.
Qed.

(** [Math.round] of a number within a half of an integer is that integer. *)
Lemma Math_round_integer (n : Z) (x : Q) :
  (inject_Z n - (1 # 2) <= x)%Q -> (x < inject_Z n + (1 # 2))%Q ->
  JS.Math_round x = inject_Z n.
Proof.
  intros Hlo Hhi. unfold JS.Math_round. f_equal.
  assert (Hle : (n <= Qfloor (x + (1 # 2)))%Z).
  { rewrite <- (Qfloor_Z n) at 1. apply Qfloor_resp_le.
    remember (inject_Z n) as q. lra. }
  assert (Hlt : (Qfloor (x + (1 # 2)) < n + 1)%Z).
  { rewrite Zlt_Qlt. eapply Qle_lt_trans; [apply Qfloor_le|].
    rewrite inject_Z_plus. remember (inject_Z n) as q.
    change (inject_Z 1) with 1%Q. lra. }
  lia.
Qed.

(* ===================================================================== *)
(** * The risk model                                                        *)
(* ===================================================================== *)

Section RiskModel.

Context (H : Host).
Local Open Scope Q_scope.

Lemma calculateMagnitudeImpact_mono (m1 m2 : Q) :
  m1 <= m2 -> calculateMagnitudeImpact m1 <= calculateMagnitudeImpact m2.
Proof.
  intros Hm. unfold calculateMagnitudeImpact, JS.Math_min.
  js_cases; lra.
Qed.

Lemma riskLevel_of_mono (s1 s2 : Q) :
  s1 <= s2 -> RiskLevel_le (riskLevel_of s1) (riskLevel_of s2).
Proof.
  intros Hs. unfold riskLevel_of, RiskLevel_le.
  js_cases; simpl; try lia; lra.
Qed.

Lemma marketImpactScore_of_mono (e1 e2 : Earthquake.t) :
  Earthquake.depth e1 = Earthquake.depth e2 ->
  Earthquake.latitude e1 = Earthquake.latitude e2 ->
  Earthquake.longitude e1 = Earthquake.longitude e2 ->
  Earthquake.magnitude e1 <= Earthquake.magnitude e2 ->
  marketImpactScore_of H e1 <= marketImpactScore_of H e2.
Proof.
  intros Hd Hlat Hlon Hm. unfold marketImpactScore_of.
  rewrite Hd, Hlat, Hlon.
  apply Math_min_mono, Math_round_mono.
  apply calculateMagnitudeImpact_mono in Hm.
  remember (calculateDepthImpact _) as d.
  remember (calculateLocationImpact _ _ _) as l.
  lra.
Qed.

(** What a fresh computation puts in the score and the level. *)
Lemma generateFinancialImpactData_fresh (e : Earthquake.t) (w : World) :
  financialImpactCache w !! Earthquake.id e = None ->
  FinancialImpactData.marketImpactScore (result (generateFinancialImpactData H e) w)
    = marketImpactScore_of H e
  /\ FinancialImpactData.riskLevel (result (generateFinancialImpactData H e) w)
    = riskLevel_of (marketImpactScore_of H e).
Proof.
  intros Hc. unfold result, generateFinancialImpactData, bind, gets. simpl.
  rewrite Hc.
  destruct (getAffectedMarketsAndCurrencies H _ _) as [markets currencies].
  simpl. split; reflexivity.
Qed.

End RiskModel.

(** The boundary values of the reference host. *)
Section RefHostBoundary.

Local Open Scope Q_scope.

Lemma approx_eq (x y : Q) : x == y -> RefHost.approx x = RefHost.approx y.
Proof.
  intros Hxy. unfold RefHost.approx. apply Qred_complete.
  assert (E : Qfloor (x * 1000000000000) = Qfloor (y * 1000000000000))
    by (apply Qfloor_comp; rewrite Hxy; reflexivity).
  rewrite E. reflexivity.
Qed.

Lemma approx_zero (x : Q) : x == 0 -> RefHost.approx x == 0.
Proof. intros Hx. rewrite (approx_eq x 0 Hx). reflexivity. Qed.

Lemma approx_one (x : Q) : x == 1 -> RefHost.approx x == 1.
Proof. intros Hx. rewrite (approx_eq x 1 Hx). reflexivity. Qed.

Lemma newton_one (steps : nat) (x g : Q) :
  x == 1 -> g == 1 -> RefHost.newton steps x g == 1.
Proof.
  revert g. induction steps as [|steps IH]; intros g Hx Hg; simpl; [exact Hg|].
  apply IH; [exact Hx|]. unfold RefHost.newton_step.
  apply approx_one. rewrite Hx, Hg. reflexivity.
Qed.

Lemma RefHost_boundary_values (epoch : Z) : HostBoundaryValues (RefHost.host epoch).
Proof.
  split; simpl.
  - intros x Hx. unfold RefHost.sin_poly.
    apply approx_zero. rewrite (approx_zero x Hx). reflexivity.
  - intros x Hx. unfold RefHost.sqrt_newton.
    assert (E : Qle_bool x 0 = true) by (apply Qle_bool_iff; lra).
    rewrite E. reflexivity.
  - intros x Hx. unfold RefHost.sqrt_newton.
    assert (E : Qle_bool x 0 = false) by (apply Qle_bool_false; lra).
    rewrite E. apply newton_one; [apply approx_one; exact Hx | reflexivity].
  - intros y x Hy Hx. unfold RefHost.atan2.
    assert (E : JS.ltb 0 x = true) by (apply ltb_true; exact Hx).
    rewrite E. unfold RefHost.atan_poly.
    apply approx_zero.
    assert (E0 : RefHost.approx (y / x) == 0).
    { apply approx_zero. rewrite Hy. unfold Qdiv. ring. }
    rewrite E0. reflexivity.
Qed.

End RefHostBoundary.

Section RiskTheorems.

Context (H : Host).
Local Open Scope Q_scope.

(** A point at the centre of a region is within any positive radius of it. *)
Lemma isLocationNearRegion_centre (lat1 lon1 lat2 lon2 radius : Q) :
  HostBoundaryValues H ->
  lat1 == lat2 -> lon1 == lon2 -> 0 <= radius ->
  isLocationNearRegion H lat1 lon1 lat2 lon2 radius = true.
Proof.
  intros HB Hlat Hlon Hr. unfold isLocationNearRegion. apply leb_true.
  assert (ElatZ : deg2rad H (lat2 - lat1) / 2 == 0).
  { unfold deg2rad. rewrite Hlat. field. }
  assert (ElonZ : deg2rad H (lon2 - lon1) / 2 == 0).
  { unfold deg2rad. rewrite Hlon. field. }
  pose proof (sin_zero H HB _ ElatZ) as Es1.
  pose proof (sin_zero H HB _ ElonZ) as Es2.
  set (a := Math_sin H (deg2rad H (lat2 - lat1) / 2)
            * Math_sin H (deg2rad H (lat2 - lat1) / 2)
            + Math_cos H (deg2rad H lat1) * Math_cos H (deg2rad H lat2)
              * Math_sin H (deg2rad H (lon2 - lon1) / 2)
              * Math_sin H (deg2rad H (lon2 - lon1) / 2)).
  assert (Ea : a == 0).
  { unfold a. rewrite Es1, Es2. ring. }
  assert (E1a : 1 - a == 1) by (rewrite Ea; ring).
  pose proof (sqrt_zero H HB _ Ea) as Eq0.
  pose proof (sqrt_one H HB _ E1a) as Eq1.
  assert (Ec : Math_atan2 H (Math_sqrt H a) (Math_sqrt H (1 - a)) == 0).
  { apply (atan2_zero H HB); [exact Eq0 | rewrite Eq1; reflexivity]. }
  rewrite Ec. lra.
Qed.

Lemma calculateMagnitudeImpact_7_2 (m : Q) :
  m == 7.2 -> calculateMagnitudeImpact m == 73.
Proof.
  intros Hm. unfold calculateMagnitudeImpact, JS.Math_min. js_cases; lra.
Qed.

Lemma calculateDepthImpact_8 (d : Q) :
  d == 8 -> calculateDepthImpact d == 84.
Proof.
  intros Hd. unfold calculateDepthImpact, JS.Math_max. js_cases; lra.
Qed.

Lemma calculateLocationImpact_tokyo (lat lon : Q) :
  HostBoundaryValues H ->
  lat == 35.6762 -> lon == 139.6503 ->
  calculateLocationImpact H lat lon = 90.
Proof.
  intros HB Hlat Hlon. unfold calculateLocationImpact.
  rewrite (isLocationNearRegion_centre _ _ _ _ _ HB Hlat Hlon); [reflexivity | lra].
Qed.

Lemma marketImpactScore_of_tokyo_bay (e : Earthquake.t) :
  HostBoundaryValues H ->
  Earthquake.magnitude e == 7.2 -> Earthquake.depth e == 8 ->
  Earthquake.latitude e == 35.6762 -> Earthquake.longitude e == 139.6503 ->
  marketImpactScore_of H e = 80.
Proof.
  intros HB Hm Hd Hlat Hlon. unfold marketImpactScore_of.
  rewrite (calculateLocationImpact_tokyo _ _ HB Hlat Hlon).
  pose proof (calculateMagnitudeImpact_7_2 _ Hm) as Em.
  pose proof (calculateDepthImpact_8 _ Hd) as Ed.
  rewrite (Math_round_integer 80); [reflexivity | |];
    change (inject_Z 80) with 80; lra.
Qed.

(** C9.  With depth and location fixed, the magnitude impact, the market
    impact score and the risk level of a freshly scored event do not decrease
    when the magnitude grows: for [m1 <= m2],
    [calculateMagnitudeImpact m1 <= calculateMagnitudeImpact m2], and the risk
    level for [m1] is at most the risk level for [m2] in the order
    LOW < MEDIUM < HIGH < CRITICAL. *)
Theorem C9_risk_is_monotone_in_magnitude (e1 e2 : Earthquake.t) (w1 w2 : World) :
  Earthquake.depth e1 = Earthquake.depth e2 ->
  Earthquake.latitude e1 = Earthquake.latitude e2 ->
  Earthquake.longitude e1 = Earthquake.longitude e2 ->
  Earthquake.magnitude e1 <= Earthquake.magnitude e2 ->
  financialImpactCache w1 !! Earthquake.id e1 = None ->
  financialImpactCache w2 !! Earthquake.id e2 = None ->
  calculateMagnitudeImpact (Earthquake.magnitude e1)
    <= calculateMagnitudeImpact (Earthquake.magnitude e2)
  /\ FinancialImpactData.marketImpactScore (result (generateFinancialImpactData H e1) w1)
     <= FinancialImpactData.marketImpactScore (result (generateFinancialImpactData H e2) w2)
  /\ RiskLevel_le
       (FinancialImpactData.riskLevel (result (generateFinancialImpactData H e1) w1))
       (FinancialImpactData.riskLevel (result (generateFinancialImpactData H e2) w2)).
Proof.
  intros Hd Hlat Hlon Hm Hc1 Hc2.
  destruct (generateFinancialImpactData_fresh H e1 w1 Hc1) as [Es1 Er1].
  destruct (generateFinancialImpactData_fresh H e2 w2 Hc2) as [Es2 Er2].
  rewrite Es1, Es2, Er1, Er2.
  pose proof (marketImpactScore_of_mono H e1 e2 Hd Hlat Hlon Hm) as Hs.
  split; [apply calculateMagnitudeImpact_mono; exact Hm|].
  split; [exact Hs | apply riskLevel_of_mono; exact Hs].
Qed.

(** C4 (as the code computes it).  For an event of magnitude 7.2 and depth 8
    at the coordinates of Tokyo, on a host with the boundary values ECMAScript
    fixes: the magnitude impact is 73 ([70 + min(30, 15 * 0.2)]), the depth
    impact 84, the location impact 90, the market impact score
    [round(36.5 + 16.8 + 27) = round(80.3) = 80], and the risk level HIGH. *)
Theorem C4_tokyo_bay_scores_80_HIGH (e : Earthquake.t) (w : World) :
  HostBoundaryValues H ->
  Earthquake.magnitude e == 7.2 -> Earthquake.depth e == 8 ->
  Earthquake.latitude e == 35.6762 -> Earthquake.longitude e == 139.6503 ->
  financialImpactCache w !! Earthquake.id e = None ->
  calculateMagnitudeImpact (Earthquake.magnitude e) == 73
  /\ calculateDepthImpact (Earthquake.depth e) == 84
  /\ calculateLocationImpact H (Earthquake.latitude e) (Earthquake.longitude e) = 90
  /\ FinancialImpactData.marketImpactScore (result (generateFinancialImpactData H e) w)
     = 80
  /\ FinancialImpactData.riskLevel (result (generateFinancialImpactData H e) w) = HIGH.
Proof.
  intros HB Hm Hd Hlat Hlon Hc.
  destruct (generateFinancialImpactData_fresh H e w Hc) as [Es Er].
  rewrite Es, Er, (marketImpactScore_of_tokyo_bay e HB Hm Hd Hlat Hlon).
  split; [apply calculateMagnitudeImpact_7_2; exact Hm|].
  split; [apply calculateDepthImpact_8; exact Hd|].
  split; [apply calculateLocationImpact_tokyo; assumption|].
  split; reflexivity.
Qed.

End RiskTheorems.

(** C9 on the reference host: the Tokyo event at magnitude 5.5 and at 7.2. *)
Lemma C9_risk_is_monotone_in_magnitude_witness :
  RiskLevel_le
    (FinancialImpactData.riskLevel
       (result (generateFinancialImpactData Scenario.host (Scenario.tokyo_bay "eq_a" 5.5))
               empty_world))
    (FinancialImpactData.riskLevel
       (result (generateFinancialImpactData Scenario.host (Scenario.tokyo_bay "eq_b" 7.2))
               empty_world)).
Proof.
  apply (C9_risk_is_monotone_in_magnitude Scenario.host
           (Scenario.tokyo_bay "eq_a" 5.5) (Scenario.tokyo_bay "eq_b" 7.2)
           empty_world empty_world);
    solve [reflexivity | vm_compute; discriminate].
Defined.

(** C4 on the reference host, a fresh process scoring the Tokyo Bay event. *)
Lemma C4_tokyo_bay_scores_80_HIGH_witness :
  FinancialImpactData.riskLevel
    (result (generateFinancialImpactData Scenario.host (Scenario.tokyo_bay "eq_t" 7.2))
            empty_world) = HIGH.
Proof.
  apply (C4_tokyo_bay_scores_80_HIGH Scenario.host (Scenario.tokyo_bay "eq_t" 7.2)
           empty_world);
    solve [apply RefHost_boundary_values | reflexivity].
Defined.

(** C4, as the scenario states it, fails: the magnitude impact of 7.2 is 73,
    not about 85.5; the score of the Tokyo Bay event is 80, not 87; its risk
    level is HIGH, not CRITICAL. *)
Lemma C4_tokyo_bay_is_not_87_CRITICAL :
  let r := result (generateFinancialImpactData Scenario.host
                     (Scenario.tokyo_bay "eq_t" 7.2)) empty_world in
  (calculateMagnitudeImpact 7.2 == 73)%Q
  /\ ~ (85 <= calculateMagnitudeImpact 7.2)%Q
  /\ FinancialImpactData.marketImpactScore r = 80%Q
  /\ ~ (FinancialImpactData.marketImpactScore r == 87)%Q
  /\ FinancialImpactData.riskLevel r = HIGH
  /\ FinancialImpactData.riskLevel r <> CRITICAL.
Proof.
  cbv zeta.
  split; [vm_compute; reflexivity|].
  split; [intro E1; vm_compute in E1; apply E1; reflexivity|].
  split; [vm_compute; reflexivity|].
  split; [intro E1; vm_compute in E1; discriminate E1|].
  split; [vm_compute; reflexivity|].
  intro E1; vm_compute in E1; discriminate E1.
Qed.

(* ===================================================================== *)
(** * The assessment cache                                                  *)
(* ===================================================================== *)

Section Cache.

Context (H : Host).

(** The market scores only move the random source. *)
Lemma marketSpecificScores_from_after (markets : list string) :
  forall (scores : gmap string Q) (s : Q) (w : World),
    after (marketSpecificScores_from H scores s markets) w
    = set_random_draws (random_draws w + length markets) w.
Proof.
  induction markets as [|market rest IH]; intros scores s w.
  - unfold after. simpl. destruct w. unfold set_random_draws. simpl.
    rewrite Nat.add_0_r. reflexivity.
  - unfold after in *. simpl. unfold bind, Math_random. simpl.
    rewrite IH. destruct w. unfold set_random_draws. simpl.
    f_equal. lia.
Qed.

Lemma generateFinancialImpactData_cached (e : Earthquake.t) (w : World)
    (d : FinancialImpactData.t) :
  financialImpactCache w !! Earthquake.id e = Some d ->
  generateFinancialImpactData H e w = (d, w).
Proof.
  intros Hc. unfold generateFinancialImpactData, bind, gets. simpl.
  rewrite Hc. reflexivity.
Qed.

(** What a fresh computation leaves: the assessment under the event's
    identity in the cache, the store and the key table as they were. *)
Lemma generateFinancialImpactData_fresh_after (e : Earthquake.t) (w : World) :
  financialImpactCache w !! Earthquake.id e = None ->
  financialImpactCache (after (generateFinancialImpactData H e) w)
  = <[Earthquake.id e := result (generateFinancialImpactData H e) w]>
      (financialImpactCache w)
  /\ earthquakes (after (generateFinancialImpactData H e) w) = earthquakes w
  /\ alerts (after (generateFinancialImpactData H e) w) = alerts w
  /\ alertIdCounter (after (generateFinancialImpactData H e) w) = alertIdCounter w
  /\ apiKeys (after (generateFinancialImpactData H e) w) = apiKeys w.
Proof.
  intros Hc. unfold after, result, generateFinancialImpactData, bind, gets. simpl.
  rewrite Hc.
  destruct (getAffectedMarketsAndCurrencies H _ _) as [markets currencies].
  simpl.
  pose proof (marketSpecificScores_from_after markets) as Hm. unfold after in Hm.
  rewrite !Hm. simpl. repeat split; reflexivity.
Qed.

Lemma generateFinancialImpactData_stores (e : Earthquake.t) (w : World) :
  financialImpactCache (after (generateFinancialImpactData H e) w) !! Earthquake.id e
  = Some (result (generateFinancialImpactData H e) w).
Proof.
  destruct (financialImpactCache w !! Earthquake.id e) as [d|] eqn:Hc.
  - unfold after, result. rewrite (generateFinancialImpactData_cached e w d Hc).
    exact Hc.
  - destruct (generateFinancialImpactData_fresh_after e w Hc) as [Ec _].
    rewrite Ec. apply lookup_insert_eq.
Qed.

(** Scoring never touches the event store. *)
Lemma generateFinancialImpactData_earthquakes (e : Earthquake.t) (w : World) :
  earthquakes (after (generateFinancialImpactData H e) w) = earthquakes w.
Proof.
  destruct (financialImpactCache w !! Earthquake.id e) as [d|] eqn:Hc.
  - unfold after. rewrite (generateFinancialImpactData_cached e w d Hc). reflexivity.
  - apply (generateFinancialImpactData_fresh_after e w Hc).
Qed.

(** An entry of the cache is never replaced by scoring. *)
Lemma generateFinancialImpactData_keeps (e : Earthquake.t) (w : World) (k : string)
    (d : FinancialImpactData.t) :
  financialImpactCache w !! k = Some d ->
  financialImpactCache (after (generateFinancialImpactData H e) w) !! k = Some d.
Proof.
  intros Hk.
  destruct (financialImpactCache w !! Earthquake.id e) as [d'|] eqn:Hc.
  - unfold after. rewrite (generateFinancialImpactData_cached e w d' Hc). exact Hk.
  - destruct (generateFinancialImpactData_fresh_after e w Hc) as [Ec _].
    rewrite Ec. rewrite lookup_insert_ne; [exact Hk|].
    intros E. rewrite E in Hc. congruence.
Qed.

Lemma surjective_run {A : Type} (m : M A) (w : World) :
  m w = (result m w, after m w).
Proof. unfold result, after. destruct (m w); reflexivity. Qed.

Lemma generateFinancialImpactData_again (e e' : Earthquake.t) (w : World) :
  Earthquake.id e' = Earthquake.id e ->
  generateFinancialImpactData H e' (after (generateFinancialImpactData H e) w)
  = generateFinancialImpactData H e w.
Proof.
  intros Hid. rewrite (surjective_run (generateFinancialImpactData H e) w).
  apply generateFinancialImpactData_cached. rewrite Hid.
  apply generateFinancialImpactData_stores.
Qed.

Lemma getFinancialImpactForEarthquake_hit (k : string) (w : World)
    (d : FinancialImpactData.t) :
  financialImpactCache w !! k = Some d ->
  getFinancialImpactForEarthquake H k w = (Some d, w).
Proof.
  intros Hc. unfold getFinancialImpactForEarthquake, bind, gets. simpl.
  rewrite Hc. reflexivity.
Qed.

Lemma getFinancialImpactForEarthquake_unknown (k : string) (w : World) :
  financialImpactCache w !! k = None ->
  JSMap.get k (earthquakes w) = None ->
  getFinancialImpactForEarthquake H k w = (None, w).
Proof.
  intros Hc He. unfold getFinancialImpactForEarthquake, bind, gets, getEarthquake.
  simpl. rewrite Hc. simpl. rewrite He. reflexivity.
Qed.

Lemma getFinancialImpactForEarthquake_miss (k : string) (w : World)
    (e : Earthquake.t) :
  financialImpactCache w !! k = None ->
  JSMap.get k (earthquakes w) = Some e ->
  getFinancialImpactForEarthquake H k w
  = (Some (result (generateFinancialImpactData H e) w),
     after (generateFinancialImpactData H e) w).
Proof.
  intros Hc He. unfold getFinancialImpactForEarthquake, bind, gets, getEarthquake.
  simpl. rewrite Hc. simpl. rewrite He. reflexivity.
Qed.

Lemma getFinancialImpactForEarthquake_again (earthquakeId : string) (w : World) :
  getFinancialImpactForEarthquake H earthquakeId
    (after (getFinancialImpactForEarthquake H earthquakeId) w)
  = getFinancialImpactForEarthquake H earthquakeId w.
Proof.
  destruct (financialImpactCache w !! earthquakeId) as [d|] eqn:Hc.
  { unfold after. rewrite (getFinancialImpactForEarthquake_hit _ _ _ Hc). simpl.
    apply getFinancialImpactForEarthquake_hit, Hc. }
  destruct (JSMap.get earthquakeId (earthquakes w)) as [e|] eqn:He.
  2:{ unfold after. rewrite (getFinancialImpactForEarthquake_unknown _ _ Hc He).
      simpl. apply getFinancialImpactForEarthquake_unknown; assumption. }
  unfold after. rewrite (getFinancialImpactForEarthquake_miss _ _ _ Hc He). simpl.
  set (w1 := after (generateFinancialImpactData H e) w).
  set (d := result (generateFinancialImpactData H e) w).
  assert (Hd : financialImpactCache w1 !! Earthquake.id e = Some d)
    by apply generateFinancialImpactData_stores.
  destruct (financialImpactCache w1 !! earthquakeId) as [d1|] eqn:Hc1.
  - rewrite (getFinancialImpactForEarthquake_hit _ _ _ Hc1).
    destruct (decide (earthquakeId = Earthquake.id e)) as [E|Hne].
    + rewrite E in Hc1. congruence.
    + exfalso. subst w1.
      destruct (financialImpactCache w !! Earthquake.id e) as [d0|] eqn:Hce.
      * unfold after in Hc1.
        rewrite (generateFinancialImpactData_cached e w d0 Hce) in Hc1.
        simpl in Hc1. congruence.
      * destruct (generateFinancialImpactData_fresh_after e w Hce) as [Ec _].
        rewrite Ec, lookup_insert_ne in Hc1 by congruence. congruence.
  - assert (He1 : JSMap.get earthquakeId (earthquakes w1) = Some e).
    { subst w1. rewrite generateFinancialImpactData_earthquakes. exact He. }
    rewrite (getFinancialImpactForEarthquake_miss _ _ _ Hc1 He1).
    unfold result, after.
    rewrite (generateFinancialImpactData_cached e w1 d Hd). reflexivity.
Qed.

(** C1.  Scoring an event identity a second time returns exactly the
    assessment the first call cached, identical in every field, and leaves the
    world as the first call left it: no random number is drawn again, the clock
    is not read again.  This holds for [generateFinancialImpactData] (whatever
    the other attributes of the event object handed to the second call), for
    [getFinancialImpactForEarthquake] after it, and for
    [getFinancialImpactForEarthquake] called twice. *)
Theorem C1_scoring_is_idempotent (e : Earthquake.t) (w : World)
    (createdAt' : Z) (data' : InsertEarthquake.t) (flareVerified' : option bool)
    (earthquakeId : string) :
  let first := generateFinancialImpactData H e w in
  generateFinancialImpactData H
    (Earthquake.mk (Earthquake.id e) createdAt' data' flareVerified') (snd first)
  = first
  /\ getFinancialImpactForEarthquake H (Earthquake.id e) (snd first)
     = (Some (fst first), snd first)
  /\ (let first' := getFinancialImpactForEarthquake H earthquakeId w in
      getFinancialImpactForEarthquake H earthquakeId (snd first') = first').
Proof.
  cbv zeta. split; [|split].
  - apply (generateFinancialImpactData_again e _ w). reflexivity.
  - unfold getFinancialImpactForEarthquake, bind, gets. simpl.
    pose proof (generateFinancialImpactData_stores e w) as Hs.
    unfold after, result in Hs. rewrite Hs. reflexivity.
  - apply getFinancialImpactForEarthquake_again.
Qed.

End Cache.

(* ===================================================================== *)
(** * The event store                                                       *)
(* ===================================================================== *)

Section Store.

Context (H : Host).

Lemma filter_all {A : Type} (p : A -> bool) (l : list A) :
  (forall x, p x = true) -> List.filter p l = l.
Proof.
  intros Hp. induction l as [|x l IH]; simpl; [reflexivity|].
  rewrite Hp, IH. reflexivity.
Qed.

Lemma insert_by_time_In (x y : Earthquake.t) (l : list Earthquake.t) :
  In y (insert_by_time x l) <-> y = x \/ In y l.
Proof.
  induction l as [|z l IH]; simpl.
  - intuition congruence.
  - destruct (Earthquake.time z <=? Earthquake.time x)%Z; simpl.
    + intuition congruence.
    + rewrite IH. intuition congruence.
Qed.

(** Sorting keeps the elements. *)
Lemma sort_most_recent_first_In (y : Earthquake.t) (l : list Earthquake.t) :
  In y (sort_most_recent_first l) <-> In y l.
Proof.
  induction l as [|x l IH]; simpl; [tauto|].
  rewrite insert_by_time_In, IH. intuition congruence.
Qed.

Lemma some_sorted (p : Earthquake.t -> bool) (l : list Earthquake.t) :
  JS.some p (sort_most_recent_first l) = JS.some p l.
Proof.
  unfold JS.some. apply eq_true_iff_eq. rewrite !existsb_exists.
  split; intros [x [Hx Hp]]; exists x; split; try exact Hp;
    apply sort_most_recent_first_In; exact Hx.
Qed.

(** [getEarthquakes] without a magnitude or region filter: the stored events
    within the time filter of the range, most recent first; the call reads
    the clock once and changes nothing else. *)
Lemma getEarthquakes_all_global (timeRange : string) (w : World) :
  getEarthquakes H (EarthquakeFilters.mk timeRange "all" "global") w
  = (sort_most_recent_first
       (List.filter
          (fun quake => (wall_clock H (clock_reads w) - Earthquake.time quake
                         <=? timeFilter_of timeRange)%Z)
          (JSMap.values (earthquakes w))),
     set_clock_reads (S (clock_reads w)) w).
Proof.
  unfold getEarthquakes, bind, gets, Date_now, ret. simpl.
  rewrite (filter_all (region_filter "global")) by reflexivity.
  rewrite (filter_all (magnitude_filter H "all")) by reflexivity.
  reflexivity.
Qed.

(** 'custom' is not a case of the [switch]: it selects the 24 hour filter. *)
Lemma timeFilter_of_custom : timeFilter_of "custom" = (24 * 60 * 60 * 1000)%Z.
Proof. reflexivity. Qed.

Lemma getEarthquakes_24h (w : World) :
  getEarthquakes H (EarthquakeFilters.mk "24h" "all" "global") w
  = (sort_most_recent_first (window_24h (wall_clock H (clock_reads w)) w),
     set_clock_reads (S (clock_reads w)) w).
Proof. apply getEarthquakes_all_global. Qed.

Lemma getEarthquakes_custom (w : World) :
  getEarthquakes H (EarthquakeFilters.mk "custom" "all" "global") w
  = (sort_most_recent_first (window_24h (wall_clock H (clock_reads w)) w),
     set_clock_reads (S (clock_reads w)) w).
Proof. apply getEarthquakes_all_global. Qed.

(** The events of the pairs are the events that were handed in. *)
Lemma withFinancialImpact_events (quakes : list Earthquake.t) :
  forall w, map fst (result (withFinancialImpact H quakes) w) = quakes.
Proof.
  induction quakes as [|quake rest IH]; intros w; [reflexivity|].
  unfold result in *. simpl. unfold bind. simpl. f_equal. apply IH.
Qed.

Lemma getEarthquakesWithFinancialImpact_events (startTime endTime : Z) (w : World) :
  map fst (result (getEarthquakesWithFinancialImpact H startTime endTime) w)
  = List.filter
      (fun quake => (startTime <=? Earthquake.time quake)%Z
                    && (Earthquake.time quake <=? endTime)%Z)
      (sort_most_recent_first (window_24h (wall_clock H (clock_reads w)) w)).
Proof.
  unfold result, getEarthquakesWithFinancialImpact, bind.
  rewrite getEarthquakes_custom. simpl.
  apply withFinancialImpact_events.
Qed.

(** C10.  Whatever the requested range, the bulk query returns only events
    whose occurrence time is within 24 hours of the instant of the call (and
    within the range, and stored); a stored event older than 24 hours is in
    no result, however wide the range. *)
Theorem C10_bulk_query_is_confined_to_24h (startTime endTime : Z) (w : World)
    (quake : Earthquake.t) :
  let now := wall_clock H (clock_reads w) in
  let returned := result (getEarthquakesWithFinancialImpact H startTime endTime) w in
  (forall impact, In (quake, impact) returned ->
     (now - Earthquake.time quake <= 24 * 60 * 60 * 1000)%Z
     /\ (startTime <= Earthquake.time quake <= endTime)%Z
     /\ In quake (JSMap.values (earthquakes w)))
  /\ ((24 * 60 * 60 * 1000 < now - Earthquake.time quake)%Z ->
      forall impact, ~ In (quake, impact) returned).
Proof.
  cbv zeta.
  assert (Hin : forall impact,
    In (quake, impact) (result (getEarthquakesWithFinancialImpact H startTime endTime) w) ->
    (wall_clock H (clock_reads w) - Earthquake.time quake <= 24 * 60 * 60 * 1000)%Z
    /\ (startTime <= Earthquake.time quake <= endTime)%Z
    /\ In quake (JSMap.values (earthquakes w))).
  { intros impact Hi.
    apply (in_map fst) in Hi. simpl in Hi.
    rewrite getEarthquakesWithFinancialImpact_events in Hi.
    apply filter_In in Hi. destruct Hi as [Hs Hr].
    apply (proj1 (sort_most_recent_first_In _ _)) in Hs.
    unfold window_24h in Hs. apply filter_In in Hs. destruct Hs as [Hst Hw].
    unfold in_24h_window in Hw.
    apply andb_true_iff in Hr. destruct Hr as [Hr1 Hr2].
    apply Z.leb_le in Hw, Hr1, Hr2. repeat split; assumption. }
  split; [exact Hin|].
  intros Hold impact Hi. destruct (Hin impact Hi) as [Hle _]. lia.
Qed.

End Store.

(* ===================================================================== *)
(** * Ingestion                                                             *)
(* ===================================================================== *)

Section Ingestion.

Context (H : Host).

Lemma JSMap_get_set_eq {V : Type} (k : string) (v : V) (m : list (string * V)) :
  JSMap.get k (JSMap.set k v m) = Some v.
Proof.
  induction m as [|[k' v'] m IH]; simpl.
  - rewrite String.eqb_refl. reflexivity.
  - destruct (String.eqb k' k) eqn:E; simpl.
    + rewrite String.eqb_refl. reflexivity.
    + rewrite E. exact IH.
Qed.

Lemma JSMap_get_set_ne {V : Type} (k k0 : string) (v : V) (m : list (string * V)) :
  k0 <> k -> JSMap.get k0 (JSMap.set k v m) = JSMap.get k0 m.
Proof.
  intros Hne. induction m as [|[k' v'] m IH]; simpl.
  - destruct (String.eqb k k0) eqn:E; [|reflexivity].
    apply String.eqb_eq in E. congruence.
  - destruct (String.eqb k' k) eqn:E; simpl.
    + apply String.eqb_eq in E. subst k'.
      destruct (String.eqb k k0) eqn:E0; [|reflexivity].
      apply String.eqb_eq in E0. congruence.
    + destruct (String.eqb k' k0); [reflexivity | exact IH].
Qed.

Lemma same_occurrence_spec (quakeData : InsertEarthquake.t) (existing : Earthquake.t) :
  same_occurrence quakeData existing = true <-> duplicate_of quakeData existing.
Proof.
  unfold same_occurrence, duplicate_of, JS.Math_abs.
  rewrite !andb_true_iff, String.eqb_eq, ltb_true, Z.ltb_lt.
  change (1000 * 60 * 5)%Z with (5 * 60 * 1000)%Z. tauto.
Qed.

Lemma some_same_occurrence (quakeData : InsertEarthquake.t) (w : World) :
  JS.some (same_occurrence quakeData)
    (sort_most_recent_first (window_24h (wall_clock H (clock_reads w)) w)) = true
  <-> repeats_window H quakeData w.
Proof.
  rewrite some_sorted. unfold JS.some, repeats_window. rewrite existsb_exists.
  split; intros [x [Hx Hd]]; exists x; split; try exact Hx;
    apply same_occurrence_spec; exact Hd.
Qed.

Lemma processCandidate_duplicate (quakeData : InsertEarthquake.t) (w : World) :
  repeats_window H quakeData w ->
  processCandidate H quakeData w = (None, set_clock_reads (S (clock_reads w)) w).
Proof.
  intros Hd. apply some_same_occurrence in Hd.
  unfold processCandidate, bind. rewrite getEarthquakes_24h. simpl.
  rewrite Hd. reflexivity.
Qed.

Lemma processCandidate_fresh (quakeData : InsertEarthquake.t) (w : World) :
  ~ repeats_window H quakeData w ->
  let earthquake := created_for H quakeData w in
  let w' := after (processCandidate H quakeData) w in
  let m := InsertEarthquake.magnitude quakeData in
  result (processCandidate H quakeData) w = Some earthquake
  /\ JSMap.get (Earthquake.id earthquake) (earthquakes w')
     = Some (Earthquake.mk (Earthquake.id earthquake) (Earthquake.createdAt earthquake)
               quakeData (if JS.geb m 5.0 then Some true else None))
  /\ alerts w'
     = (if JS.geb m 4.0
        then <[alertIdCounter w :=
                 Alert.mk (alertIdCounter w)
                   (alertData_for quakeData earthquake
                      (wall_clock H (S (S (clock_reads w)))))]> (alerts w)
        else alerts w)
  /\ alertIdCounter w' = (if JS.geb m 4.0 then alertIdCounter w + 1 else alertIdCounter w)%Z.
Proof.
  intros Hd. cbv zeta.
  assert (Hs : JS.some (same_occurrence quakeData)
                 (sort_most_recent_first
                    (window_24h (wall_clock H (clock_reads w)) w)) = false).
  { apply not_true_iff_false. intros E. apply Hd, some_same_occurrence, E. }
  unfold result, after, processCandidate, bind. rewrite getEarthquakes_24h. simpl.
  rewrite Hs. simpl.
  unfold created_for.
  destruct (JS.geb (InsertEarthquake.magnitude quakeData) 4.0);
    destruct (JS.geb (InsertEarthquake.magnitude quakeData) 5.0);
    unfold verifyEarthquakeData, getEarthquake, updateEarthquake, bind, gets,
      modify, ret, Math_random;
    simpl; rewrite ?JSMap_get_set_eq; simpl; rewrite ?JSMap_get_set_eq;
    simpl; rewrite ?JSMap_get_set_eq;
    repeat split; reflexivity.
Qed.

Lemma processNewEarthquakes_from_acc (earthquakes : list InsertEarthquake.t) :
  forall (acc : list Earthquake.t) (w : World),
    processNewEarthquakes_from H acc earthquakes w
    = (acc ++ result (processNewEarthquakes_from H [] earthquakes) w,
       after (processNewEarthquakes_from H [] earthquakes) w).
Proof.
  induction earthquakes as [|quakeData rest IH]; intros acc w.
  - unfold result, after. simpl. unfold ret. simpl. rewrite app_nil_r. reflexivity.
  - unfold result, after. simpl. unfold bind.
    rewrite IH. rewrite (IH (match fst (processCandidate H quakeData w) with
                             | Some earthquake => [] ++ [earthquake]
                             | None => []
                             end)).
    simpl. destruct (fst (processCandidate H quakeData w)); simpl;
      rewrite <- ?app_assoc; reflexivity.
Qed.

(** The loop takes the candidates in turn, each against the world its
    predecessors left, and returns the events pushed, in order. *)
Lemma processNewEarthquakes_cons (quakeData : InsertEarthquake.t)
    (rest : list InsertEarthquake.t) (w : World) :
  processNewEarthquakes H (quakeData :: rest) w
  = (pushed (result (processCandidate H quakeData) w)
       ++ result (processNewEarthquakes H rest) (after (processCandidate H quakeData) w),
     after (processNewEarthquakes H rest) (after (processCandidate H quakeData) w)).
Proof.
  unfold processNewEarthquakes at 1. simpl. unfold bind.
  rewrite processNewEarthquakes_from_acc. unfold result, after, pushed, processNewEarthquakes.
  destruct (fst (processCandidate H quakeData w)); reflexivity.
Qed.


(** C6.  For a candidate that was admitted: below magnitude 4.0 no alert is
    created; from 4.0 and below 6.0 exactly one alert is added to the alerts,
    "Moderate Earthquake Alert" of severity "medium"; from 6.0 exactly one,
    "Major Earthquake Warning" of severity "high".  The alert carries the
    magnitude and the place of the event, refers to its identity, is active,
    and takes the next alert identity; that identity being free, the number of
    alerts grows by one. *)
Theorem C6_alert_for_an_admitted_event (quakeData : InsertEarthquake.t) (w : World)
    (earthquake : Earthquake.t) :
  result (processCandidate H quakeData) w = Some earthquake ->
  let w' := after (processCandidate H quakeData) w in
  let m := InsertEarthquake.magnitude quakeData in
  let alert message severity :=
    Alert.mk (alertIdCounter w)
      (InsertAlert.mk message severity (Some m)
         (Some (InsertEarthquake.place quakeData)) (Some (Earthquake.id earthquake))
         (wall_clock H (S (S (clock_reads w)))) (Some true)) in
  ((m < 4.0)%Q -> alerts w' = alerts w /\ alertIdCounter w' = alertIdCounter w)
  /\ ((4.0 <= m)%Q -> (m < 6.0)%Q ->
      alerts w' = <[alertIdCounter w := alert "Moderate Earthquake Alert" "medium"]>
                    (alerts w)
      /\ alertIdCounter w' = (alertIdCounter w + 1)%Z)
  /\ ((6.0 <= m)%Q ->
      alerts w' = <[alertIdCounter w := alert "Major Earthquake Warning" "high"]>
                    (alerts w)
      /\ alertIdCounter w' = (alertIdCounter w + 1)%Z)
  /\ ((4.0 <= m)%Q -> alerts w !! alertIdCounter w = None ->
      size (alerts w') = S (size (alerts w))).
Proof.
  intros Ha. cbv zeta.
  assert (Hn : ~ repeats_window H quakeData w).
  { intros Hd. unfold result in Ha.
    rewrite (processCandidate_duplicate quakeData w Hd) in Ha. discriminate. }
  destruct (processCandidate_fresh quakeData w Hn) as (Hr & _ & Hal & Hc).
  rewrite Hr in Ha. injection Ha as <-.
  rewrite Hal, Hc. unfold alertData_for.
  split; [|split; [|split]].
  - intros Hm. apply geb_false in Hm. rewrite Hm. split; reflexivity.
  - intros H4 H6. apply geb_true in H4. apply geb_false in H6.
    rewrite H4, H6. split; reflexivity.
  - intros H6.
    assert (H4 : JS.geb (InsertEarthquake.magnitude quakeData) 4.0 = true)
      by (apply geb_true; lra).
    apply geb_true in H6. rewrite H4, H6. split; reflexivity.
  - intros H4 Hfresh. apply geb_true in H4. rewrite H4.
    apply map_size_insert_None, Hfresh.
Qed.

End Ingestion.


(** C6 on the reference host: A, of magnitude 5.0, ingested by a fresh
    process, raises the first alert, a moderate one. *)
Lemma C6_alert_for_an_admitted_event_witness :
  exists alert,
    alerts (after (processCandidate Scenario.host Scenario.candidate_A) empty_world)
    = <[1%Z := alert]> ∅
    /\ InsertAlert.message (Alert.data alert) = "Moderate Earthquake Alert"%string
    /\ InsertAlert.severity (Alert.data alert) = "medium"%string
    /\ InsertAlert.active (Alert.data alert) = Some true.
Proof.
  assert (Hadmitted :
    result (processCandidate Scenario.host Scenario.candidate_A) empty_world
    = Some (created_for Scenario.host Scenario.candidate_A empty_world))
    by (vm_compute; reflexivity).
  destruct (C6_alert_for_an_admitted_event Scenario.host Scenario.candidate_A
              empty_world _ Hadmitted) as (_ & Hmoderate & _ & _).
  destruct Hmoderate as [Halerts _];
    [vm_compute; discriminate | vm_compute; reflexivity |].
  eexists. split; [exact Halerts|]. repeat split; reflexivity.
Defined.

(** C10 on the reference host: an event three days old is stored and inside
    the requested range, and is in no result of the bulk query. *)
Lemma C10_bulk_query_is_confined_to_24h_witness :
  In Scenario.stored_old (JSMap.values (earthquakes Scenario.world_old_and_A))
  /\ (0 <= Earthquake.time Scenario.stored_old <= Scenario.T0 + 86400000)%Z
  /\ forall impact,
       ~ In (Scenario.stored_old, impact)
            (result (getEarthquakesWithFinancialImpact Scenario.host
                       0 (Scenario.T0 + 86400000)) Scenario.world_old_and_A).
Proof.
  split; [vm_compute; left; reflexivity|].
  split; [vm_compute; split; discriminate|].
  apply (C10_bulk_query_is_confined_to_24h Scenario.host 0 (Scenario.T0 + 86400000)
           Scenario.world_old_and_A Scenario.stored_old).
  vm_compute. reflexivity.
Defined.

(* ===================================================================== *)
(** * API keys and the gate                                                 *)
(* ===================================================================== *)

Section Access.

Context (H : Host).

(** What [validateApiKey] answers, case by case.  The end date is compared
    with [endDate < now]: a subscription is still valid at the instant it
    ends. *)
Lemma validateApiKey_run (apiKey : string) (w : World) :
  validateApiKey H apiKey w
  = match apiKeys w !! apiKey with
    | None => (ApiKeyValidation.invalid, w)
    | Some s =>
        (if OracleSubscription.active s
            && (wall_clock H (clock_reads w) <=? OracleSubscription.endDate s)%Z
            && (0 <? OracleSubscription.remainingRequests s)%Z
         then ApiKeyValidation.valid
                (OracleSubscription.subscriber s) (OracleSubscription.id s)
                (OracleSubscription.organizationName s)
                (OracleSubscription.remainingRequests s)
                (OracleSubscription.endDate s)
         else ApiKeyValidation.invalid,
         set_clock_reads (S (clock_reads w)) w)
    end.
Proof.
  unfold validateApiKey, bind, gets, Date_now, ret. simpl.
  destruct (apiKeys w !! apiKey) as [s|]; simpl; [|reflexivity].
  destruct (OracleSubscription.active s); simpl.
  - destruct (Z.ltb_spec (OracleSubscription.endDate s) (wall_clock H (clock_reads w)));
      destruct (Z.leb_spec (wall_clock H (clock_reads w)) (OracleSubscription.endDate s));
      try lia; simpl; [reflexivity|].
    destruct (Z.leb_spec (OracleSubscription.remainingRequests s) 0);
      destruct (Z.ltb_spec 0 (OracleSubscription.remainingRequests s));
      try lia; reflexivity.
  - reflexivity.
Qed.

(** The key is valid exactly when it is known, active, not past its end and
    has budget left. *)
Lemma validateApiKey_valid_iff (apiKey : string) (w : World) :
  ApiKeyValidation.is_valid (result (validateApiKey H apiKey) w) = true
  <-> exists s,
        apiKeys w !! apiKey = Some s
        /\ OracleSubscription.active s = true
        /\ (wall_clock H (clock_reads w) <= OracleSubscription.endDate s)%Z
        /\ (0 < OracleSubscription.remainingRequests s)%Z.
Proof.
  unfold result. rewrite validateApiKey_run.
  destruct (apiKeys w !! apiKey) as [s|]; simpl.
  - destruct (OracleSubscription.active s) eqn:Ea; simpl;
      destruct (Z.leb_spec (wall_clock H (clock_reads w)) (OracleSubscription.endDate s));
      destruct (Z.ltb_spec 0 (OracleSubscription.remainingRequests s)); simpl;
      split; try discriminate;
      try (intros [s' (E & Ha & Ht & Hr)]; injection E as <-; congruence || lia).
    intros _. exists s. auto.
  - split; [discriminate|]. intros [s (E & _)]. discriminate.
Qed.

(** Validation reads the clock at most once and writes nothing. *)
Lemma validateApiKey_is_read_only (apiKey : string) (w : World) :
  apiKeys (after (validateApiKey H apiKey) w) = apiKeys w
  /\ earthquakes (after (validateApiKey H apiKey) w) = earthquakes w
  /\ alerts (after (validateApiKey H apiKey) w) = alerts w
  /\ alertIdCounter (after (validateApiKey H apiKey) w) = alertIdCounter w
  /\ financialImpactCache (after (validateApiKey H apiKey) w) = financialImpactCache w
  /\ random_draws (after (validateApiKey H apiKey) w) = random_draws w.
Proof.
  unfold after. rewrite validateApiKey_run.
  destruct (apiKeys w !! apiKey); simpl; repeat split; reflexivity.
Qed.

Lemma recordApiRequest_run (apiKey : string) (w : World) :
  recordApiRequest H apiKey w
  = match apiKeys w !! apiKey with
    | None => (Thrown "Invalid API key", w)
    | Some s =>
        (Returned (OracleSubscription.remainingRequests s - 1)%Z,
         set_apiKeys
           (<[apiKey := charged s (wall_clock H (clock_reads w))]> (apiKeys w))
           (set_clock_reads (S (clock_reads w)) w))
    end.
Proof.
  unfold recordApiRequest, bind, gets, Date_now, modify, ret. simpl.
  destruct (apiKeys w !! apiKey); reflexivity.
Qed.

(** The three ways through the middleware for a header that is present. *)
Lemma verifyApiKey_unknown (k : string) (w : World) :
  k <> EmptyString -> apiKeys w !! k = None ->
  verifyApiKey H (Some k) w = (Respond 401 "Invalid API key" "INVALID_API_KEY", w).
Proof.
  intros Hk Hn. destruct k as [|c k]; [congruence|].
  unfold verifyApiKey, bind. rewrite validateApiKey_run, Hn. reflexivity.
Qed.

Lemma verifyApiKey_refuses (k : string) (s : OracleSubscription.t) (w : World) :
  k <> EmptyString -> apiKeys w !! k = Some s ->
  OracleSubscription.active s = false
  \/ (OracleSubscription.endDate s < wall_clock H (clock_reads w))%Z
  \/ (OracleSubscription.remainingRequests s <= 0)%Z ->
  verifyApiKey H (Some k) w
  = (Respond 401 "Invalid API key" "INVALID_API_KEY",
     set_clock_reads (S (clock_reads w)) w).
Proof.
  intros Hk Hs Hbad. destruct k as [|c k]; [congruence|].
  unfold verifyApiKey, bind. rewrite validateApiKey_run, Hs. simpl.
  assert (E : OracleSubscription.active s
              && (wall_clock H (clock_reads w) <=? OracleSubscription.endDate s)%Z
              && (0 <? OracleSubscription.remainingRequests s)%Z = false).
  { destruct Hbad as [Ha|[Ht|Hr]].
    - rewrite Ha. reflexivity.
    - apply andb_false_iff. left. apply andb_false_iff. right.
      apply Z.leb_gt. exact Ht.
    - apply andb_false_iff. right. apply Z.ltb_ge. exact Hr. }
  rewrite E. reflexivity.
Qed.

Lemma verifyApiKey_admits (k : string) (s : OracleSubscription.t) (w : World) :
  k <> EmptyString -> apiKeys w !! k = Some s ->
  OracleSubscription.active s = true ->
  (wall_clock H (clock_reads w) <= OracleSubscription.endDate s)%Z ->
  (0 < OracleSubscription.remainingRequests s)%Z ->
  verifyApiKey H (Some k) w
  = (Next (ApiKeyValidation.valid
             (OracleSubscription.subscriber s) (OracleSubscription.id s)
             (OracleSubscription.organizationName s)
             (OracleSubscription.remainingRequests s)
             (OracleSubscription.endDate s))
          (OracleSubscription.remainingRequests s - 1)%Z,
     set_apiKeys
       (<[k := charged s (wall_clock H (S (clock_reads w)))]> (apiKeys w))
       (set_clock_reads (S (S (clock_reads w))) w)).
Proof.
  intros Hk Hs Ha Ht Hr. destruct k as [|c k]; [congruence|].
  unfold verifyApiKey, bind. rewrite validateApiKey_run, Hs. simpl.
  rewrite Ha. apply Z.leb_le in Ht. apply Z.ltb_lt in Hr. rewrite Ht, Hr. simpl.
  rewrite recordApiRequest_run. simpl. rewrite Hs. reflexivity.
Qed.

(** A request through the gate never makes a budget negative, and never
    reports a negative budget. *)
Lemma verifyApiKey_budgets (header : option string) (w : World) :
  budgets_nonnegative w ->
  budgets_nonnegative (after (verifyApiKey H header) w)
  /\ (forall r, reported_budget (result (verifyApiKey H header) w) = Some r -> (0 <= r)%Z).
Proof.
  intros Hw.
  destruct header as [k|]; [|split; [exact Hw | discriminate]].
  destruct (decide (k = EmptyString)) as [->|Hk]; [split; [exact Hw | discriminate]|].
  destruct (apiKeys w !! k) as [s|] eqn:Hs.
  2:{ unfold after, result. rewrite (verifyApiKey_unknown k w Hk Hs).
      split; [exact Hw | discriminate]. }
  destruct (OracleSubscription.active s) eqn:Ha.
  2:{ unfold after, result. rewrite (verifyApiKey_refuses k s w Hk Hs) by tauto.
      split; [exact Hw | discriminate]. }
  destruct (Z_lt_le_dec (OracleSubscription.endDate s) (wall_clock H (clock_reads w)))
    as [Ht|Ht].
  { unfold after, result. rewrite (verifyApiKey_refuses k s w Hk Hs) by tauto.
    split; [exact Hw | discriminate]. }
  destruct (Z_lt_le_dec 0 (OracleSubscription.remainingRequests s)) as [Hr|Hr].
  2:{ unfold after, result. rewrite (verifyApiKey_refuses k s w Hk Hs) by tauto.
      split; [exact Hw | discriminate]. }
  unfold after, result. rewrite (verifyApiKey_admits k s w Hk Hs Ha Ht Hr). simpl.
  split.
  - intros k' s' Hl. simpl in Hl.
    destruct (decide (k = k')) as [<-|Hne].
    + rewrite lookup_insert_eq in Hl. injection Hl as <-. simpl. lia.
    + rewrite lookup_insert_ne in Hl by exact Hne. apply (Hw k' s' Hl).
  - intros r E. injection E as <-. lia.
Qed.

Lemma requests_budgets (headers : list (option string)) :
  forall w, budgets_nonnegative w ->
    budgets_nonnegative (after (requests H headers) w)
    /\ Forall (fun gate => forall r, reported_budget gate = Some r -> (0 <= r)%Z)
         (result (requests H headers) w).
Proof.
  induction headers as [|header rest IH]; intros w Hw.
  - split; [exact Hw | constructor].
  - destruct (verifyApiKey_budgets header w Hw) as [Hw1 Hr1].
    destruct (IH _ Hw1) as [Hw2 Hr2].
    unfold after, result in *. simpl. unfold bind, ret. simpl.
    split; [exact Hw2 | constructor; assumption].
Qed.

(** C3 (as the code reports it).  For a key whose subscription is active,
    has budget 3 and does not end before the calls are made: three requests
    through the gate pass and report the remaining budgets 2, 1, 0; the fourth
    is refused with status 401 and code INVALID_API_KEY, the answer the gate
    gives to any key it does not accept, and leaves the budget at 0.  In any
    sequence of requests, under any headers, no budget becomes negative and no
    negative budget is reported. *)
Theorem C3_budget_of_three_then_refused (k : string) (s : OracleSubscription.t)
    (w : World) (headers : list (option string)) :
  k <> EmptyString ->
  apiKeys w !! k = Some s ->
  OracleSubscription.active s = true ->
  OracleSubscription.remainingRequests s = 3%Z ->
  (forall n, (n < 5)%nat ->
     (wall_clock H (clock_reads w + n) <= OracleSubscription.endDate s)%Z) ->
  budgets_nonnegative w ->
  let consume := verifyApiKey H (Some k) in
  let w1 := after consume w in
  let w2 := after consume w1 in
  let w3 := after consume w2 in
  let w4 := after consume w3 in
  reported_budget (result consume w) = Some 2%Z
  /\ reported_budget (result consume w1) = Some 1%Z
  /\ reported_budget (result consume w2) = Some 0%Z
  /\ result consume w3 = Respond 401 "Invalid API key" "INVALID_API_KEY"
  /\ (exists s4, apiKeys w4 !! k = Some s4
                 /\ OracleSubscription.remainingRequests s4 = 0%Z)
  /\ budgets_nonnegative (after (requests H headers) w)
  /\ Forall (fun gate => forall r, reported_budget gate = Some r -> (0 <= r)%Z)
        (result (requests H headers) w).
Proof.
  intros Hk Hs Ha Hr Ht Hw. cbv zeta.
  assert (Ht0 := Ht 0%nat ltac:(lia)). rewrite Nat.add_0_r in Ht0.
  assert (Ht2 := Ht 2%nat ltac:(lia)).
  assert (Ht4 := Ht 4%nat ltac:(lia)).
  replace (clock_reads w + 2)%nat with (S (S (clock_reads w))) in Ht2 by lia.
  replace (clock_reads w + 4)%nat with (S (S (S (S (clock_reads w))))) in Ht4 by lia.
  (* first request *)
  pose proof (verifyApiKey_admits k s w Hk Hs Ha Ht0 ltac:(lia)) as E1.
  set (s1 := charged s (wall_clock H (S (clock_reads w)))) in *.
  set (W1 := set_apiKeys (<[k := s1]> (apiKeys w))
               (set_clock_reads (S (S (clock_reads w))) w)) in *.
  assert (Hs1 : apiKeys W1 !! k = Some s1) by apply lookup_insert_eq.
  (* second request *)
  pose proof (verifyApiKey_admits k s1 W1 Hk Hs1 Ha Ht2
                ltac:(subst s1; simpl; lia)) as E2.
  set (s2 := charged s1 (wall_clock H (S (clock_reads W1)))) in *.
  set (W2 := set_apiKeys (<[k := s2]> (apiKeys W1))
               (set_clock_reads (S (S (clock_reads W1))) W1)) in *.
  assert (Hs2 : apiKeys W2 !! k = Some s2) by apply lookup_insert_eq.
  (* third request *)
  pose proof (verifyApiKey_admits k s2 W2 Hk Hs2 Ha Ht4
                ltac:(subst s2 s1; simpl; lia)) as E3.
  set (s3 := charged s2 (wall_clock H (S (clock_reads W2)))) in *.
  set (W3 := set_apiKeys (<[k := s3]> (apiKeys W2))
               (set_clock_reads (S (S (clock_reads W2))) W2)) in *.
  assert (Hs3 : apiKeys W3 !! k = Some s3) by apply lookup_insert_eq.
  (* fourth request *)
  pose proof (verifyApiKey_refuses k s3 W3 Hk Hs3
                ltac:(right; right; subst s3 s2 s1; simpl; lia)) as E4.
  unfold after, result. rewrite E1. cbn [fst snd]. rewrite E2. cbn [fst snd].
  rewrite E3. cbn [fst snd]. rewrite E4. cbn [fst snd].
  split; [simpl; f_equal; lia|].
  split; [simpl; f_equal; subst s1; simpl; lia|].
  split; [simpl; f_equal; subst s2 s1; simpl; lia|].
  split; [reflexivity|].
  split; [exists s3; split; [exact Hs3 | subst s3 s2 s1; simpl; lia]|].
  apply requests_budgets, Hw.
Qed.

End Access.

(** C3 on the reference host: the first request of a key issued with budget
    3 reports 2. *)
Lemma C3_budget_of_three_then_refused_witness :
  reported_budget
    (result (verifyApiKey Scenario.host (Some Scenario.key_3)) Scenario.world_3)
  = Some 2%Z.
Proof.
  eapply (C3_budget_of_three_then_refused Scenario.host Scenario.key_3 _
            Scenario.world_3 []).
  - vm_compute. discriminate.
  - vm_compute. reflexivity.
  - reflexivity.
  - reflexivity.
  - intros n Hn.
    assert (E : clock_reads Scenario.world_3 = 2%nat) by (vm_compute; reflexivity).
    rewrite E. cbn -[Z.add Z.of_nat Z.le]. unfold Scenario.T0. lia.
  - assert (E : apiKeys Scenario.world_3
                = <[Scenario.key_3 := snd (fst Scenario.issued)]> ∅)
      by (vm_compute; reflexivity).
    intros k s. rewrite E. intros Hl.
    apply lookup_insert_Some in Hl. destruct Hl as [[_ <-]|[_ Hl]].
    + vm_compute. discriminate.
    + rewrite lookup_empty in Hl. discriminate Hl.
Defined.

(** C3, as stated, fails on the kind of the failure: the fourth request of a
    key issued with budget 3 is answered [401 "Invalid API key"
    INVALID_API_KEY], which is exactly the answer to a key that was never
    issued; the gate has no answer of its own for an exhausted budget. *)
Lemma C3_fourth_request_is_answered_invalid_key :
  let consume := verifyApiKey Scenario.host (Some Scenario.key_3) in
  let w3 := after consume (after consume (after consume Scenario.world_3)) in
  map reported_budget
    (result (requests Scenario.host (repeat (Some Scenario.key_3) 3)) Scenario.world_3)
  = [Some 2%Z; Some 1%Z; Some 0%Z]
  /\ result consume w3 = Respond 401 "Invalid API key" "INVALID_API_KEY"
  /\ apiKeys w3 !! "qs_never_issued"%string = None
  /\ result consume w3
     = result (verifyApiKey Scenario.host (Some "qs_never_issued"%string)) w3.
Proof.
  cbv zeta. split; [|split; [|split]]; vm_compute; reflexivity.
Qed.

(** C7 at the end instant.  A key table holds one active subscription of
    budget 5 whose end date is the instant the clock shows: [validateApiKey]
    answers valid, since it rejects on [endDate < now] only. *)
Lemma C7_validateApiKey_accepts_at_the_end_instant :
  wall_clock Scenario.host (clock_reads Scenario.world_ending_now)
  = OracleSubscription.endDate Scenario.ending_now
  /\ result (validateApiKey Scenario.host "qs_ending") Scenario.world_ending_now
     = ApiKeyValidation.valid "0x71C7656EC7ab88b098defB751B7401B5f6d8976F" 1
         "Acme Re" 5 Scenario.T0.
Proof. split; vm_compute; reflexivity. Qed.

(* ===================================================================== *)
(** * Parsing the feed                                                      *)
(* ===================================================================== *)

Section Parsing.

Lemma parseFeature_can_be_read (feature : RawFeature.t) :
  can_be_read feature = true -> exists parsed, parseFeature feature = Returned parsed.
Proof.
  unfold can_be_read, parseFeature.
  destruct (RawFeature.geometry feature) as [g|]; [|discriminate].
  destruct (RawFeature.properties feature) as [p|]; [|discriminate].
  destruct (RawFeature.coordinates g) as [c|]; [|discriminate].
  intros _. eexists. reflexivity.
Qed.

Lemma parseFeature_cannot_be_read (feature : RawFeature.t) :
  can_be_read feature = false -> parseFeature feature = Thrown "TypeError".
Proof.
  unfold can_be_read, parseFeature.
  destruct (RawFeature.geometry feature) as [g|]; [|reflexivity].
  destruct (RawFeature.coordinates g) as [c|]; [|reflexivity].
  destruct (RawFeature.properties feature) as [p|]; [discriminate|reflexivity].
Qed.

(** Whatever is read from the properties is passed on as it is, a missing
    magnitude or time included. *)
Lemma parseFeature_passes_on (feature : RawFeature.t) (parsed : ParsedEarthquake.t) :
  parseFeature feature = Returned parsed ->
  exists properties,
    RawFeature.properties feature = Some properties
    /\ ParsedEarthquake.magnitude parsed = RawFeature.mag properties
    /\ ParsedEarthquake.time parsed = RawFeature.time properties
    /\ ParsedEarthquake.place parsed = RawFeature.place properties.
Proof.
  unfold parseFeature.
  destruct (RawFeature.geometry feature) as [g|]; [|discriminate].
  destruct (RawFeature.coordinates g) as [c|]; [|discriminate].
  destruct (RawFeature.properties feature) as [p|]; [|discriminate].
  intros E. injection E as <-. exists p. repeat split; reflexivity.
Qed.

Lemma map_features_all (features : list RawFeature.t) :
  forallb can_be_read features = true ->
  exists parsed,
    map_features features = Returned parsed
    /\ Forall2 (fun feature p => parseFeature feature = Returned p) features parsed.
Proof.
  induction features as [|feature rest IH]; simpl; intros Hall.
  - exists []. split; [reflexivity | constructor].
  - apply andb_true_iff in Hall. destruct Hall as [Hf Hrest].
    destruct (parseFeature_can_be_read feature Hf) as [p Ep].
    destruct (IH Hrest) as [ps [Eps Hps]].
    exists (p :: ps). rewrite Ep, Eps. split; [reflexivity | constructor; assumption].
Qed.

Lemma map_features_one_throws (features : list RawFeature.t) :
  forallb can_be_read features = false ->
  map_features features = Thrown "TypeError".
Proof.
  induction features as [|feature rest IH]; simpl; intros Hall; [discriminate|].
  destruct (can_be_read feature) eqn:Hf; simpl in Hall.
  - destruct (parseFeature_can_be_read feature Hf) as [p Ep].
    rewrite Ep, (IH Hall). reflexivity.
  - rewrite (parseFeature_cannot_be_read feature Hf). reflexivity.
Qed.

(** C8 (as the code parses).  The batch is parsed as a whole or not at all.
    When every feature has its geometry with coordinates and its properties,
    every feature is parsed, in order, and nothing is logged; a feature that
    lacks only its magnitude or its time is not skipped: it is passed on with
    that member undefined.  When one feature lacks its geometry, its
    coordinates or its properties, the error is logged once and the result is
    empty: the well-formed records of the batch are lost with it. *)
Theorem C8_parsing_is_all_or_nothing (features : list RawFeature.t) :
  (forallb can_be_read features = true ->
     exists parsed,
       parseEarthquakeData (Some (Some features)) = (parsed, [])
       /\ Forall2 (fun feature p => parseFeature feature = Returned p) features parsed
       /\ length parsed = length features)
  /\ (forallb can_be_read features = false ->
      parseEarthquakeData (Some (Some features))
      = ([], ["Error parsing earthquake data:"%string]))
  /\ (forall feature p, parseFeature feature = Returned p ->
      exists properties,
        RawFeature.properties feature = Some properties
        /\ ParsedEarthquake.magnitude p = RawFeature.mag properties
        /\ ParsedEarthquake.time p = RawFeature.time properties
        /\ ParsedEarthquake.place p = RawFeature.place properties).
Proof.
  split; [|split].
  - intros Hall. destruct (map_features_all features Hall) as [parsed [E HF]].
    exists parsed. unfold parseEarthquakeData. rewrite E.
    split; [reflexivity|]. split; [exact HF|].
    symmetry. apply (Forall2_length _ _ _ HF).
  - intros Hone. unfold parseEarthquakeData.
    rewrite (map_features_one_throws features Hone). reflexivity.
  - apply parseFeature_passes_on.
Qed.

End Parsing.

(** C8 on the sample features: one feature without coordinates between two
    well-formed ones. *)
Lemma C8_parsing_is_all_or_nothing_witness :
  parseEarthquakeData
    (Some (Some [Scenario.feature_nc; Scenario.feature_without_coordinates;
                 Scenario.feature_ak]))
  = ([], ["Error parsing earthquake data:"%string]).
Proof.
  apply (C8_parsing_is_all_or_nothing
           [Scenario.feature_nc; Scenario.feature_without_coordinates;
            Scenario.feature_ak]).
  reflexivity.
Defined.

(** C8, as stated, fails.  In a batch of two well-formed features around one
    without coordinates nothing is parsed, though each of the two parses on
    its own; and a feature without a magnitude is not skipped but passed on
    with its magnitude undefined. *)
Lemma C8_one_malformed_record_empties_the_batch :
  fst (parseEarthquakeData (Some (Some [Scenario.feature_nc]))) <> []
  /\ fst (parseEarthquakeData (Some (Some [Scenario.feature_ak]))) <> []
  /\ fst (parseEarthquakeData
            (Some (Some [Scenario.feature_nc; Scenario.feature_without_coordinates;
                         Scenario.feature_ak]))) = []
  /\ map ParsedEarthquake.magnitude
       (fst (parseEarthquakeData
               (Some (Some [Scenario.feature_nc; Scenario.feature_without_magnitude]))))
     = [Some 3.5%Q; None].
Proof.
  split; [vm_compute; discriminate|].
  split; [vm_compute; discriminate|].
  split; vm_compute; reflexivity.
Qed.

(* ===================================================================== *)
(** * The earthquake overlay on a rate series                               *)
(* ===================================================================== *)

Section Overlay.

Context (H : Host).








End Overlay.


(* ===================================================================== *)
(** * Further properties of the risk model                                  *)
(* ===================================================================== *)

Section RiskModelRanges.

Context (H : Host).
Local Open Scope Q_scope.

Lemma calculateMagnitudeImpact_bounds (m : Q) :
  0 <= m ->
  0 <= calculateMagnitudeImpact m <= 100
  /\ (9 <= m -> calculateMagnitudeImpact m == 100).
Proof.
  intros Hm. unfold calculateMagnitudeImpact, JS.Math_min.
  js_cases; repeat split; intros; lra.
Qed.

Lemma calculateDepthImpact_facts (d1 d2 : Q) :
  d1 <= d2 ->
  calculateDepthImpact d2 <= calculateDepthImpact d1
  /\ 10 <= calculateDepthImpact d1
  /\ (0 <= d1 -> calculateDepthImpact d1 <= 100).
Proof.
  intros Hd. unfold calculateDepthImpact, JS.Math_max, Qdiv.
  change (/ 2) with (1 # 2).
  js_cases; repeat split; intros; lra.
Qed.

(** X1.  The two impacts stay in range.  The magnitude impact of a magnitude
    that is not negative lies between 0 and 100, and is 100 from magnitude 9
    on; the depth impact does not grow with depth (shallower is worse), is
    never below 10, and is at most 100 for a depth that is not negative. *)
Theorem the_two_impacts_stay_in_range (m d1 d2 : Q) :
  0 <= m -> d1 <= d2 ->
  0 <= calculateMagnitudeImpact m <= 100
  /\ (9 <= m -> calculateMagnitudeImpact m == 100)
  /\ calculateDepthImpact d2 <= calculateDepthImpact d1
  /\ 10 <= calculateDepthImpact d1
  /\ (0 <= d1 -> calculateDepthImpact d1 <= 100).
Proof.
  intros Hm Hd.
  destruct (calculateMagnitudeImpact_bounds m Hm) as [R1 R2].
  destruct (calculateDepthImpact_facts d1 d2 Hd) as (D1 & D2 & D3).
  split; [exact R1|]. split; [exact R2|]. split; [exact D1|].
  split; [exact D2 | exact D3].
Qed.

Lemma calculateDepthImpact_least (d : Q) : 10 <= calculateDepthImpact d.
Proof. apply (calculateDepthImpact_facts d d). lra. Qed.


(** The location impact is one of the four values of the table. *)
Lemma calculateLocationImpact_values (lat lon : Q) :
  calculateLocationImpact H lat lon = 90 \/ calculateLocationImpact H lat lon = 85
  \/ calculateLocationImpact H lat lon = 80 \/ calculateLocationImpact H lat lon = 30.
Proof.
  unfold calculateLocationImpact.
  repeat match goal with
         | |- context [if ?b then _ else _] => destruct b
         end; tauto.
Qed.

Lemma calculateLocationImpact_bounds (lat lon : Q) :
  30 <= calculateLocationImpact H lat lon <= 90.
Proof.
  destruct (calculateLocationImpact_values lat lon) as [E|[E|[E|E]]];
    rewrite E; split; lra.
Qed.

Lemma Math_round_is_integer (x : Q) : is_integer (JS.Math_round x).
Proof. eexists. reflexivity. Qed.

Lemma Math_round_ge (n : Z) (x : Q) :
  inject_Z n - (1 # 2) <= x -> inject_Z n <= JS.Math_round x.
Proof.
  intros Hx. unfold JS.Math_round. rewrite <- Zle_Qle.
  rewrite <- (Qfloor_Z n) at 1. apply Qfloor_resp_le.
  remember (inject_Z n) as q. lra.
Qed.



Lemma Math_min_le_l (a x : Q) : JS.Math_min a x <= a.
Proof. unfold JS.Math_min. js_cases; lra. Qed.

Lemma Math_min_100_integer (x : Q) : is_integer x -> is_integer (JS.Math_min 100 x).
Proof.
  intros Hx. unfold JS.Math_min. destruct (Qle_bool 100 x); [|exact Hx].
  exists 100%Z. reflexivity.
Qed.

Lemma marketImpactScore_of_range (e : Earthquake.t) :
  0 <= Earthquake.magnitude e ->
  is_integer (marketImpactScore_of H e)
  /\ 11 <= marketImpactScore_of H e <= 100.
Proof.
  intros Hm. unfold marketImpactScore_of.
  split; [apply Math_min_100_integer, Math_round_is_integer|].
  pose proof (calculateMagnitudeImpact_bounds _ Hm) as [[Hm0 _] _].
  pose proof (calculateDepthImpact_least (Earthquake.depth e)) as Hd.
  pose proof (calculateLocationImpact_bounds (Earthquake.latitude e)
                (Earthquake.longitude e)) as [Hl _].
  set (x := calculateMagnitudeImpact (Earthquake.magnitude e) * 0.5
            + calculateDepthImpact (Earthquake.depth e) * 0.2
            + calculateLocationImpact H (Earthquake.latitude e)
                (Earthquake.longitude e) * 0.3) in *.
  assert (Hr : 11 <= JS.Math_round x).
  { apply (Math_round_ge 11). change (inject_Z 11) with 11. unfold x. lra. }
  unfold JS.Math_min. js_cases; split; lra.
Qed.

(** X2.  The score of a freshly scored event of magnitude at least 0 is an integer
    between 11 and 100. *)
Theorem fresh_score_range (e : Earthquake.t) (w : World) :
  financialImpactCache w !! Earthquake.id e = None ->
  0 <= Earthquake.magnitude e ->
  let score :=
    FinancialImpactData.marketImpactScore (result (generateFinancialImpactData H e) w) in
  is_integer score /\ 11 <= score <= 100.
Proof.
  intros Hc Hm. cbv zeta.
  destruct (generateFinancialImpactData_fresh H e w Hc) as [Es _].
  rewrite Es. apply marketImpactScore_of_range, Hm.
Qed.

(** X3.  With magnitude and location fixed, the score and the risk level of a
    freshly scored event do not grow with depth. *)
Theorem risk_is_antitone_in_depth (e1 e2 : Earthquake.t) (w1 w2 : World) :
  Earthquake.magnitude e1 = Earthquake.magnitude e2 ->
  Earthquake.latitude e1 = Earthquake.latitude e2 ->
  Earthquake.longitude e1 = Earthquake.longitude e2 ->
  Earthquake.depth e1 <= Earthquake.depth e2 ->
  financialImpactCache w1 !! Earthquake.id e1 = None ->
  financialImpactCache w2 !! Earthquake.id e2 = None ->
  FinancialImpactData.marketImpactScore (result (generateFinancialImpactData H e2) w2)
  <= FinancialImpactData.marketImpactScore (result (generateFinancialImpactData H e1) w1)
  /\ RiskLevel_le
       (FinancialImpactData.riskLevel (result (generateFinancialImpactData H e2) w2))
       (FinancialImpactData.riskLevel (result (generateFinancialImpactData H e1) w1)).
Proof.
  intros Hm Hlat Hlon Hd Hc1 Hc2.
  destruct (generateFinancialImpactData_fresh H e1 w1 Hc1) as [Es1 Er1].
  destruct (generateFinancialImpactData_fresh H e2 w2 Hc2) as [Es2 Er2].
  rewrite Es1, Es2, Er1, Er2.
  assert (Hs : marketImpactScore_of H e2 <= marketImpactScore_of H e1).
  { unfold marketImpactScore_of. rewrite Hm, Hlat, Hlon.
    apply Math_min_mono, Math_round_mono.
    pose proof (calculateDepthImpact_facts _ _ Hd) as [Hle _].
    remember (calculateMagnitudeImpact _) as m.
    remember (calculateLocationImpact _ _ _) as l. lra. }
  split; [exact Hs | apply riskLevel_of_mono; exact Hs].
Qed.


(** Membership in a list of strings that are written out. *)
Ltac in_written_list :=
  solve [simpl; repeat (first [left; reflexivity | right])].
Ltac all_in_written_list :=
  repeat (apply List.Forall_cons; [in_written_list|]); apply List.Forall_nil.

(** X5.  The regional table never leaves the markets or the currencies empty, only
    yields codes of the table, and names GLOBAL_MARKETS only when no region
    matched, as the single market with the currencies USD and EUR. *)
Theorem affected_markets_are_never_empty (lat lon : Q) :
  let markets := fst (getAffectedMarketsAndCurrencies H lat lon) in
  let currencies := snd (getAffectedMarketsAndCurrencies H lat lon) in
  markets <> [] /\ currencies <> []
  /\ Forall (fun market => In market known_markets) markets
  /\ Forall (fun currency => In currency known_currencies) currencies
  /\ (In "GLOBAL_MARKETS"%string markets ->
      markets = ["GLOBAL_MARKETS"%string] /\ currencies = ["USD"; "EUR"]%string).
Proof.
  cbv zeta. unfold getAffectedMarketsAndCurrencies.
  destruct (isLocationNearRegion H lat lon 35.6762 139.6503 800);
    destruct (isLocationNearRegion H lat lon 37.7749 (-122.4194) 800);
    destruct (isLocationNearRegion H lat lon (-33.8688) 151.2093 800);
    destruct (isLocationNearRegion H lat lon 31.2304 121.4737 800);
    cbn [fst snd app length Nat.eqb];
    (split; [discriminate|]); (split; [discriminate|]);
    (split; [all_in_written_list|]); (split; [all_in_written_list|]);
    intros Hin; cbn [In] in Hin;
    repeat (destruct Hin as [Hin|Hin]; [try discriminate Hin|]);
    try contradiction; split; reflexivity.
Qed.

End RiskModelRanges.

Section AssessmentRanges.

Context (H : Host).
Local Open Scope Q_scope.

Lemma market_score_range (s r : Q) :
  0 <= s -> 0 <= r ->
  is_integer (JS.Math_min 100 (JS.Math_round (s * (0.7 + r * 0.5))))
  /\ 0 <= JS.Math_min 100 (JS.Math_round (s * (0.7 + r * 0.5))) <= 100.
Proof.
  intros Hs Hr.
  split; [apply Math_min_100_integer, Math_round_is_integer|].
  assert (Hx : 0 <= s * (0.7 + r * 0.5)) by (apply Qmult_le_0_compat; lra).
  assert (Hge : 0 <= JS.Math_round (s * (0.7 + r * 0.5))).
  { apply (Math_round_ge 0). change (inject_Z 0) with 0. lra. }
  remember (JS.Math_round (s * (0.7 + r * 0.5))) as x. clear Heqx.
  unfold JS.Math_min. js_cases; split; lra.
Qed.

(** The scores written by the loop over the affected markets: one entry for
    each market, each an integer between 0 and 100. *)
Lemma marketSpecificScores_from_spec (markets : list string) :
  forall (scores : gmap string Q) (s : Q) (w : World),
    random_in_unit_interval H -> 0 <= s ->
    (forall m v, scores !! m = Some v -> is_integer v /\ 0 <= v <= 100) ->
    (forall m v,
       result (marketSpecificScores_from H scores s markets) w !! m = Some v ->
       is_integer v /\ 0 <= v <= 100)
    /\ (forall m,
          is_Some (result (marketSpecificScores_from H scores s markets) w !! m)
          <-> In m markets \/ is_Some (scores !! m)).
Proof.
  induction markets as [|market rest IH]; intros scores s w Hrand Hs Hscores.
  - unfold result. simpl. split; [exact Hscores|]. intros m. tauto.
  - unfold result in *. simpl. unfold bind. simpl.
    set (v0 := JS.Math_min 100
                 (JS.Math_round (s * (0.7 + random_source H (random_draws w) * 0.5)))).
    destruct (market_score_range s (random_source H (random_draws w)) Hs
                (proj1 (Hrand _))) as [Hint Hrange].
    fold v0 in Hint, Hrange.
    specialize (IH (<[market := v0]> scores) s
                  (set_random_draws (S (random_draws w)) w) Hrand Hs).
    destruct IH as [IHr IHd].
    { intros m v Hl. destruct (decide (market = m)) as [->|Hne].
      - rewrite lookup_insert_eq in Hl. injection Hl as <-. split; assumption.
      - rewrite lookup_insert_ne in Hl by exact Hne. apply (Hscores m v Hl). }
    split; [exact IHr|].
    intros m. rewrite IHd. destruct (decide (market = m)) as [->|Hne].
    + rewrite lookup_insert_eq. split; [intros _; left; left; reflexivity|].
      intros _. right. eexists. reflexivity.
    + rewrite lookup_insert_ne by exact Hne. simpl. intuition congruence.
Qed.

(** The members of a fresh assessment, spelled out. *)
Lemma generateFinancialImpactData_fresh_members (e : Earthquake.t) (w : World) :
  financialImpactCache w !! Earthquake.id e = None ->
  let d := result (generateFinancialImpactData H e) w in
  let score := marketImpactScore_of H e in
  let affected :=
    getAffectedMarketsAndCurrencies H (Earthquake.latitude e) (Earthquake.longitude e) in
  FinancialImpactData.earthquakeId d = Earthquake.id e
  /\ FinancialImpactData.affectedMarkets d = fst affected
  /\ FinancialImpactData.affectedCurrencies d = snd affected
  /\ FinancialImpactData.volatilityIndex d
     = JS.Math_min 100
         (JS.Math_round (score * 0.8 + random_source H (random_draws w) * 20))
  /\ FinancialImpactData.marketSpecificScores d
     = result (marketSpecificScores_from H ∅ score (fst affected))
              (set_random_draws (S (random_draws w)) w)
  /\ FinancialImpactData.recommendations d
     = generateRecommendations (riskLevel_of score) (fst affected) (snd affected)
  /\ FinancialImpactData.timestamp d
     = wall_clock H (clock_reads w).
Proof.
  intros Hc. cbv zeta.
  unfold result, generateFinancialImpactData, bind, gets. simpl. rewrite Hc.
  destruct (getAffectedMarketsAndCurrencies H _ _) as [markets currencies].
  simpl.
  pose proof (marketSpecificScores_from_after H markets) as Hm. unfold after in Hm.
  rewrite !Hm. simpl. repeat split; reflexivity.
Qed.

(** X6.  In a fresh assessment of an event of magnitude at least 0, on a host
    whose random numbers lie in [0, 1): the volatility index is an integer
    between 9 and 100, the markets that have a score are exactly the affected
    markets, and every market score is an integer between 0 and 100. *)
Theorem fresh_assessment_ranges (e : Earthquake.t) (w : World) :
  random_in_unit_interval H ->
  financialImpactCache w !! Earthquake.id e = None ->
  0 <= Earthquake.magnitude e ->
  let d := result (generateFinancialImpactData H e) w in
  is_integer (FinancialImpactData.volatilityIndex d)
  /\ 9 <= FinancialImpactData.volatilityIndex d <= 100
  /\ (forall market,
        is_Some (FinancialImpactData.marketSpecificScores d !! market)
        <-> In market (FinancialImpactData.affectedMarkets d))
  /\ (forall market v,
        FinancialImpactData.marketSpecificScores d !! market = Some v ->
        is_integer v /\ 0 <= v <= 100).
Proof.
  intros Hrand Hc Hm. cbv zeta.
  destruct (generateFinancialImpactData_fresh_members e w Hc)
    as (_ & Ema & _ & Ev & Es & _).
  rewrite Ev, Es, Ema.
  destruct (marketImpactScore_of_range H e Hm) as [_ [Hlo Hhi]].
  destruct (Hrand (random_draws w)) as [Hr0 Hr1].
  destruct (marketSpecificScores_from_spec
              (fst (getAffectedMarketsAndCurrencies H (Earthquake.latitude e)
                      (Earthquake.longitude e)))
              ∅ (marketImpactScore_of H e)
              (set_random_draws (S (random_draws w)) w) Hrand ltac:(lra))
    as [Hrange Hdom].
  { intros m v Hl. rewrite lookup_empty in Hl. discriminate Hl. }
  split; [apply Math_min_100_integer, Math_round_is_integer|].
  split.
  { assert (Hge : 9 <= JS.Math_round
                         (marketImpactScore_of H e * 0.8
                          + random_source H (random_draws w) * 20)).
    { apply (Math_round_ge 9). change (inject_Z 9) with 9. lra. }
    remember (JS.Math_round _) as x. clear Heqx.
    unfold JS.Math_min. js_cases; split; lra. }
  split; [|exact Hrange].
  intros market. rewrite Hdom. rewrite lookup_empty.
  split; [intros [Hin|[x Hx]]; [exact Hin | discriminate Hx] | auto].
Qed.

End AssessmentRanges.

(* ===================================================================== *)
(** * Which part of the world an operation writes                           *)
(* ===================================================================== *)

Section Frames.

Context (H : Host).

Ltac run_frame :=
  unfold after, bind, gets, modify, ret, Date_now, Math_random; cbn;
  repeat (match goal with
          | |- context [if ?b then _ else _] => destruct b; cbn
          | |- context [match ?x with Some _ => _ | None => _ end] => destruct x; cbn
          end);
  reflexivity.

Lemma getEarthquakes_after (filters : EarthquakeFilters.t) (w : World) :
  after (getEarthquakes H filters) w = set_clock_reads (S (clock_reads w)) w.
Proof. reflexivity. Qed.

Lemma verifyEarthquakeData_oracle (earthquakeId : string) (w : World) :
  oracle_of (after (verifyEarthquakeData H earthquakeId) w) = oracle_of w.
Proof.
  unfold verifyEarthquakeData, getEarthquake, updateEarthquake. run_frame.
Qed.

Lemma processCandidate_oracle (quakeData : InsertEarthquake.t) (w : World) :
  oracle_of (after (processCandidate H quakeData) w) = oracle_of w.
Proof.
  unfold processCandidate, createEarthquake, createAlert, verifyEarthquakeData,
    getEarthquake, updateEarthquake, getEarthquakes.
  run_frame.
Qed.

Lemma processNewEarthquakes_after_cons (quakeData : InsertEarthquake.t)
    (rest : list InsertEarthquake.t) (w : World) :
  after (processNewEarthquakes H (quakeData :: rest)) w
  = after (processNewEarthquakes H rest) (after (processCandidate H quakeData) w).
Proof.
  unfold after at 1. rewrite processNewEarthquakes_cons. reflexivity.
Qed.

Lemma processNewEarthquakes_oracle (batch : list InsertEarthquake.t) :
  forall w, oracle_of (after (processNewEarthquakes H batch) w) = oracle_of w.
Proof.
  induction batch as [|quakeData rest IH]; intros w; [reflexivity|].
  rewrite processNewEarthquakes_after_cons, IH. apply processCandidate_oracle.
Qed.

Lemma generateFinancialImpactData_frame (e : Earthquake.t) (w : World) :
  store_of (after (generateFinancialImpactData H e) w) = store_of w
  /\ apiKeys (after (generateFinancialImpactData H e) w) = apiKeys w.
Proof.
  destruct (financialImpactCache w !! Earthquake.id e) as [d|] eqn:Hc.
  - unfold after. rewrite (generateFinancialImpactData_cached H e w d Hc).
    split; reflexivity.
  - destruct (generateFinancialImpactData_fresh_after H e w Hc)
      as (_ & E1 & E2 & E3 & E4).
    unfold store_of. rewrite E1, E2, E3, E4. split; reflexivity.
Qed.

Lemma getFinancialImpactForEarthquake_cases (k : string) (w : World) :
  after (getFinancialImpactForEarthquake H k) w = w
  \/ exists e, JSMap.get k (earthquakes w) = Some e
               /\ financialImpactCache w !! k = None
               /\ after (getFinancialImpactForEarthquake H k) w
                  = after (generateFinancialImpactData H e) w
               /\ result (getFinancialImpactForEarthquake H k) w
                  = Some (result (generateFinancialImpactData H e) w).
Proof.
  destruct (financialImpactCache w !! k) as [d|] eqn:Hc.
  - left. unfold after. rewrite (getFinancialImpactForEarthquake_hit H k w d Hc).
    reflexivity.
  - destruct (JSMap.get k (earthquakes w)) as [e|] eqn:He.
    + right. exists e. unfold after at 1, result at 1.
      rewrite (getFinancialImpactForEarthquake_miss H k w e Hc He).
      repeat split; reflexivity.
    + left. unfold after.
      rewrite (getFinancialImpactForEarthquake_unknown H k w Hc He). reflexivity.
Qed.

Lemma getFinancialImpactForEarthquake_frame (k : string) (w : World) :
  store_of (after (getFinancialImpactForEarthquake H k) w) = store_of w
  /\ apiKeys (after (getFinancialImpactForEarthquake H k) w) = apiKeys w.
Proof.
  destruct (getFinancialImpactForEarthquake_cases k w) as [E|(e & _ & _ & E & _)];
    rewrite E; [split; reflexivity | apply generateFinancialImpactData_frame].
Qed.

Lemma withFinancialImpact_after_cons (quake : Earthquake.t)
    (rest : list Earthquake.t) (w : World) :
  after (withFinancialImpact H (quake :: rest)) w
  = after (withFinancialImpact H rest) (after (generateFinancialImpactData H quake) w).
Proof. reflexivity. Qed.

Lemma withFinancialImpact_result_cons (quake : Earthquake.t)
    (rest : list Earthquake.t) (w : World) :
  result (withFinancialImpact H (quake :: rest)) w
  = (quake, result (generateFinancialImpactData H quake) w)
    :: result (withFinancialImpact H rest) (after (generateFinancialImpactData H quake) w).
Proof. reflexivity. Qed.

Lemma withFinancialImpact_frame (quakes : list Earthquake.t) :
  forall w,
    store_of (after (withFinancialImpact H quakes) w) = store_of w
    /\ apiKeys (after (withFinancialImpact H quakes) w) = apiKeys w.
Proof.
  induction quakes as [|quake rest IH]; intros w; [split; reflexivity|].
  rewrite withFinancialImpact_after_cons.
  destruct (IH (after (generateFinancialImpactData H quake) w)) as [E1 E2].
  destruct (generateFinancialImpactData_frame quake w) as [E3 E4].
  rewrite E1, E2. split; assumption.
Qed.

Lemma getEarthquakesWithFinancialImpact_run (startTime endTime : Z) (w : World) :
  getEarthquakesWithFinancialImpact H startTime endTime w
  = withFinancialImpact H
      (List.filter (fun quake => (startTime <=? Earthquake.time quake)%Z
                                 && (Earthquake.time quake <=? endTime)%Z)
         (result (getEarthquakes H (EarthquakeFilters.mk "custom" "all" "global")) w))
      (set_clock_reads (S (clock_reads w)) w).
Proof. reflexivity. Qed.

Lemma getEarthquakesWithFinancialImpact_frame (startTime endTime : Z) (w : World) :
  store_of (after (getEarthquakesWithFinancialImpact H startTime endTime) w) = store_of w
  /\ apiKeys (after (getEarthquakesWithFinancialImpact H startTime endTime) w)
     = apiKeys w.
Proof.
  unfold after. rewrite getEarthquakesWithFinancialImpact_run.
  apply (withFinancialImpact_frame _ (set_clock_reads (S (clock_reads w)) w)).
Qed.

Lemma createApiKey_frame (subscriber organizationName contactEmail : string)
    (durationDays requestLimit : Z) (w : World) :
  store_of (after (createApiKey H subscriber organizationName contactEmail
                     durationDays requestLimit) w) = store_of w
  /\ financialImpactCache
       (after (createApiKey H subscriber organizationName contactEmail
                 durationDays requestLimit) w) = financialImpactCache w.
Proof. split; reflexivity. Qed.

Lemma verifyApiKey_frame (header : option string) (w : World) :
  store_of (after (verifyApiKey H header) w) = store_of w
  /\ financialImpactCache (after (verifyApiKey H header) w) = financialImpactCache w.
Proof.
  destruct header as [[|c k]|]; [split; reflexivity| |split; reflexivity].
  unfold verifyApiKey, after, bind.
  rewrite validateApiKey_run.
  destruct (apiKeys w !! String c k) as [s|] eqn:Hs; cbn [fst snd];
    [|split; reflexivity].
  destruct (OracleSubscription.active s && _ && _); cbn [fst snd negb ApiKeyValidation.is_valid];
    [|split; reflexivity].
  rewrite recordApiRequest_run. cbn [apiKeys set_clock_reads]. rewrite Hs.
  split; reflexivity.
Qed.

(** X7.  Every operation writes its own part of the world only: ingestion,
    on-chain verification and listing leave the assessment cache and the key
    table as they are; the three scoring entry points leave the store of
    events and alerts and the key table as they are; issuing a key and a
    request through the middleware leave the store and the cache as they
    are. *)
Theorem operations_write_their_own_part (op : Operation) (w : World) :
  let w' := after (perform H op) w in
  match op with
  | Ingest _ | VerifyOnChain _ | ListEarthquakes _ =>
      financialImpactCache w' = financialImpactCache w /\ apiKeys w' = apiKeys w
  | Score _ | ScoreById _ | BulkScore _ _ =>
      store_of w' = store_of w /\ apiKeys w' = apiKeys w
  | IssueKey _ _ _ _ _ | Request _ =>
      store_of w' = store_of w /\ financialImpactCache w' = financialImpactCache w
  end.
Proof.
  cbv zeta. destruct op; unfold perform, after, bind; cbn [snd ret].
  - pose proof (processNewEarthquakes_oracle batch w) as E.
    unfold oracle_of in E. injection E as E1 E2. split; assumption.
  - pose proof (verifyEarthquakeData_oracle earthquakeId w) as E.
    unfold oracle_of in E. injection E as E1 E2. split; assumption.
  - split; reflexivity.
  - apply generateFinancialImpactData_frame.
  - apply getFinancialImpactForEarthquake_frame.
  - apply getEarthquakesWithFinancialImpact_frame.
  - apply createApiKey_frame.
  - apply verifyApiKey_frame.
Qed.

End Frames.

(* ===================================================================== *)
(** * The assessment cache over the life of the process                     *)
(* ===================================================================== *)

Section CacheOverTime.

Context (H : Host).

Lemma withFinancialImpact_keeps (quakes : list Earthquake.t) :
  forall (w : World) (k : string) (d : FinancialImpactData.t),
    financialImpactCache w !! k = Some d ->
    financialImpactCache (after (withFinancialImpact H quakes) w) !! k = Some d.
Proof.
  induction quakes as [|quake rest IH]; intros w k d Hk; [exact Hk|].
  rewrite withFinancialImpact_after_cons.
  apply IH, generateFinancialImpactData_keeps, Hk.
Qed.

Lemma perform_keeps (op : Operation) (w : World) (k : string)
    (d : FinancialImpactData.t) :
  financialImpactCache w !! k = Some d ->
  financialImpactCache (after (perform H op) w) !! k = Some d.
Proof.
  intros Hk.
  destruct op; unfold perform, after, bind; cbn [snd ret].
  - pose proof (processNewEarthquakes_oracle H batch w) as E.
    unfold oracle_of, after in E. injection E as E1 _. rewrite E1. exact Hk.
  - pose proof (verifyEarthquakeData_oracle H earthquakeId w) as E.
    unfold oracle_of, after in E. injection E as E1 _. rewrite E1. exact Hk.
  - exact Hk.
  - apply generateFinancialImpactData_keeps, Hk.
  - destruct (getFinancialImpactForEarthquake_cases H earthquakeId w)
      as [E|(e & _ & _ & E & _)]; unfold after in E; rewrite E;
      [exact Hk | apply generateFinancialImpactData_keeps, Hk].
  - rewrite getEarthquakesWithFinancialImpact_run.
    apply withFinancialImpact_keeps. exact Hk.
  - exact Hk.
  - destruct (verifyApiKey_frame H header w) as [_ E]. unfold after in E.
    rewrite E. exact Hk.
Qed.

Lemma perform_all_keeps (ops : list Operation) :
  forall (w : World) (k : string) (d : FinancialImpactData.t),
    financialImpactCache w !! k = Some d ->
    financialImpactCache (after (perform_all H ops) w) !! k = Some d.
Proof.
  induction ops as [|op rest IH]; intros w k d Hk; [exact Hk|].
  change (after (perform_all H (op :: rest)) w)
    with (after (perform_all H rest) (after (perform H op) w)).
  apply IH, perform_keeps, Hk.
Qed.

(** X8.  An assessment is permanent.  Once an event has been scored, whatever
    operations the server performs afterwards (ingestion, verification,
    queries, other scorings, key issuing, requests), scoring any event of
    that identity again, or looking the identity up, hands back the
    assessment given the first time. *)
Theorem assessment_is_permanent (e e' : Earthquake.t) (ops : list Operation)
    (w : World) :
  Earthquake.id e' = Earthquake.id e ->
  let first := result (generateFinancialImpactData H e) w in
  let later := after (perform_all H ops) (after (generateFinancialImpactData H e) w) in
  result (generateFinancialImpactData H e') later = first
  /\ result (getFinancialImpactForEarthquake H (Earthquake.id e)) later = Some first
  /\ after (generateFinancialImpactData H e') later = later.
Proof.
  intros Hid. cbv zeta.
  pose proof (perform_all_keeps ops _ _ _ (generateFinancialImpactData_stores H e w))
    as Hk.
  split; [|split].
  - unfold result at 1.
    rewrite (generateFinancialImpactData_cached H e' _ _
               ltac:(rewrite Hid; exact Hk)).
    reflexivity.
  - unfold result at 1.
    rewrite (getFinancialImpactForEarthquake_hit H _ _ _ Hk). reflexivity.
  - unfold after at 1.
    rewrite (generateFinancialImpactData_cached H e' _ _
               ltac:(rewrite Hid; exact Hk)).
    reflexivity.
Qed.

Lemma generateFinancialImpactData_names (e : Earthquake.t) (w : World) :
  cache_keys_agree w ->
  FinancialImpactData.earthquakeId (result (generateFinancialImpactData H e) w)
  = Earthquake.id e.
Proof.
  intros Hagree.
  destruct (financialImpactCache w !! Earthquake.id e) as [d|] eqn:Hc.
  - unfold result. rewrite (generateFinancialImpactData_cached H e w d Hc).
    apply (Hagree _ _ Hc).
  - apply (generateFinancialImpactData_fresh_members H e w Hc).
Qed.

Lemma generateFinancialImpactData_agree (e : Earthquake.t) (w : World) :
  cache_keys_agree w ->
  cache_keys_agree (after (generateFinancialImpactData H e) w).
Proof.
  intros Hagree.
  destruct (financialImpactCache w !! Earthquake.id e) as [d|] eqn:Hc.
  - unfold after. rewrite (generateFinancialImpactData_cached H e w d Hc).
    exact Hagree.
  - destruct (generateFinancialImpactData_fresh_after H e w Hc) as (E & _).
    intros k d Hk. rewrite E in Hk.
    destruct (decide (Earthquake.id e = k)) as [<-|Hne].
    + rewrite lookup_insert_eq in Hk. injection Hk as <-.
      apply generateFinancialImpactData_names, Hagree.
    + rewrite lookup_insert_ne in Hk by exact Hne. apply (Hagree _ _ Hk).
Qed.

Lemma withFinancialImpact_agree (quakes : list Earthquake.t) :
  forall w, cache_keys_agree w ->
    cache_keys_agree (after (withFinancialImpact H quakes) w)
    /\ Forall (fun pair => FinancialImpactData.earthquakeId (snd pair)
                           = Earthquake.id (fst pair))
         (result (withFinancialImpact H quakes) w).
Proof.
  induction quakes as [|quake rest IH]; intros w Hagree.
  - split; [exact Hagree | apply List.Forall_nil].
  - rewrite withFinancialImpact_after_cons, withFinancialImpact_result_cons.
    destruct (IH _ (generateFinancialImpactData_agree quake w Hagree)) as [IH1 IH2].
    split; [exact IH1|].
    apply List.Forall_cons; [|exact IH2].
    apply generateFinancialImpactData_names, Hagree.
Qed.

Lemma perform_agree (op : Operation) (w : World) :
  cache_keys_agree w -> cache_keys_agree (after (perform H op) w).
Proof.
  intros Hagree.
  destruct op; unfold perform, after, bind; cbn [snd ret].
  - pose proof (processNewEarthquakes_oracle H batch w) as E.
    unfold oracle_of, after in E. injection E as E1 _.
    unfold cache_keys_agree. rewrite E1. exact Hagree.
  - pose proof (verifyEarthquakeData_oracle H earthquakeId w) as E.
    unfold oracle_of, after in E. injection E as E1 _.
    unfold cache_keys_agree. rewrite E1. exact Hagree.
  - exact Hagree.
  - apply generateFinancialImpactData_agree, Hagree.
  - destruct (getFinancialImpactForEarthquake_cases H earthquakeId w)
      as [E|(e & _ & _ & E & _)]; unfold after in E; rewrite E;
      [exact Hagree | apply generateFinancialImpactData_agree, Hagree].
  - rewrite getEarthquakesWithFinancialImpact_run.
    apply withFinancialImpact_agree. exact Hagree.
  - exact Hagree.
  - destruct (verifyApiKey_frame H header w) as [_ E]. unfold after in E.
    unfold cache_keys_agree. rewrite E. exact Hagree.
Qed.

Lemma perform_all_agree (ops : list Operation) :
  forall w, cache_keys_agree w -> cache_keys_agree (after (perform_all H ops) w).
Proof.
  induction ops as [|op rest IH]; intros w Hagree; [exact Hagree|].
  change (after (perform_all H (op :: rest)) w)
    with (after (perform_all H rest) (after (perform H op) w)).
  apply IH, perform_agree, Hagree.
Qed.

(** X9.  Assessments are filed under the event they name.  From a world
    whose cache files every assessment under the identity it names (the
    empty cache of a starting process does), every sequence of operations
    leads to such a world again; there scoring an event hands back an
    assessment that names it, and every pair of a bulk result joins an event
    with an assessment that names it. *)
Theorem assessments_name_their_event (ops : list Operation) (w : World)
    (e : Earthquake.t) (startTime endTime : Z) :
  cache_keys_agree w ->
  let w' := after (perform_all H ops) w in
  cache_keys_agree w'
  /\ FinancialImpactData.earthquakeId (result (generateFinancialImpactData H e) w')
     = Earthquake.id e
  /\ Forall (fun pair => FinancialImpactData.earthquakeId (snd pair)
                         = Earthquake.id (fst pair))
       (result (getEarthquakesWithFinancialImpact H startTime endTime) w').
Proof.
  intros Hagree. cbv zeta.
  pose proof (perform_all_agree ops w Hagree) as Hagree'.
  split; [exact Hagree'|].
  split; [apply generateFinancialImpactData_names, Hagree'|].
  unfold result. rewrite getEarthquakesWithFinancialImpact_run.
    apply withFinancialImpact_agree.
    intros k d Hk. apply (Hagree' k d). exact Hk.
Qed.

End CacheOverTime.

(* ===================================================================== *)
(** * Keys, budgets and the middleware                                      *)
(* ===================================================================== *)

Section KeysAndBudgets.

Context (H : Host).

Lemma createApiKey_run (subscriber organizationName contactEmail : string)
    (durationDays requestLimit : Z) (w : World) :
  let apiKey :=
    ("qs_"
     ++ String.substring 2 13
          (Number_toString_radix H 36 (random_source H (random_draws w)))
     ++ String.substring 2 13
          (Number_toString_radix H 36 (random_source H (S (random_draws w)))))%string in
  let subscription :=
    OracleSubscription.mk (Z.of_nat (size (apiKeys w)) + 1) apiKey subscriber
      organizationName contactEmail (wall_clock H (clock_reads w))
      (Date_addDays H (wall_clock H (S (clock_reads w))) durationDays)
      true requestLimit None in
  createApiKey H subscriber organizationName contactEmail durationDays requestLimit w
  = ((apiKey, subscription),
     set_apiKeys (<[apiKey := subscription]> (apiKeys w))
       (set_clock_reads (S (S (clock_reads w)))
          (set_random_draws (S (S (random_draws w))) w))).
Proof. reflexivity. Qed.

(** X10.  A key just issued.  [createApiKey] files the subscription under a
    key that starts with "qs_", leaves every other key as it was, and gives
    the subscription the whole request limit.  Validating the key next
    accepts it, with the limit as remaining budget and the end date as
    expiry, when the limit is positive and the clock has not passed the end
    date; a key issued with a limit of zero or less is refused from the
    start. *)
Theorem issued_key_round_trip (subscriber organizationName contactEmail : string)
    (durationDays requestLimit : Z) (w : World) :
  let issued :=
    createApiKey H subscriber organizationName contactEmail durationDays
      requestLimit w in
  let apiKey := fst (fst issued) in
  let subscription := snd (fst issued) in
  let w' := snd issued in
  (exists tail, apiKey = ("qs_" ++ tail)%string)
  /\ apiKeys w' !! apiKey = Some subscription
  /\ (forall k, k <> apiKey -> apiKeys w' !! k = apiKeys w !! k)
  /\ OracleSubscription.remainingRequests subscription = requestLimit
  /\ OracleSubscription.active subscription = true
  /\ ((0 < requestLimit)%Z ->
      (wall_clock H (clock_reads w') <= OracleSubscription.endDate subscription)%Z ->
      result (validateApiKey H apiKey) w'
      = ApiKeyValidation.valid subscriber (OracleSubscription.id subscription)
          organizationName requestLimit (OracleSubscription.endDate subscription))
  /\ ((requestLimit <= 0)%Z ->
      result (validateApiKey H apiKey) w' = ApiKeyValidation.invalid).
Proof.
  cbv zeta. rewrite createApiKey_run. cbn [fst snd].
  set (apiKey := ("qs_" ++ _)%string).
  set (subscription := OracleSubscription.mk _ _ _ _ _ _ _ _ _ _).
  set (w' := set_apiKeys _ _).
  assert (Hk : apiKeys w' !! apiKey = Some subscription)
    by (subst w'; cbn [apiKeys set_apiKeys]; apply lookup_insert_eq).
  split; [eexists; reflexivity|].
  split; [exact Hk|].
  split.
  { intros k Hne. subst w'. cbn [apiKeys set_apiKeys set_clock_reads set_random_draws].
    apply lookup_insert_ne. congruence. }
  split; [reflexivity|]. split; [reflexivity|].
  split.
  - intros Hpos Hclock. unfold result. rewrite validateApiKey_run, Hk.
    cbn [fst]. subst subscription.
    cbn [OracleSubscription.active OracleSubscription.endDate
         OracleSubscription.remainingRequests OracleSubscription.subscriber
         OracleSubscription.id OracleSubscription.organizationName] in *.
    rewrite (proj2 (Z.leb_le _ _) Hclock), (proj2 (Z.ltb_lt _ _) Hpos).
    reflexivity.
  - intros Hle. unfold result. rewrite validateApiKey_run, Hk.
    cbn [fst]. subst subscription.
    cbn [OracleSubscription.active OracleSubscription.endDate
         OracleSubscription.remainingRequests].
    rewrite (proj2 (Z.ltb_ge _ _) Hle), andb_false_r. reflexivity.
Qed.

Lemma record_times_S (n : nat) (k : string) (w : World) :
  record_times H (S n) k w
  = (result (recordApiRequest H k) w
       :: result (record_times H n k) (after (recordApiRequest H k) w),
     after (record_times H n k) (after (recordApiRequest H k) w)).
Proof. reflexivity. Qed.

Lemma record_times_known (n : nat) (k : string) :
  forall (w : World) (s : OracleSubscription.t),
    apiKeys w !! k = Some s ->
    result (record_times H n k) w
    = map (fun i => Returned (OracleSubscription.remainingRequests s - Z.of_nat i - 1)%Z)
          (seq 0 n)
    /\ exists s',
         apiKeys (after (record_times H n k) w) !! k = Some s'
         /\ OracleSubscription.remainingRequests s'
            = (OracleSubscription.remainingRequests s - Z.of_nat n)%Z
         /\ OracleSubscription.active s' = OracleSubscription.active s
         /\ OracleSubscription.endDate s' = OracleSubscription.endDate s.
Proof.
  induction n as [|n IH]; intros w s Hs.
  - split; [reflexivity|]. exists s. split; [exact Hs|].
    split; [cbn; lia|]. split; reflexivity.
  - unfold result, after. rewrite record_times_S. cbn [fst snd].
    unfold result at 1, after. rewrite recordApiRequest_run, Hs. cbn [fst snd].
    set (w1 := set_apiKeys _ _).
    assert (Hs1 : apiKeys w1 !! k = Some (charged s (wall_clock H (clock_reads w))))
      by (subst w1; cbn [apiKeys set_apiKeys]; apply lookup_insert_eq).
    destruct (IH w1 _ Hs1) as [Hres (s' & Hs' & Hb & Ha & He)].
    split.
    + rewrite Hres. cbn [seq map]. f_equal; [f_equal; cbn; lia|].
      rewrite <- seq_shift, map_map. apply map_ext. intros i.
      cbn [charged OracleSubscription.remainingRequests]. f_equal. lia.
    + exists s'. split; [exact Hs'|].
      cbn [charged OracleSubscription.remainingRequests OracleSubscription.active
           OracleSubscription.endDate] in Hb, Ha, He.
      split; [lia|]. split; assumption.
Qed.

Lemma record_times_unknown (n : nat) (k : string) (w : World) :
  apiKeys w !! k = None ->
  record_times H n k w = (repeat (Thrown "Invalid API key") n, w).
Proof.
  intros Hk. induction n as [|n IH]; [reflexivity|].
  rewrite record_times_S. unfold result, after.
  rewrite recordApiRequest_run, Hk. cbn [fst snd]. rewrite IH. reflexivity.
Qed.

(** X11.  [recordApiRequest] charges without checking.  Called [n] times on a
    key of the table, whatever the state of its subscription (inactive,
    ended, budget used up), it returns the budgets [b - 1], ..., [b - n] and
    leaves the budget at [b - n], below zero once [n] exceeds [b]; it
    changes neither [active] nor the end date.  On a key that is not in the
    table every call throws 'Invalid API key' and the world stays as it
    is. *)
Theorem recordApiRequest_charges_without_checking (n : nat) (k : string) (w : World) :
  (forall s, apiKeys w !! k = Some s ->
     result (record_times H n k) w
     = map (fun i => Returned (OracleSubscription.remainingRequests s - Z.of_nat i - 1)%Z)
           (seq 0 n)
     /\ exists s',
          apiKeys (after (record_times H n k) w) !! k = Some s'
          /\ OracleSubscription.remainingRequests s'
             = (OracleSubscription.remainingRequests s - Z.of_nat n)%Z
          /\ OracleSubscription.active s' = OracleSubscription.active s
          /\ OracleSubscription.endDate s' = OracleSubscription.endDate s)
  /\ (apiKeys w !! k = None ->
      record_times H n k w = (repeat (Thrown "Invalid API key") n, w)).
Proof.
  split; [intros s Hs; apply record_times_known, Hs | apply record_times_unknown].
Qed.

(** X12.  What the middleware answers.  A refusal always has status 401 and
    leaves the key table as it is (the answer of status 400 is never
    given); a request that is let through presented a key of the table whose
    subscription was acceptable, reports its budget less one, and rewrites
    the entry of that key only, where nothing but the budget and the date of
    the last request change. *)
Theorem middleware_answers (header : option string) (w : World) :
  match result (verifyApiKey H header) w with
  | Respond status _ _ =>
      status = 401%Z /\ apiKeys (after (verifyApiKey H header) w) = apiKeys w
  | Next validation remainingRequests =>
      exists k s,
        header = Some k
        /\ apiKeys w !! k = Some s
        /\ OracleSubscription.active s = true
        /\ (0 < OracleSubscription.remainingRequests s)%Z
        /\ remainingRequests = (OracleSubscription.remainingRequests s - 1)%Z
        /\ ApiKeyValidation.is_valid validation = true
        /\ apiKeys (after (verifyApiKey H header) w)
           = <[k := charged s (wall_clock H (S (clock_reads w)))]> (apiKeys w)
  end.
Proof.
  destruct header as [[|c k]|]; [split; reflexivity| |split; reflexivity].
  assert (Hne : String c k <> EmptyString) by discriminate.
  destruct (apiKeys w !! String c k) as [s|] eqn:Hs.
  - destruct (OracleSubscription.active s) eqn:Ha.
    + destruct (Z.le_gt_cases (wall_clock H (clock_reads w))
                  (OracleSubscription.endDate s)) as [Hc|Hc].
      * destruct (Z.lt_ge_cases 0 (OracleSubscription.remainingRequests s))
          as [Hb|Hb].
        -- unfold result, after.
           rewrite (verifyApiKey_admits H _ s w Hne Hs Ha Hc Hb). cbn [fst snd].
           exists (String c k), s. repeat split; assumption || reflexivity.
        -- unfold result, after.
           rewrite (verifyApiKey_refuses H _ s w Hne Hs); [split; reflexivity|].
           right. right. exact Hb.
      * unfold result, after.
        rewrite (verifyApiKey_refuses H _ s w Hne Hs); [split; reflexivity|].
        right. left. exact Hc.
    + unfold result, after.
      rewrite (verifyApiKey_refuses H _ s w Hne Hs); [split; reflexivity|].
      left. exact Ha.
  - unfold result, after. rewrite (verifyApiKey_unknown H _ w Hne Hs).
    split; reflexivity.
Qed.

Lemma requests_cons (header : option string) (rest : list (option string))
    (w : World) :
  requests H (header :: rest) w
  = (result (verifyApiKey H header) w
       :: result (requests H rest) (after (verifyApiKey H header) w),
     after (requests H rest) (after (verifyApiKey H header) w)).
Proof. reflexivity. Qed.

Lemma requests_exhausted (m : nat) (k : string) (s : OracleSubscription.t) :
  forall w,
    k <> EmptyString -> apiKeys w !! k = Some s ->
    (OracleSubscription.remainingRequests s <= 0)%Z ->
    result (requests H (repeat (Some k) m)) w
    = repeat (Respond 401 "Invalid API key" "INVALID_API_KEY") m.
Proof.
  induction m as [|m IH]; intros w Hne Hs Hb; [reflexivity|].
  cbn [repeat]. unfold result. rewrite requests_cons. cbn [fst].
  unfold result at 1, after.
  rewrite (verifyApiKey_refuses H k s w Hne Hs) by (right; right; exact Hb).
  cbn [fst snd]. f_equal. apply IH; assumption.
Qed.

(** X13.  A budget of [n] admits exactly [n] requests.  For a key of an active
    subscription with budget [n] that does not end before the [n] requests
    are validated: of [n + m] requests in a row with that key, the first [n]
    are let through and report the budgets [n - 1], ..., 1, 0, each with the
    budget before it in its validation, and the [m] that follow are all
    refused with status 401 and code INVALID_API_KEY. *)
Theorem budget_admits_exactly_n (n : nat) (m : nat) (k : string) :
  forall (w : World) (s : OracleSubscription.t),
    k <> EmptyString -> apiKeys w !! k = Some s ->
    OracleSubscription.active s = true ->
    OracleSubscription.remainingRequests s = Z.of_nat n ->
    (forall i, (i < n)%nat ->
       (wall_clock H (clock_reads w + 2 * i) <= OracleSubscription.endDate s)%Z) ->
    result (requests H (repeat (Some k) (n + m))) w
    = map (fun b => Next (ApiKeyValidation.valid
                            (OracleSubscription.subscriber s) (OracleSubscription.id s)
                            (OracleSubscription.organizationName s)
                            (b + 1)%Z (OracleSubscription.endDate s)) b)
          (countdown n)
      ++ repeat (Respond 401 "Invalid API key" "INVALID_API_KEY") m.
Proof.
  induction n as [|n IH]; intros w s Hne Hs Ha Hb Hclock.
  - apply (requests_exhausted m k s w Hne Hs). rewrite Hb. cbn. lia.
  - cbn [Nat.add repeat countdown map app]. unfold result.
    rewrite requests_cons. cbn [fst]. unfold result at 1, after.
    assert (Hc0 : (wall_clock H (clock_reads w) <= OracleSubscription.endDate s)%Z).
    { specialize (Hclock O ltac:(lia)). rewrite Nat.mul_0_r, Nat.add_0_r in Hclock.
      exact Hclock. }
    rewrite (verifyApiKey_admits H k s w Hne Hs Ha Hc0) by lia.
    cbn [fst snd]. f_equal.
    { rewrite Hb. f_equal; [f_equal|]; lia. }
    set (w1 := set_apiKeys _ _).
    set (s1 := charged s (wall_clock H (S (clock_reads w)))).
    assert (Hs1 : apiKeys w1 !! k = Some s1)
      by (subst w1; cbn [apiKeys set_apiKeys]; apply lookup_insert_eq).
    rewrite (IH w1 s1 Hne Hs1).
    + reflexivity.
    + exact Ha.
    + subst s1. cbn [charged OracleSubscription.remainingRequests]. lia.
    + intros i Hi. subst s1 w1.
      cbn [charged OracleSubscription.endDate clock_reads set_apiKeys set_clock_reads].
      specialize (Hclock (S i) ltac:(lia)).
      replace (S (S (clock_reads w)) + 2 * i)%nat
        with (clock_reads w + 2 * S i)%nat by lia.
      exact Hclock.
Qed.

End KeysAndBudgets.

(* ===================================================================== *)
(** * The store over the life of the process                                *)
(* ===================================================================== *)

Section StoreOverTime.

Context (H : Host).

Lemma JSMap_set_In {V : Type} (k0 : string) (v : V) (m : list (string * V))
    (k : string) (x : V) :
  In (k, x) (JSMap.set k0 v m) -> (k = k0 /\ x = v) \/ In (k, x) m.
Proof.
  induction m as [|[k' v'] m IH]; cbn [JSMap.set In].
  - intros [E|[]]. injection E as <- <-. left. split; reflexivity.
  - destruct (String.eqb k' k0); cbn [In].
    + intros [E|Hin]; [injection E as <- <-; left; split; reflexivity|].
      right. right. exact Hin.
    + intros [E|Hin]; [right; left; exact E|].
      destruct (IH Hin) as [Heq|Hin']; [left; exact Heq | right; right; exact Hin'].
Qed.

Lemma JSMap_set_keys {V : Type} (k0 : string) (v : V) (m : list (string * V))
    (k : string) :
  In k (map fst (JSMap.set k0 v m)) <-> k = k0 \/ In k (map fst m).
Proof.
  induction m as [|[k' v'] m IH]; cbn [JSMap.set map fst In].
  - intuition congruence.
  - destruct (String.eqb k' k0) eqn:E; cbn [map fst In].
    + apply String.eqb_eq in E. subst k'. intuition congruence.
    + rewrite IH. intuition congruence.
Qed.

Lemma JSMap_set_length {V : Type} (k0 : string) (v : V) (m : list (string * V)) :
  (length m <= length (JSMap.set k0 v m))%nat.
Proof.
  induction m as [|[k' v'] m IH]; cbn [JSMap.set length]; [lia|].
  destruct (String.eqb k' k0); cbn [length]; lia.
Qed.

Lemma JSMap_get_In {V : Type} (k : string) (v : V) (m : list (string * V)) :
  JSMap.get k m = Some v -> In (k, v) m.
Proof.
  induction m as [|[k' v'] m IH]; cbn [JSMap.get In]; [discriminate|].
  destruct (String.eqb k' k) eqn:E.
  - apply String.eqb_eq in E. subst k'. intros [= ->]. left. reflexivity.
  - intros Hg. right. apply IH, Hg.
Qed.

Lemma Inv_store_of (w0 w w' : World) :
  store_of w' = store_of w -> store_invariant w0 w -> store_invariant w0 w'.
Proof.
  unfold store_of. intros [= E1 E2 E3].
  unfold store_invariant, store_well_formed, store_ids_agree, alert_ids_below_counter,
    alerts_refer_to_stored, store_grows.
  rewrite E1, E2, E3. tauto.
Qed.

Lemma Inv_createEarthquake (w0 w : World) (quakeData : InsertEarthquake.t) :
  store_invariant w0 w ->
  store_invariant w0 (after (createEarthquake H quakeData) w)
  /\ In (Earthquake.id (result (createEarthquake H quakeData) w))
        (map fst (earthquakes (after (createEarthquake H quakeData) w))).
Proof.
  intros [(Hids & Hal & Href) (Gk & Gl & Ga & Gc)].
  unfold createEarthquake, after, result, bind, modify, ret, Date_now, Math_random.
  cbn [fst snd earthquakes alerts alertIdCounter set_earthquakes set_clock_reads
       set_random_draws clock_reads random_draws Earthquake.id].
  set (id := ("eq_" ++ _)%string).
  set (e := Earthquake.mk id _ _ _).
  split; [|apply JSMap_set_keys; left; reflexivity].
  split; [split; [|split]|split; [|split; [|split]]].
  - intros k x Hin. apply JSMap_set_In in Hin.
    destruct Hin as [[-> ->]|Hin]; [reflexivity | apply (Hids _ _ Hin)].
  - exact Hal.
  - intros k a i Ha Hi. apply JSMap_set_keys. right. apply (Href _ _ _ Ha Hi).
  - intros k Hin. apply JSMap_set_keys. right. apply Gk, Hin.
  - etransitivity; [exact Gl | apply JSMap_set_length].
  - exact Ga.
  - exact Gc.
Qed.

Lemma Inv_createAlert (w0 w : World) (insertAlert : InsertAlert.t) :
  store_invariant w0 w ->
  (forall id, InsertAlert.earthquakeId insertAlert = Some id ->
              In id (map fst (earthquakes w))) ->
  store_invariant w0 (after (createAlert insertAlert) w).
Proof.
  intros [(Hids & Hal & Href) (Gk & Gl & Ga & Gc)] Hnew.
  unfold createAlert, after, bind, gets, modify, ret.
  unfold store_invariant, store_well_formed, store_ids_agree, alert_ids_below_counter,
    alerts_refer_to_stored, store_grows.
  cbn [fst snd earthquakes alerts alertIdCounter set_alerts set_alertIdCounter].
  split; [split; [|split]|split; [|split; [|split]]].
  - exact Hids.
  - intros k a Hk. destruct (decide (alertIdCounter w = k)) as [<-|Hne].
    + rewrite lookup_insert_eq in Hk. injection Hk as <-. cbn. split; [reflexivity|lia].
    + rewrite lookup_insert_ne in Hk by exact Hne.
      destruct (Hal _ _ Hk) as [E Hlt]. split; [exact E | lia].
  - intros k a i Hk Hi. destruct (decide (alertIdCounter w = k)) as [<-|Hne].
    + rewrite lookup_insert_eq in Hk. injection Hk as <-. cbn in Hi.
      apply Hnew, Hi.
    + rewrite lookup_insert_ne in Hk by exact Hne. apply (Href _ _ _ Hk Hi).
  - exact Gk.
  - exact Gl.
  - intros k a Hk. specialize (Ga _ _ Hk). destruct (Hal _ _ Ga) as [_ Hlt].
    rewrite lookup_insert_ne by lia. exact Ga.
  - lia.
Qed.

Lemma verifyEarthquakeData_run (earthquakeId : string) (w : World) :
  verifyEarthquakeData H earthquakeId w
  = match JSMap.get earthquakeId (earthquakes w) with
    | None => (false, w)
    | Some e =>
        (true,
         set_random_draws (S (random_draws w))
           (set_earthquakes
              (JSMap.set earthquakeId
                 (Earthquake.mk (Earthquake.id e) (Earthquake.createdAt e)
                    (Earthquake.data e) (Some true))
                 (earthquakes w)) w))
    end.
Proof.
  unfold verifyEarthquakeData, getEarthquake, updateEarthquake, bind, gets, modify,
    ret, Math_random.
  cbn [fst snd]. destruct (JSMap.get earthquakeId (earthquakes w)) as [e|] eqn:E;
    cbn [fst snd]; [|reflexivity].
  rewrite E. reflexivity.
Qed.

Lemma Inv_verifyEarthquakeData (w0 w : World) (earthquakeId : string) :
  store_invariant w0 w -> store_invariant w0 (after (verifyEarthquakeData H earthquakeId) w).
Proof.
  intros HI. unfold after. rewrite verifyEarthquakeData_run.
  destruct (JSMap.get earthquakeId (earthquakes w)) as [e|] eqn:E; [|exact HI].
  destruct HI as [(Hids & Hal & Href) (Gk & Gl & Ga & Gc)].
  cbn [snd]. unfold store_invariant, store_well_formed, store_ids_agree, alert_ids_below_counter,
    alerts_refer_to_stored, store_grows.
  cbn [earthquakes alerts alertIdCounter set_earthquakes set_random_draws].
  split; [split; [|split]|split; [|split; [|split]]].
  - intros k x Hin. apply JSMap_set_In in Hin.
    destruct Hin as [[-> ->]|Hin]; [|apply (Hids _ _ Hin)].
    cbn. apply (Hids _ _ (JSMap_get_In _ _ _ E)).
  - exact Hal.
  - intros k a i Ha Hi. apply JSMap_set_keys. right. apply (Href _ _ _ Ha Hi).
  - intros k Hin. apply JSMap_set_keys. right. apply Gk, Hin.
  - etransitivity; [exact Gl | apply JSMap_set_length].
  - exact Ga.
  - exact Gc.
Qed.

(** The world a turn of the ingestion loop leaves, step by step. *)
Lemma processCandidate_after (quakeData : InsertEarthquake.t) (w : World) :
  let w1 := set_clock_reads (S (clock_reads w)) w in
  let e := result (createEarthquake H quakeData) w1 in
  let w2 := after (createEarthquake H quakeData) w1 in
  let w3 :=
    if JS.geb (InsertEarthquake.magnitude quakeData) 4.0
    then after (createAlert (alertData_for quakeData e (wall_clock H (clock_reads w2))))
               (set_clock_reads (S (clock_reads w2)) w2)
    else w2 in
  let w4 :=
    if JS.geb (InsertEarthquake.magnitude quakeData) 5.0
    then after (verifyEarthquakeData H (Earthquake.id e)) w3
    else w3 in
  processCandidate H quakeData w
  = if JS.some (same_occurrence quakeData)
         (result (getEarthquakes H (EarthquakeFilters.mk "24h" "all" "global")) w)
    then (None, w1)
    else (Some e, w4).
Proof.
  cbv zeta. unfold processCandidate, bind at 1. 
  change (snd (getEarthquakes H (EarthquakeFilters.mk "24h" "all" "global") w))
    with (set_clock_reads (S (clock_reads w)) w).
  change (fst (getEarthquakes H (EarthquakeFilters.mk "24h" "all" "global") w))
    with (result (getEarthquakes H (EarthquakeFilters.mk "24h" "all" "global")) w).
  destruct (JS.some _ _); cbn [negb]; [reflexivity|].
  unfold bind, after, result, ret, Date_now.
  destruct (JS.geb (InsertEarthquake.magnitude quakeData) 4.0);
    destruct (JS.geb (InsertEarthquake.magnitude quakeData) 5.0);
    reflexivity.
Qed.

Lemma Inv_processCandidate (w0 w : World) (quakeData : InsertEarthquake.t) :
  store_invariant w0 w -> store_invariant w0 (after (processCandidate H quakeData) w).
Proof.
  intros HI. unfold after at 1. rewrite processCandidate_after.
  assert (HI1 : store_invariant w0 (set_clock_reads (S (clock_reads w)) w))
    by (apply (Inv_store_of w0 w); [reflexivity | exact HI]).
  destruct (JS.some _ _); cbn [snd]; [exact HI1|].
  destruct (Inv_createEarthquake w0 _ quakeData HI1) as [HI2 Hkey].
  set (e := result (createEarthquake H quakeData) _) in *.
  set (w2 := after (createEarthquake H quakeData) _) in *.
  assert (HI3 : store_invariant w0
                  (if JS.geb (InsertEarthquake.magnitude quakeData) 4.0
                   then after (createAlert
                                 (alertData_for quakeData e (wall_clock H (clock_reads w2))))
                              (set_clock_reads (S (clock_reads w2)) w2)
                   else w2)).
  { destruct (JS.geb _ 4.0); [|exact HI2].
    apply Inv_createAlert.
    - apply (Inv_store_of w0 w2); [reflexivity | exact HI2].
    - intros id [= <-]. exact Hkey. }
  destruct (JS.geb _ 5.0); [|exact HI3].
  apply Inv_verifyEarthquakeData, HI3.
Qed.

Lemma Inv_processNewEarthquakes (w0 : World) (batch : list InsertEarthquake.t) :
  forall w, store_invariant w0 w -> store_invariant w0 (after (processNewEarthquakes H batch) w).
Proof.
  induction batch as [|quakeData rest IH]; intros w HI; [exact HI|].
  rewrite processNewEarthquakes_after_cons. apply IH, Inv_processCandidate, HI.
Qed.

Lemma perform_after (op : Operation) (w : World) :
  after (perform H op) w
  = match op with
    | Ingest batch => after (processNewEarthquakes H batch) w
    | VerifyOnChain earthquakeId => after (verifyEarthquakeData H earthquakeId) w
    | ListEarthquakes filters => after (getEarthquakes H filters) w
    | Score earthquake => after (generateFinancialImpactData H earthquake) w
    | ScoreById earthquakeId => after (getFinancialImpactForEarthquake H earthquakeId) w
    | BulkScore startTime endTime =>
        after (getEarthquakesWithFinancialImpact H startTime endTime) w
    | IssueKey subscriber organizationName contactEmail durationDays requestLimit =>
        after (createApiKey H subscriber organizationName contactEmail durationDays
                 requestLimit) w
    | Request header => after (verifyApiKey H header) w
    end.
Proof. destruct op; reflexivity. Qed.

Lemma Inv_perform (w0 w : World) (op : Operation) :
  store_invariant w0 w -> store_invariant w0 (after (perform H op) w).
Proof.
  intros HI. rewrite perform_after. destruct op.
  - apply Inv_processNewEarthquakes, HI.
  - apply Inv_verifyEarthquakeData, HI.
  - apply (Inv_store_of w0 w); [reflexivity | exact HI].
  - apply (Inv_store_of w0 w); [apply generateFinancialImpactData_frame | exact HI].
  - apply (Inv_store_of w0 w); [apply getFinancialImpactForEarthquake_frame | exact HI].
  - apply (Inv_store_of w0 w); [apply getEarthquakesWithFinancialImpact_frame | exact HI].
  - apply (Inv_store_of w0 w); [reflexivity | exact HI].
  - apply (Inv_store_of w0 w); [apply verifyApiKey_frame | exact HI].
Qed.

Lemma Inv_perform_all (w0 : World) (ops : list Operation) :
  forall w, store_invariant w0 w -> store_invariant w0 (after (perform_all H ops) w).
Proof.
  induction ops as [|op rest IH]; intros w HI; [exact HI|].
  change (after (perform_all H (op :: rest)) w)
    with (after (perform_all H rest) (after (perform H op) w)).
  apply IH, Inv_perform, HI.
Qed.

Lemma store_grows_refl (w : World) : store_grows w w.
Proof. unfold store_grows. repeat split; auto; lia. Qed.

Lemma initial_world_well_formed : store_well_formed (initial_world H).
Proof.
  unfold initial_world, initializeSampleData, after, bind, Date_now.
  cbn [fst snd clock_reads set_clock_reads empty_world setSampleEarthquakes
       sampleEarthquakes createSampleAlerts sampleAlerts].
  unfold store_well_formed, store_ids_agree, alert_ids_below_counter,
    alerts_refer_to_stored.
  cbn.
  split; [|split].
  - intros k e Hin.
    repeat (destruct Hin as [Hin|Hin]; [injection Hin as <- <-; reflexivity|]).
    contradiction.
  - intros k a Hk.
    destruct (decide (k = 1%Z)) as [->|N1];
      [rewrite lookup_insert_ne, lookup_insert_eq in Hk by lia;
       injection Hk as <-; split; [reflexivity|lia]|].
    destruct (decide (k = 2%Z)) as [->|N2];
      [rewrite lookup_insert_eq in Hk; injection Hk as <-; split; [reflexivity|lia]|].
    rewrite lookup_insert_ne in Hk by lia. rewrite lookup_insert_ne in Hk by lia.
    rewrite lookup_empty in Hk. discriminate Hk.
  - intros k a i Hk Hi.
    destruct (decide (k = 1%Z)) as [->|N1];
      [rewrite lookup_insert_ne, lookup_insert_eq in Hk by lia;
       injection Hk as <-; injection Hi as <-; left; reflexivity|].
    destruct (decide (k = 2%Z)) as [->|N2];
      [rewrite lookup_insert_eq in Hk; injection Hk as <-; injection Hi as <-;
       right; left; reflexivity|].
    rewrite lookup_insert_ne in Hk by lia. rewrite lookup_insert_ne in Hk by lia.
    rewrite lookup_empty in Hk. discriminate Hk.
Qed.

(** X14.  The store of a running server is well formed.  In the world the
    constructor of [MemStorage] leaves, and in every world a sequence of
    operations leads to from there: every event is filed under its own
    identity, every alert under its own, below the counter that numbers the
    next one, and every alert that names an event names one the store
    holds. *)
Theorem running_store_is_well_formed (ops : list Operation) :
  store_well_formed (after (perform_all H ops) (initial_world H)).
Proof.
  apply (Inv_perform_all (initial_world H) ops (initial_world H)).
  split; [apply initial_world_well_formed | apply store_grows_refl].
Qed.

(** X15.  Nothing is ever taken out of the store.  From a well formed store,
    whatever operations follow: every key of a stored event is still a key,
    the store holds no fewer events, every alert is still there unchanged,
    and a new alert gets a number no earlier alert has. *)
Theorem nothing_leaves_the_store (ops : list Operation) (w : World) :
  store_well_formed w ->
  let w' := after (perform_all H ops) w in
  (forall k, In k (map fst (earthquakes w)) -> In k (map fst (earthquakes w')))
  /\ (length (earthquakes w) <= length (earthquakes w'))%nat
  /\ (forall k a, alerts w !! k = Some a -> alerts w' !! k = Some a)
  /\ (forall k, is_Some (alerts w !! k) -> (k < alertIdCounter w')%Z).
Proof.
  intros Hwf. cbv zeta.
  destruct (Inv_perform_all w ops w (conj Hwf (store_grows_refl w)))
    as [(_ & Hal & _) (Gk & Gl & Ga & Gc)].
  split; [exact Gk|]. split; [exact Gl|]. split; [exact Ga|].
  intros k [a Hk]. apply (Hal k a), Ga, Hk.
Qed.

End StoreOverTime.

(* ===================================================================== *)
(** * The queries on the store                                              *)
(* ===================================================================== *)

Section Queries.

Context (H : Host).

Lemma filter_filter_and {A : Type} (p q : A -> bool) (l : list A) :
  List.filter p (List.filter q l) = List.filter (fun x => q x && p x) l.
Proof.
  induction l as [|x l IH]; [reflexivity|].
  cbn [List.filter]. destruct (q x); cbn [List.filter andb]; rewrite IH; reflexivity.
Qed.

Lemma insert_by_time_perm (x : Earthquake.t) (l : list Earthquake.t) :
  Permutation (insert_by_time x l) (x :: l).
Proof.
  induction l as [|y l IH]; cbn [insert_by_time]; [reflexivity|].
  destruct (Earthquake.time y <=? Earthquake.time x)%Z; [reflexivity|].
  rewrite IH. apply perm_swap.
Qed.

Lemma sort_most_recent_first_perm (l : list Earthquake.t) :
  Permutation (sort_most_recent_first l) l.
Proof.
  induction l as [|x l IH]; [reflexivity|].
  unfold sort_most_recent_first in *. cbn [fold_right].
  rewrite insert_by_time_perm. apply perm_skip, IH.
Qed.

Lemma sort_most_recent_first_length (l : list Earthquake.t) :
  length (sort_most_recent_first l) = length l.
Proof. apply Permutation_length, sort_most_recent_first_perm. Qed.

Lemma insert_by_time_sorted (x : Earthquake.t) (l : list Earthquake.t) :
  most_recent_first l -> most_recent_first (insert_by_time x l).
Proof.
  unfold most_recent_first.
  induction l as [|y l IH]; intros Hs; cbn [insert_by_time].
  - apply SSorted_cons; [apply SSorted_nil | apply List.Forall_nil].
  - destruct (Earthquake.time y <=? Earthquake.time x)%Z eqn:E.
    + apply Z.leb_le in E. apply SSorted_cons; [exact Hs|].
      apply StronglySorted_inv in Hs. destruct Hs as [_ Hy].
      apply List.Forall_cons; [exact E|].
      apply (List.Forall_impl _ (P := fun b => (Earthquake.time b <= Earthquake.time y)%Z));
        [intros b Hb; lia | exact Hy].
    + apply Z.leb_gt in E. apply StronglySorted_inv in Hs. destruct Hs as [Hl Hy].
      apply SSorted_cons; [apply IH, Hl|].
      apply List.Forall_forall. intros b Hb.
      apply insert_by_time_In in Hb. destruct Hb as [->|Hb]; [lia|].
      apply (proj1 (List.Forall_forall _ _) Hy b Hb).
Qed.

Lemma sort_most_recent_first_sorted (l : list Earthquake.t) :
  most_recent_first (sort_most_recent_first l).
Proof.
  induction l as [|x l IH]; [apply SSorted_nil|].
  unfold sort_most_recent_first in *. cbn [fold_right].
  apply insert_by_time_sorted, IH.
Qed.

Lemma sort_most_recent_first_stable (l : list Earthquake.t) :
  most_recent_first l -> sort_most_recent_first l = l.
Proof.
  unfold most_recent_first, sort_most_recent_first.
  induction l as [|x l IH]; intros Hs; [reflexivity|].
  apply StronglySorted_inv in Hs. destruct Hs as [Hl Hx].
  cbn [fold_right]. rewrite (IH Hl).
  destruct l as [|y l]; [reflexivity|]. cbn [insert_by_time].
  apply List.Forall_inv in Hx. rewrite (proj2 (Z.leb_le _ _) Hx). reflexivity.
Qed.

(** X16.  What a listing is.  [getEarthquakes] hands back the stored events
    that pass the three filters, each as often as the store holds it, most
    recent first; where the selected events stand in that order in the store
    already, they are handed back in the order of the store.  The call
    reads the clock once and changes nothing else. *)
Theorem listing_is_the_sorted_selection (filters : EarthquakeFilters.t) (w : World) :
  let now := wall_clock H (clock_reads w) in
  let selected :=
    List.filter
      (fun quake =>
         (now - Earthquake.time quake
          <=? timeFilter_of (EarthquakeFilters.timeRange filters))%Z
         && magnitude_filter H (EarthquakeFilters.magnitude filters) quake
         && region_filter (EarthquakeFilters.region filters) quake)
      (JSMap.values (earthquakes w)) in
  let listed := result (getEarthquakes H filters) w in
  Permutation listed selected
  /\ most_recent_first listed
  /\ (most_recent_first selected -> listed = selected)
  /\ after (getEarthquakes H filters) w = set_clock_reads (S (clock_reads w)) w.
Proof.
  cbv zeta.
  assert (E : result (getEarthquakes H filters) w
              = sort_most_recent_first
                  (List.filter
                     (fun quake =>
                        (wall_clock H (clock_reads w) - Earthquake.time quake
                         <=? timeFilter_of (EarthquakeFilters.timeRange filters))%Z
                        && magnitude_filter H (EarthquakeFilters.magnitude filters) quake
                        && region_filter (EarthquakeFilters.region filters) quake)
                     (JSMap.values (earthquakes w)))).
  { unfold result, getEarthquakes, bind, gets, ret, Date_now. cbn [fst snd].
    rewrite !filter_filter_and. f_equal. apply List.filter_ext.
    intros quake. rewrite andb_assoc. reflexivity. }
  rewrite E.
  split; [apply sort_most_recent_first_perm|].
  split; [apply sort_most_recent_first_sorted|].
  split; [apply sort_most_recent_first_stable | reflexivity].
Qed.

Lemma timeFilter_of_default (timeRange : string) :
  timeRange <> "7d"%string -> timeRange <> "30d"%string -> timeRange <> "1y"%string ->
  timeFilter_of timeRange = (24 * 60 * 60 * 1000)%Z.
Proof.
  intros N1 N2 N3. unfold timeFilter_of.
  rewrite (proj2 (String.eqb_neq _ _) N1), (proj2 (String.eqb_neq _ _) N2),
    (proj2 (String.eqb_neq _ _) N3).
  reflexivity.
Qed.

(** X17.  What the filters do with a value they do not list.  A time range
    other than '7d', '30d' and '1y' selects the last 24 hours; a magnitude
    that is neither 'all' nor a number selects nothing; a region that is
    none of the seven listed selects as 'global' does. *)
Theorem listing_of_unlisted_filter_values (timeRange magnitude region : string)
    (w : World) :
  (timeRange <> "7d"%string -> timeRange <> "30d"%string -> timeRange <> "1y"%string ->
   getEarthquakes H (EarthquakeFilters.mk timeRange magnitude region) w
   = getEarthquakes H (EarthquakeFilters.mk "24h" magnitude region) w)
  /\ (magnitude <> "all"%string -> parseFloat H magnitude = None ->
      result (getEarthquakes H (EarthquakeFilters.mk timeRange magnitude region)) w = [])
  /\ (~ In region ["global"; "north_america"; "south_america"; "europe"; "asia";
                   "africa"; "australia"]%string ->
      getEarthquakes H (EarthquakeFilters.mk timeRange magnitude region) w
      = getEarthquakes H (EarthquakeFilters.mk timeRange magnitude "global") w).
Proof.
  split; [|split].
  - intros N1 N2 N3. unfold getEarthquakes.
    cbn [EarthquakeFilters.timeRange EarthquakeFilters.magnitude EarthquakeFilters.region].
    rewrite (timeFilter_of_default timeRange N1 N2 N3). reflexivity.
  - intros Nall Hnan. unfold result, getEarthquakes, bind, gets, ret, Date_now.
    cbn [fst snd EarthquakeFilters.timeRange EarthquakeFilters.magnitude
         EarthquakeFilters.region].
    assert (E : forall l, List.filter (magnitude_filter H magnitude) l = []).
    { intros l. induction l as [|x l IH]; [reflexivity|].
      cbn [List.filter]. unfold magnitude_filter at 1.
      rewrite (proj2 (String.eqb_neq _ _) Nall), Hnan. exact IH. }
    rewrite E. reflexivity.
  - intros Hnot. unfold getEarthquakes, bind, gets, ret, Date_now.
    cbn [fst snd EarthquakeFilters.timeRange EarthquakeFilters.magnitude
         EarthquakeFilters.region].
    assert (E : forall l, List.filter (region_filter region) l
                          = List.filter (region_filter "global") l).
    { intros l. apply List.filter_ext. intros quake. unfold region_filter.
      cbn [In] in Hnot.
      repeat match goal with
             | |- context [String.eqb region ?s] =>
                 let E := fresh "E" in
                 destruct (String.eqb region s) eqn:E;
                 [apply String.eqb_eq in E; exfalso; apply Hnot; subst region; tauto|]
             end.
      reflexivity. }
    rewrite E. reflexivity.
Qed.

Lemma StronglySorted_firstn {A : Type} (R : A -> A -> Prop) (n : nat) (l : list A) :
  StronglySorted R l -> StronglySorted R (firstn n l).
Proof.
  revert n. induction l as [|x l IH]; intros n Hs; [rewrite firstn_nil; exact Hs|].
  destruct n as [|n]; [apply SSorted_nil|].
  apply StronglySorted_inv in Hs. destruct Hs as [Hl Hx].
  cbn [firstn]. apply SSorted_cons; [apply IH, Hl|].
  apply List.Forall_forall. intros b Hb.
  apply (proj1 (List.Forall_forall _ _) Hx b).
  rewrite <- (firstn_skipn n l). apply in_or_app. left. exact Hb.
Qed.

Lemma StronglySorted_cut {A : Type} (R : A -> A -> Prop) (n : nat) (l : list A) :
  StronglySorted R l ->
  forall a b, In a (firstn n l) -> In b (skipn n l) -> R a b.
Proof.
  revert n. induction l as [|x l IH]; intros n Hs a b Ha Hb.
  - rewrite firstn_nil in Ha. contradiction.
  - destruct n as [|n]; [contradiction|].
    apply StronglySorted_inv in Hs. destruct Hs as [Hl Hx].
    cbn [firstn skipn In] in Ha, Hb. destruct Ha as [<-|Ha].
    + apply (proj1 (List.Forall_forall _ _) Hx b).
      rewrite <- (firstn_skipn n l). apply in_or_app. right. exact Hb.
    + apply (IH n Hl a b Ha Hb).
Qed.

Lemma slice_to_firstn {A : Type} (l : list A) (end_ : Z) :
  exists n, slice_to l end_ = firstn n l
            /\ ((0 <= end_)%Z -> n = Z.to_nat end_)
            /\ ((end_ < 0)%Z -> n = Z.to_nat (Z.max (Z.of_nat (length l) + end_) 0)).
Proof.
  unfold slice_to. destruct (end_ <? 0)%Z eqn:E.
  - apply Z.ltb_lt in E. eexists. split; [reflexivity|]. split; [lia|reflexivity].
  - apply Z.ltb_ge in E. eexists. split; [reflexivity|]. split; [reflexivity|lia].
Qed.

(** X18.  The most recent events.  [getRecentEarthquakes(limit)] looks at the
    whole store, whatever the age of an event: it hands back stored events,
    most recent first, [limit] of them when the store holds as many and all
    of them otherwise, and no event it leaves out is more recent than one it
    hands back.  A negative [limit] leaves out that many of the oldest
    events instead; an omitted [limit] is 10.  The world stays as it is. *)
Theorem recent_events_are_the_latest (limit : option Z) (w : World) :
  let n := match limit with Some n => n | None => 10%Z end in
  let recent := result (getRecentEarthquakes limit) w in
  after (getRecentEarthquakes limit) w = w
  /\ most_recent_first recent
  /\ (forall quake, In quake recent -> In quake (JSMap.values (earthquakes w)))
  /\ ((0 <= n)%Z -> length recent = Nat.min (Z.to_nat n) (length (earthquakes w)))
  /\ ((n < 0)%Z ->
      length recent = Z.to_nat (Z.max (Z.of_nat (length (earthquakes w)) + n) 0))
  /\ (forall quake left_out,
        In quake recent -> In left_out (JSMap.values (earthquakes w)) ->
        ~ In left_out recent ->
        (Earthquake.time left_out <= Earthquake.time quake)%Z).
Proof.
  cbv zeta. unfold result, after, getRecentEarthquakes, bind, gets, ret.
  cbn [fst snd].
  set (n := match limit with Some n => n | None => 10%Z end).
  set (sorted := sort_most_recent_first (JSMap.values (earthquakes w))).
  assert (Hlen : length sorted = length (earthquakes w)).
  { subst sorted. rewrite sort_most_recent_first_length. unfold JSMap.values.
    apply length_map. }
  destruct (slice_to_firstn sorted n) as (k & -> & Hpos & Hneg).
  split; [reflexivity|].
  split; [apply StronglySorted_firstn, sort_most_recent_first_sorted|].
  split.
  { intros quake Hin. apply (sort_most_recent_first_In quake).
    change (In quake sorted).
    rewrite <- (firstn_skipn k sorted). apply in_or_app. left. exact Hin. }
  split; [intros Hn; rewrite length_firstn, Hlen, (Hpos Hn); reflexivity|].
  split.
  { intros Hn. rewrite length_firstn, Hlen, (Hneg Hn). lia. }
  intros quake left_out Hq Hl Hnot.
  apply (sort_most_recent_first_In left_out) in Hl. fold sorted in Hl.
  rewrite <- (firstn_skipn k sorted) in Hl. apply in_app_or in Hl.
  destruct Hl as [Hl|Hl]; [contradiction|].
  apply (StronglySorted_cut _ k sorted (sort_most_recent_first_sorted _) quake left_out
           Hq Hl).
Qed.

Lemma getRecentEarthquakes_100 (w : World) :
  (length (result (getRecentEarthquakes (Some 100%Z)) w)
   = Nat.min 100 (length (earthquakes w)))
  /\ (forall quake, In quake (result (getRecentEarthquakes (Some 100%Z)) w) ->
                    In quake (JSMap.values (earthquakes w)))
  /\ ((length (earthquakes w) <= 100)%nat ->
      forall quake, In quake (JSMap.values (earthquakes w)) ->
                    In quake (result (getRecentEarthquakes (Some 100%Z)) w)).
Proof.
  assert (E : result (getRecentEarthquakes (Some 100%Z)) w
              = firstn 100 (sort_most_recent_first (JSMap.values (earthquakes w))))
    by reflexivity.
  rewrite E.
  assert (Hlen : length (sort_most_recent_first (JSMap.values (earthquakes w)))
                 = length (earthquakes w)).
  { rewrite sort_most_recent_first_length. unfold JSMap.values. apply length_map. }
  split; [rewrite length_firstn, Hlen; reflexivity|].
  split.
  - intros quake Hin. apply (sort_most_recent_first_In quake).
    rewrite <- (firstn_skipn 100 (sort_most_recent_first _)).
    apply in_or_app. left. exact Hin.
  - intros Hsmall quake Hin. rewrite firstn_all2 by (rewrite Hlen; exact Hsmall).
    apply sort_most_recent_first_In, Hin.
Qed.

(** X19.  The events of a period, as the exchange rate service fetches them.
    [fetchEarthquakesForPeriod] hands back exactly the events of the period
    that are among the 100 most recent events of the store: at most 100
    events, all of them stored; every stored event of the period when the
    store holds at most 100 events, and otherwise none of the events that
    [getRecentEarthquakes(100)] leaves out.  The world stays as it is. *)
Theorem period_events_come_from_the_latest_100 (startDate endDate : Z) (w : World) :
  let fetched := result (fetchEarthquakesForPeriod startDate endDate) w in
  let in_period (quake : Earthquake.t) :=
    (startDate <= Earthquake.time quake <= endDate)%Z in
  (forall quake,
     In quake fetched
     <-> In quake (result (getRecentEarthquakes (Some 100%Z)) w) /\ in_period quake)
  /\ (length fetched <= 100)%nat
  /\ (forall quake, In quake fetched -> In quake (JSMap.values (earthquakes w)))
  /\ ((length (earthquakes w) <= 100)%nat ->
      forall quake, In quake (JSMap.values (earthquakes w)) -> in_period quake ->
                    In quake fetched)
  /\ after (fetchEarthquakesForPeriod startDate endDate) w = w.
Proof.
  cbv zeta.
  assert (E : result (fetchEarthquakesForPeriod startDate endDate) w
              = List.filter
                  (fun eq => (startDate <=? Earthquake.time eq)%Z
                             && (Earthquake.time eq <=? endDate)%Z)
                  (result (getRecentEarthquakes (Some 100%Z)) w)) by reflexivity.
  rewrite E.
  destruct (getRecentEarthquakes_100 w) as (Hlen & Hin & Hall).
  split.
  { intros quake. rewrite List.filter_In. split; intros [Hq Hp]; (split; [exact Hq|lia]). }
  split.
  { etransitivity; [apply List.filter_length_le|]. rewrite Hlen. apply Nat.le_min_l. }
  split.
  { intros quake Hq. apply List.filter_In in Hq. apply Hin, Hq. }
  split; [|reflexivity].
  intros Hsmall quake Hq Hp. apply List.filter_In. split; [|lia].
  apply Hall; assumption.
Qed.

End Queries.

(* ===================================================================== *)
(** * Statistics                                                            *)
(* ===================================================================== *)

Section Statistics.

Context (H : Host).
Local Open Scope Q_scope.







End Statistics.

(* ===================================================================== *)
(** * Where stored records come from                                        *)
(* ===================================================================== *)

Section Provenance.

Context (H : Host).

Lemma same_record_refl (x : Earthquake.t) : same_record x x.
Proof. repeat split. Qed.

Lemma same_record_trans (x y z : Earthquake.t) :
  same_record x y -> same_record y z -> same_record x z.
Proof. unfold same_record. intuition congruence. Qed.

Lemma values_In {V : Type} (x : V) (m : list (string * V)) :
  In x (JSMap.values m) <-> exists k, In (k, x) m.
Proof.
  unfold JSMap.values. rewrite in_map_iff. split.
  - intros [[k v] [E Hin]]. cbn in E. subst v. exists k. exact Hin.
  - intros [k Hin]. exists (k, x). split; [reflexivity | exact Hin].
Qed.

Lemma stems_from_refl (w : World) (batch : list InsertEarthquake.t) :
  stems_from w batch w.
Proof. intros x Hx. left. exists x. split; [exact Hx | apply same_record_refl]. Qed.

Lemma stems_from_trans (w w1 w2 : World) (b1 b2 : list InsertEarthquake.t) :
  stems_from w b1 w1 -> stems_from w1 b2 w2 -> stems_from w (b1 ++ b2) w2.
Proof.
  intros H1 H2 x Hx. destruct (H2 x Hx) as [(x1 & Hx1 & S1)|Hb].
  - destruct (H1 x1 Hx1) as [(x0 & Hx0 & S0)|Hb].
    + left. exists x0. split; [exact Hx0 | apply (same_record_trans _ _ _ S1 S0)].
    + right. apply in_or_app. left. destruct S1 as (_ & _ & E). rewrite E. exact Hb.
  - right. apply in_or_app. right. exact Hb.
Qed.

Lemma stems_from_same_events (w w1 w' : World) (batch : list InsertEarthquake.t) :
  earthquakes w' = earthquakes w1 -> stems_from w batch w1 -> stems_from w batch w'.
Proof. unfold stems_from. intros ->. tauto. Qed.

Lemma stems_from_createEarthquake (w : World) (quakeData : InsertEarthquake.t) :
  stems_from w [quakeData] (after (createEarthquake H quakeData) w).
Proof.
  intros x Hx. apply values_In in Hx. destruct Hx as [k Hin].
  unfold createEarthquake, after, bind, modify, ret, Date_now, Math_random in Hin.
  cbn [fst snd earthquakes set_earthquakes set_clock_reads set_random_draws] in Hin.
  apply JSMap_set_In in Hin. destruct Hin as [[_ ->]|Hin].
  - right. left. reflexivity.
  - left. exists x. split; [apply values_In; exists k; exact Hin|apply same_record_refl].
Qed.

Lemma stems_from_verifyEarthquakeData (w : World) (earthquakeId : string) :
  stems_from w [] (after (verifyEarthquakeData H earthquakeId) w).
Proof.
  unfold after. rewrite verifyEarthquakeData_run.
  destruct (JSMap.get earthquakeId (earthquakes w)) as [e|] eqn:E;
    [|apply stems_from_refl].
  intros x Hx. apply values_In in Hx. destruct Hx as [k Hin].
  cbn [snd earthquakes set_earthquakes set_random_draws] in Hin.
  apply JSMap_set_In in Hin. left. destruct Hin as [[_ ->]|Hin].
  - exists e. split; [apply values_In; exists earthquakeId; apply JSMap_get_In, E|].
    repeat split.
  - exists x. split; [apply values_In; exists k; exact Hin | apply same_record_refl].
Qed.

Lemma stems_from_processCandidate (w : World) (quakeData : InsertEarthquake.t) :
  stems_from w [quakeData] (after (processCandidate H quakeData) w).
Proof.
  unfold after at 1. rewrite processCandidate_after.
  destruct (JS.some _ _); cbn [snd];
    [apply (stems_from_same_events w w); [reflexivity | apply stems_from_refl]|].
  set (w1 := set_clock_reads (S (clock_reads w)) w).
  set (e := result (createEarthquake H quakeData) w1).
  set (w2 := after (createEarthquake H quakeData) w1).
  assert (S2 : stems_from w [quakeData] w2).
  { apply (stems_from_trans w w1 w2 [] [quakeData]).
    - apply (stems_from_same_events w w); [reflexivity | apply stems_from_refl].
    - apply stems_from_createEarthquake. }
  assert (S3 : stems_from w [quakeData]
                 (if JS.geb (InsertEarthquake.magnitude quakeData) 4.0
                  then after (createAlert
                                (alertData_for quakeData e (wall_clock H (clock_reads w2))))
                             (set_clock_reads (S (clock_reads w2)) w2)
                  else w2)).
  { destruct (JS.geb _ 4.0); [|exact S2].
    apply (stems_from_same_events w w2); [reflexivity | exact S2]. }
  destruct (JS.geb _ 5.0); [|exact S3].
  rewrite <- (app_nil_r [quakeData]).
  eapply stems_from_trans; [exact S3 | apply stems_from_verifyEarthquakeData].
Qed.

Lemma stems_from_processNewEarthquakes (batch : list InsertEarthquake.t) :
  forall w, stems_from w batch (after (processNewEarthquakes H batch) w).
Proof.
  induction batch as [|quakeData rest IH]; intros w; [apply stems_from_refl|].
  rewrite processNewEarthquakes_after_cons.
  change (quakeData :: rest) with ([quakeData] ++ rest).
  eapply stems_from_trans; [apply stems_from_processCandidate | apply IH].
Qed.

Lemma stems_from_perform (op : Operation) (w : World) :
  stems_from w (ingested_by op) (after (perform H op) w).
Proof.
  rewrite perform_after.
  assert (Same : forall w', store_of w' = store_of w -> stems_from w [] w').
  { intros w' [= E _ _]. apply (stems_from_same_events w w); [exact E|].
    apply stems_from_refl. }
  destruct op; cbn [ingested_by].
  - apply stems_from_processNewEarthquakes.
  - apply stems_from_verifyEarthquakeData.
  - apply Same. reflexivity.
  - apply Same, generateFinancialImpactData_frame.
  - apply Same, getFinancialImpactForEarthquake_frame.
  - apply Same, getEarthquakesWithFinancialImpact_frame.
  - apply Same. reflexivity.
  - apply Same, verifyApiKey_frame.
Qed.

Lemma stems_from_perform_all (ops : list Operation) :
  forall w, stems_from w (concat (map ingested_by ops)) (after (perform_all H ops) w).
Proof.
  induction ops as [|op rest IH]; intros w; [apply stems_from_refl|].
  change (after (perform_all H (op :: rest)) w)
    with (after (perform_all H rest) (after (perform H op) w)).
  cbn [map concat].
  eapply stems_from_trans; [apply stems_from_perform | apply IH].
Qed.

(** X21.  A stored record is never altered.  Whatever operations are
    performed, every record the store holds afterwards either is a record it
    held before, with the same identity, creation date and data (only
    [flareVerified] may differ), or carries, unchanged, the data of a
    candidate of one of the ingested batches. *)
Theorem stored_records_are_never_altered (ops : list Operation) (w : World)
    (x : Earthquake.t) :
  In x (JSMap.values (earthquakes (after (perform_all H ops) w))) ->
  (exists x0, In x0 (JSMap.values (earthquakes w)) /\ same_record x x0)
  \/ (exists batch, In (Ingest batch) ops /\ In (Earthquake.data x) batch).
Proof.
  intros Hx. destruct (stems_from_perform_all ops w x Hx) as [Hold|Hnew];
    [left; exact Hold|].
  right. apply in_concat in Hnew. destruct Hnew as (batch & Hb & Hq).
  apply in_map_iff in Hb. destruct Hb as (op & E & Hop).
  destruct op; cbn [ingested_by] in E; subst batch; try contradiction.
  eexists. split; [exact Hop | exact Hq].
Qed.

Lemma map_features_verified (features : list RawFeature.t) :
  forall parsed, map_features features = Returned parsed ->
    Forall (fun p => ParsedEarthquake.verified p = false) parsed.
Proof.
  induction features as [|feature rest IH]; intros parsed E; cbn [map_features] in E.
  - injection E as <-. apply List.Forall_nil.
  - destruct (parseFeature feature) as [p|] eqn:Ep; [|discriminate E].
    destruct (map_features rest) as [more|]; [|discriminate E].
    injection E as <-. apply List.Forall_cons; [|apply IH; reflexivity].
    unfold parseFeature in Ep.
    destruct (RawFeature.geometry feature) as [g|]; [|discriminate Ep].
    destruct (RawFeature.coordinates g); [|discriminate Ep].
    destruct (RawFeature.properties feature); [|discriminate Ep].
    injection Ep as <-. reflexivity.
Qed.

(** X22.  The listing of verified events gains nothing from the feed or from
    verification.  [getFlareVerifiedEarthquakes] selects on [flareNetworkId]
    and [verified], which no operation writes: every record that
    [parseEarthquakeData] builds has [verified: false], and after any
    operations that ingest only candidates whose [verified] is not true,
    among them on-chain verifications of any events, every event the
    listing holds was in the listing before. *)
Theorem verified_listing_gains_nothing (ops : list Operation) (w : World) :
  (forall rawData parsed,
     In parsed (fst (parseEarthquakeData rawData)) ->
     ParsedEarthquake.verified parsed = false)
  /\ (Forall (fun quakeData => InsertEarthquake.verified quakeData <> Some true)
        (concat (map ingested_by ops)) ->
      forall x,
        In x (result getFlareVerifiedEarthquakes (after (perform_all H ops) w)) ->
        exists x0, In x0 (result getFlareVerifiedEarthquakes w) /\ same_record x x0).
Proof.
  split.
  - intros rawData parsed Hin. unfold parseEarthquakeData in Hin.
    destruct rawData as [[features|]|]; try contradiction.
    destruct (map_features features) as [l|] eqn:E; [|contradiction].
    apply (proj1 (List.Forall_forall _ _) (map_features_verified features l E)).
    exact Hin.
  - intros Hfeed x Hx.
    unfold result, getFlareVerifiedEarthquakes, bind, gets, ret in *.
    cbn [fst snd] in *.
    apply List.filter_In in Hx. destruct Hx as [Hx Hp].
    destruct (stems_from_perform_all ops w x Hx) as [(x0 & Hx0 & S)|Hnew].
    + exists x0. split; [|exact S]. apply List.filter_In. split; [exact Hx0|].
      destruct S as (_ & _ & E). rewrite <- E. exact Hp.
    + exfalso. apply (proj1 (List.Forall_forall _ _) Hfeed _ Hnew).
      apply andb_prop in Hp. destruct Hp as [_ Hv].
      destruct (InsertEarthquake.verified (Earthquake.data x)) as [[|]|];
        [reflexivity | discriminate Hv | discriminate Hv].
Qed.

End Provenance.

(* ===================================================================== *)
(** * Ingestion over several polls                                          *)
(* ===================================================================== *)

Section Polls.

Context (H : Host).

Lemma duplicate_of_own_record (quakeData : InsertEarthquake.t) (stored : Earthquake.t) :
  Earthquake.data stored = quakeData -> duplicate_of quakeData stored.
Proof.
  intros <-. unfold duplicate_of, Earthquake.place, Earthquake.magnitude, Earthquake.time.
  split; [reflexivity|]. split.
  - apply Qabs_Qlt_condition. split; lra.
  - rewrite Z.sub_diag. cbn. lia.
Qed.

(** X23.  A report that was just stored is not stored again.  When a
    candidate has been admitted and the clock, at the next turn, is at most
    24 hours past the time of the event, the same candidate is refused at
    that turn: the world changes by one reading of the clock only. *)
Theorem an_admitted_report_is_refused_next (quakeData : InsertEarthquake.t)
    (w : World) :
  ~ repeats_window H quakeData w ->
  let w' := after (processCandidate H quakeData) w in
  (wall_clock H (clock_reads w') - InsertEarthquake.time quakeData
   <= 24 * 60 * 60 * 1000)%Z ->
  processCandidate H quakeData w' = (None, set_clock_reads (S (clock_reads w')) w').
Proof.
  intros Hfresh w' Hclock.
  destruct (processCandidate_fresh H quakeData w Hfresh) as (_ & Hget & _).
  fold w' in Hget.
  apply processCandidate_duplicate.
  eexists. split.
  - unfold window_24h. apply List.filter_In. split.
    + apply values_In. eexists. apply JSMap_get_In, Hget.
    + unfold in_24h_window, Earthquake.time. cbn [Earthquake.data].
      apply Z.leb_le. exact Hclock.
  - apply duplicate_of_own_record. reflexivity.
Qed.

Lemma stale_report_is_fresh (quakeData : InsertEarthquake.t) (w : World) :
  (24 * 60 * 60 * 1000 + 5 * 60 * 1000
   <= wall_clock H (clock_reads w) - InsertEarthquake.time quakeData)%Z ->
  ~ repeats_window H quakeData w.
Proof.
  intros Hstale (existing & Hin & _ & _ & Htime).
  unfold window_24h in Hin. apply List.filter_In in Hin. destruct Hin as [_ Hw].
  unfold in_24h_window in Hw. apply Z.leb_le in Hw. lia.
Qed.

Lemma verifyEarthquakeData_clock (earthquakeId : string) (w : World) :
  clock_reads (after (verifyEarthquakeData H earthquakeId) w) = clock_reads w.
Proof.
  unfold after. rewrite verifyEarthquakeData_run.
  destruct (JSMap.get earthquakeId (earthquakes w)); reflexivity.
Qed.

Lemma processCandidate_clock (quakeData : InsertEarthquake.t) (w : World) :
  (clock_reads w <= clock_reads (after (processCandidate H quakeData) w))%nat.
Proof.
  unfold after at 1. rewrite processCandidate_after.
  destruct (JS.some _ _); cbn [snd]; [cbn; lia|].
  destruct (JS.geb _ 5.0); [rewrite verifyEarthquakeData_clock|];
    destruct (JS.geb _ 4.0); cbn; lia.
Qed.

(** X24.  A report from before the window is stored at every poll.  A
    candidate whose event lies 24 hours and 5 minutes or more before the
    clock is admitted whatever the store holds, its own earlier copies
    included: polled [n] times in a row, it is stored and handed back [n]
    times. *)
Theorem a_report_past_the_window_is_stored_at_every_poll
    (quakeData : InsertEarthquake.t) (n : nat) :
  forall w,
    (forall i, (clock_reads w <= i)%nat ->
       (24 * 60 * 60 * 1000 + 5 * 60 * 1000
        <= wall_clock H i - InsertEarthquake.time quakeData)%Z) ->
    result (processCandidate H quakeData) w = Some (created_for H quakeData w)
    /\ map Earthquake.data (result (processNewEarthquakes H (repeat quakeData n)) w)
       = repeat quakeData n.
Proof.
  induction n as [|n IH]; intros w Hstale.
  - split; [|reflexivity].
    apply (processCandidate_fresh H quakeData w).
    apply stale_report_is_fresh, Hstale. lia.
  - assert (Hfresh : ~ repeats_window H quakeData w)
      by (apply stale_report_is_fresh, Hstale; lia).
    destruct (processCandidate_fresh H quakeData w Hfresh) as (Hres & _).
    split; [exact Hres|].
    cbn [repeat]. unfold result at 1. rewrite processNewEarthquakes_cons.
    cbn [fst]. rewrite Hres. cbn [pushed app map created_for Earthquake.data].
    f_equal. apply IH. intros i Hi. apply Hstale.
    pose proof (processCandidate_clock quakeData w). lia.
Qed.

Lemma processCandidate_result (quakeData : InsertEarthquake.t) (w : World) :
  result (processCandidate H quakeData) w = None
  \/ exists e, result (processCandidate H quakeData) w = Some e
               /\ Earthquake.data e = quakeData
               /\ Earthquake.flareVerified e = None.
Proof.
  unfold result. rewrite processCandidate_after.
  destruct (JS.some _ _); cbn [fst]; [left; reflexivity|].
  right. eexists. split; [reflexivity|]. split; reflexivity.
Qed.

(** X25.  What a batch hands back.  The events that [processNewEarthquakes]
    returns carry the data of candidates of the batch, in the order of the
    batch and each candidate at most once, and none of them shows
    [flareVerified]: an event of magnitude 5.0 or more is marked in the
    store, on a copy, after the returned object was made. *)
Theorem a_batch_hands_back_candidates_in_order (batch : list InsertEarthquake.t) :
  forall w,
    sublist (map Earthquake.data (result (processNewEarthquakes H batch) w)) batch
    /\ Forall (fun e => Earthquake.flareVerified e = None)
         (result (processNewEarthquakes H batch) w).
Proof.
  induction batch as [|quakeData rest IH]; intros w.
  - split; [apply sublist_nil | apply List.Forall_nil].
  - unfold result. rewrite processNewEarthquakes_cons. cbn [fst].
    destruct (IH (after (processCandidate H quakeData) w)) as [IHs IHf].
    destruct (processCandidate_result quakeData w) as [->|(e & -> & Hd & Hf)];
      cbn [pushed app map].
    + split; [apply sublist_cons, IHs | exact IHf].
    + rewrite Hd. split; [apply sublist_skip, IHs|].
      apply List.Forall_cons; [exact Hf | exact IHf].
Qed.

End Polls.

(* ===================================================================== *)
(** * The overlay of any number of events                                   *)
(* ===================================================================== *)

Section OverlayOfMany.

Context (H : Host).

Lemma findIndex_dates (date : string) (l l' : list ExchangeRateData.t) :
  map ExchangeRateData.date l = map ExchangeRateData.date l' ->
  JS.findIndex (fun r => String.eqb (ExchangeRateData.date r) date) l
  = JS.findIndex (fun r => String.eqb (ExchangeRateData.date r) date) l'.
Proof.
  revert l'. induction l as [|x l IH]; intros [|x' l'] E; try discriminate E;
    [reflexivity|].
  cbn [map] in E. injection E as Ex El. cbn [JS.findIndex].
  rewrite Ex, (IH l' El). reflexivity.
Qed.

Lemma map_date_insert (l : list ExchangeRateData.t) (i : nat)
    (x y : ExchangeRateData.t) :
  l !! i = Some x -> ExchangeRateData.date y = ExchangeRateData.date x ->
  map ExchangeRateData.date (<[i := y]> l) = map ExchangeRateData.date l.
Proof.
  intros Hl Hd.
  change (map ExchangeRateData.date) with (fmap (M := list) ExchangeRateData.date).
  rewrite list_fmap_insert, Hd. apply list_insert_id.
  rewrite list_lookup_fmap, Hl. reflexivity.
Qed.

(** One event: the dates stay, and only the sample of the event's date and
    the one after it can change. *)
Lemma overlay_quake_local (pair : CurrencyPair.t) (l : list ExchangeRateData.t)
    (quake : Earthquake.t) :
  let hit :=
    JS.findIndex
      (fun r => String.eqb (ExchangeRateData.date r)
                           (format_yyyy_MM_dd H (Earthquake.time quake))) l in
  map ExchangeRateData.date (overlay_quake H pair l quake)
  = map ExchangeRateData.date l
  /\ (forall i, hit <> Some i -> (forall k, hit = Some k -> S k <> i) ->
        overlay_quake H pair l quake !! i = l !! i).
Proof.
  cbv zeta. unfold overlay_quake.
  destruct (JS.findIndex _ l) as [k|]; [|split; reflexivity].
  destruct (l !! k) as [matching|] eqn:Hk; [|split; reflexivity].
  set (hit := ExchangeRateData.mk (ExchangeRateData.date matching) _ _).
  assert (D1 : map ExchangeRateData.date (<[k := hit]> l)
               = map ExchangeRateData.date l)
    by (apply (map_date_insert l k matching hit Hk); reflexivity).
  destruct (Z.of_nat k <? Z.of_nat (length (<[k := hit]> l)) - 1)%Z.
  - destruct (<[k := hit]> l !! S k) as [following|] eqn:Hf.
    + split.
      * rewrite (map_date_insert _ (S k) following _ Hf); [exact D1 | reflexivity].
      * intros i Hi Hs.
        rewrite list_lookup_insert_ne by (apply (Hs k); reflexivity).
        apply list_lookup_insert_ne. congruence.
    + split; [exact D1|]. intros i Hi _. apply list_lookup_insert_ne. congruence.
  - split; [exact D1|]. intros i Hi _. apply list_lookup_insert_ne. congruence.
Qed.

Lemma overlay_fold_local (pair : CurrencyPair.t) (rates : list ExchangeRateData.t)
    (quakes : list Earthquake.t) :
  forall l,
    map ExchangeRateData.date l = map ExchangeRateData.date rates ->
    map ExchangeRateData.date (fold_left (overlay_quake H pair) quakes l)
    = map ExchangeRateData.date rates
    /\ (forall i,
          (forall quake, In quake quakes ->
             let hit :=
               JS.findIndex
                 (fun r => String.eqb (ExchangeRateData.date r)
                                      (format_yyyy_MM_dd H (Earthquake.time quake)))
                 rates in
             hit <> Some i /\ (forall k, hit = Some k -> S k <> i)) ->
          fold_left (overlay_quake H pair) quakes l !! i = l !! i).
Proof.
  induction quakes as [|quake rest IH]; intros l Hd.
  - split; [exact Hd | reflexivity].
  - cbn [fold_left].
    destruct (overlay_quake_local pair l quake) as [D L].
    rewrite (findIndex_dates _ l rates Hd) in L.
    destruct (IH (overlay_quake H pair l quake) (eq_trans D Hd)) as [D' L'].
    split; [exact D'|].
    intros i Hun. rewrite L'.
    + destruct (Hun quake (or_introl eq_refl)) as [N1 N2]. apply L; assumption.
    + intros q Hq. apply Hun. right. exact Hq.
Qed.

(** X26.  The overlay of any events is local.  Whatever events are laid over a
    series, the series keeps its length and its dates, and a sample changes
    only if an event of magnitude 5.0 or more falls on the first sample of
    its date or of the date of the sample before it; where no such event
    falls on a date of the series, and so where every event is below 5.0,
    the series comes back as it was. *)
Theorem overlay_of_many_is_local (rates : list ExchangeRateData.t)
    (quakes : list Earthquake.t) (pair : CurrencyPair.t) :
  let out := enrichExchangeRateDataWithEarthquakes H rates quakes pair in
  let hit (quake : Earthquake.t) :=
    JS.findIndex
      (fun r => String.eqb (ExchangeRateData.date r)
                           (format_yyyy_MM_dd H (Earthquake.time quake))) rates in
  length out = length rates
  /\ map ExchangeRateData.date out = map ExchangeRateData.date rates
  /\ (forall i,
        (forall quake, In quake quakes -> JS.geb (Earthquake.magnitude quake) 5.0 = true ->
           hit quake <> Some i /\ (forall k, hit quake = Some k -> S k <> i)) ->
        out !! i = rates !! i)
  /\ ((forall quake, In quake quakes -> JS.geb (Earthquake.magnitude quake) 5.0 = true ->
         hit quake = None) ->
      out = rates).
Proof.
  cbv zeta. unfold enrichExchangeRateDataWithEarthquakes.
  destruct (overlay_fold_local pair rates
              (List.filter (fun eq => JS.geb (Earthquake.magnitude eq) 5.0) quakes)
              rates eq_refl) as [D L].
  assert (Loc : forall i,
             (forall quake, In quake quakes ->
                JS.geb (Earthquake.magnitude quake) 5.0 = true ->
                JS.findIndex
                  (fun r => String.eqb (ExchangeRateData.date r)
                                       (format_yyyy_MM_dd H (Earthquake.time quake)))
                  rates <> Some i
                /\ (forall k,
                      JS.findIndex
                        (fun r => String.eqb (ExchangeRateData.date r)
                                             (format_yyyy_MM_dd H (Earthquake.time quake)))
                        rates = Some k -> S k <> i)) ->
             fold_left (overlay_quake H pair)
               (List.filter (fun eq => JS.geb (Earthquake.magnitude eq) 5.0) quakes)
               rates !! i = rates !! i).
  { intros i Hun. apply L. intros quake Hq. apply List.filter_In in Hq.
    destruct Hq as [Hq Hm]. apply (Hun quake Hq Hm). }
  split; [rewrite <- (length_map ExchangeRateData.date), D; apply length_map|].
  split; [exact D|].
  split; [exact Loc|].
  intros Hnone. apply list_eq. intros i. apply Loc.
  intros quake Hq Hm. rewrite (Hnone quake Hq Hm). split; [discriminate|].
  intros k Hk. discriminate Hk.
Qed.

End OverlayOfMany.

(* ===================================================================== *)
(** * The overall risk of several markets                                   *)
(* ===================================================================== *)

Section OverallRisk.

Local Open Scope Q_scope.

Lemma overallRisk_fold (marketRisks : list MarketRisk.t) :
  forall (level : RiskLevel) (total : Q),
    RiskLevel_rank (fst (fold_left overallRisk_step marketRisks (level, total)))
    = fold_right Nat.max (RiskLevel_rank level)
        (map (fun risk => RiskLevel_rank (MarketRisk.riskLevel risk)) marketRisks)
    /\ snd (fold_left overallRisk_step marketRisks (level, total))
       = fold_left (fun sum risk => sum + MarketRisk.riskScore risk) marketRisks total.
Proof.
  induction marketRisks as [|risk rest IH]; intros level total; [split; reflexivity|].
  cbn [fold_left map fold_right].
  assert (E : overallRisk_step (level, total) risk
              = (match Nat.leb (RiskLevel_rank level)
                                (RiskLevel_rank (MarketRisk.riskLevel risk)) with
                 | true => MarketRisk.riskLevel risk
                 | false => level
                 end, total + MarketRisk.riskScore risk)).
  { unfold overallRisk_step. cbn [fst snd].
    destruct (MarketRisk.riskLevel risk), level; reflexivity. }
  rewrite E. destruct (IH (if Nat.leb (RiskLevel_rank level)
                                     (RiskLevel_rank (MarketRisk.riskLevel risk))
                           then MarketRisk.riskLevel risk else level)
                          (total + MarketRisk.riskScore risk)) as [IH1 IH2].
  split; [|exact IH2].
  rewrite IH1.
  clear. induction rest as [|r rest IHr]; cbn [map fold_right].
  - destruct (MarketRisk.riskLevel risk), level; reflexivity.
  - rewrite IHr. lia.
Qed.

Lemma riskScore_sum_bounds (lo hi : Q) (l : list MarketRisk.t) :
  (forall risk, In risk l -> lo <= MarketRisk.riskScore risk <= hi) ->
  forall a,
    a + lo * inject_Z (Z.of_nat (length l))
    <= fold_left (fun sum risk => sum + MarketRisk.riskScore risk) l a
    <= a + hi * inject_Z (Z.of_nat (length l)).
Proof.
  induction l as [|x l IH]; intros Hb a.
  - cbn [fold_left length]. change (inject_Z (Z.of_nat 0)) with 0. lra.
  - cbn [fold_left length].
    specialize (IH (fun q Hq => Hb q (or_intror Hq)) (a + MarketRisk.riskScore x)).
    pose proof (Hb x (or_introl eq_refl)) as Hx.
    rewrite Nat2Z.inj_succ, <- Z.add_1_r, inject_Z_plus.
    change (inject_Z 1) with 1.
    remember (inject_Z (Z.of_nat (length l))) as n.
    remember (fold_left _ l _) as s.
    lra.
Qed.

(** X27.  The overall risk.  The overall level of several market risks is the
    highest of their levels, LOW for none; the overall score is an integer,
    0 for none, and lies between the roundings of any two bounds that hold
    for the scores of all the markets. *)
Theorem overall_risk_is_the_highest_level (marketRisks : list MarketRisk.t) :
  let overall := calculateOverallRisk marketRisks in
  RiskLevel_rank (fst overall)
  = fold_right Nat.max 0%nat
      (map (fun risk => RiskLevel_rank (MarketRisk.riskLevel risk)) marketRisks)
  /\ is_integer (snd overall)
  /\ (marketRisks = [] -> overall = (LOW, 0))
  /\ (forall lo hi,
        marketRisks <> [] ->
        (forall risk, In risk marketRisks -> lo <= MarketRisk.riskScore risk <= hi) ->
        JS.Math_round lo <= snd overall <= JS.Math_round hi).
Proof.
  cbv zeta. unfold calculateOverallRisk.
  destruct marketRisks as [|risk rest].
  - cbn [length Nat.eqb fst snd map fold_right].
    split; [reflexivity|]. split; [exists 0%Z; reflexivity|].
    split; [reflexivity|]. intros lo hi Hne. congruence.
  - cbn [length Nat.eqb fst snd].
    destruct (overallRisk_fold (risk :: rest) LOW 0) as [E1 E2].
    split; [exact E1|].
    split; [apply Math_round_is_integer|].
    split; [discriminate|].
    intros lo hi _ Hb. rewrite E2.
    pose proof (riskScore_sum_bounds lo hi (risk :: rest) Hb 0) as Hs.
    cbn [length] in Hs.
    assert (Hn : 0 < inject_Z (Z.of_nat (S (length rest)))).
    { change 0 with (inject_Z 0). rewrite <- Zlt_Qlt. lia. }
    remember (inject_Z (Z.of_nat (S (length rest)))) as n.
    remember (fold_left _ (risk :: rest) 0) as s.
    split; apply Math_round_mono.
    + apply Qle_shift_div_l; [exact Hn | lra].
    + apply Qle_shift_div_r; [exact Hn | lra].
Qed.

End OverallRisk.

(* ===================================================================== *)
(** * How long ago                                                          *)
(* ===================================================================== *)

Section TimeAgo.

Context (H : Host).

Ltac by_division := Z.to_euclidean_division_equations; lia.

Lemma ltb_of_div (d b q : Z) :
  (0 < b)%Z -> (d / b <? q)%Z = (d <? b * q)%Z.
Proof.
  intros Hb. destruct (Z.ltb_spec (d / b) q), (Z.ltb_spec d (b * q));
    try reflexivity; exfalso.
  - apply (Z.div_le_lower_bound _ _ _ Hb) in H1. lia.
  - apply (Z.div_lt_upper_bound _ _ _ Hb) in H1. lia.
Qed.

Lemma is_one_of_div (d b : Z) :
  (0 < b)%Z -> (b <= d)%Z -> (d / b =? 1)%Z = (d <? 2 * b)%Z.
Proof.
  intros Hb Hd.
  assert (H1 : (1 <= d / b)%Z) by (apply Z.div_le_lower_bound; lia).
  destruct (Z.eqb_spec (d / b) 1), (Z.ltb_spec d (2 * b)); try reflexivity; exfalso.
  - assert (d / b < 2)%Z by lia.
    assert (2 <= d / b)%Z by (apply Z.div_le_lower_bound; lia). lia.
  - assert (d / b < 2)%Z by (apply Z.div_lt_upper_bound; lia). lia.
Qed.

(** X28.  The wording of an age.  With [d] the milliseconds from the time of
    the event to the clock: below one minute the text counts whole seconds
    (always in the plural, and below zero for a time ahead of the clock);
    from one minute it counts whole minutes, from one hour whole hours, from
    one day whole days, each in the singular exactly below twice the unit;
    from seven days on it is the date of the event.  The clock is read
    once. *)
Theorem the_wording_of_an_age (toLocaleDateString : Z -> string) (time : Z)
    (w : World) :
  let d := (wall_clock H (clock_reads w) - time)%Z in
  let said := result (getEarthquakeTimeAgo H toLocaleDateString time) w in
  let number (n : Z) := Number_toString H (inject_Z n) in
  ((d < 60000)%Z -> said = (number (d / 1000)%Z ++ " seconds ago")%string)
  /\ ((60000 <= d < 3600000)%Z ->
      said = (number (d / 60000)%Z ++ " "
              ++ (if (d <? 120000)%Z then "min" else "mins") ++ " ago")%string)
  /\ ((3600000 <= d < 86400000)%Z ->
      said = (number (d / 3600000)%Z ++ " "
              ++ (if (d <? 7200000)%Z then "hour" else "hours") ++ " ago")%string)
  /\ ((86400000 <= d < 604800000)%Z ->
      said = (number (d / 86400000)%Z ++ " "
              ++ (if (d <? 172800000)%Z then "day" else "days") ++ " ago")%string)
  /\ ((604800000 <= d)%Z -> said = toLocaleDateString time)
  /\ after (getEarthquakeTimeAgo H toLocaleDateString time) w
     = set_clock_reads (S (clock_reads w)) w.
Proof.
  cbv zeta. unfold result, after, getEarthquakeTimeAgo, bind, Date_now. cbn [fst snd].
  set (d := (wall_clock H (clock_reads w) - time)%Z).
  assert (Em : (d / 1000 / 60 = d / 60000)%Z) by by_division.
  assert (Eh : (d / 1000 / 60 / 60 = d / 3600000)%Z) by by_division.
  assert (Ed : (d / 1000 / 60 / 60 / 24 = d / 86400000)%Z) by by_division.
  rewrite Ed, Eh, Em.
  rewrite (ltb_of_div d 1000 60), (ltb_of_div d 60000 60), (ltb_of_div d 3600000 24),
    (ltb_of_div d 86400000 7) by lia.
  change (1000 * 60)%Z with 60000%Z. change (60000 * 60)%Z with 3600000%Z.
  change (3600000 * 24)%Z with 86400000%Z. change (86400000 * 7)%Z with 604800000%Z.
  split; [|split; [|split; [|split; [|split]]]].
  - intros Hd. rewrite (proj2 (Z.ltb_lt _ _) Hd). reflexivity.
  - intros [H1 H2]. rewrite (proj2 (Z.ltb_ge _ _) H1), (proj2 (Z.ltb_lt _ _) H2).
    rewrite (is_one_of_div d 60000) by lia. reflexivity.
  - intros [H1 H2].
    rewrite (proj2 (Z.ltb_ge d 60000) ltac:(lia)), (proj2 (Z.ltb_ge _ _) H1),
      (proj2 (Z.ltb_lt _ _) H2).
    rewrite (is_one_of_div d 3600000) by lia. reflexivity.
  - intros [H1 H2].
    rewrite (proj2 (Z.ltb_ge d 60000) ltac:(lia)),
      (proj2 (Z.ltb_ge d 3600000) ltac:(lia)), (proj2 (Z.ltb_ge _ _) H1),
      (proj2 (Z.ltb_lt _ _) H2).
    rewrite (is_one_of_div d 86400000) by lia. reflexivity.
  - intros H1.
    rewrite (proj2 (Z.ltb_ge d 60000) ltac:(lia)),
      (proj2 (Z.ltb_ge d 3600000) ltac:(lia)),
      (proj2 (Z.ltb_ge d 86400000) ltac:(lia)), (proj2 (Z.ltb_ge _ _) H1).
    reflexivity.
  - repeat match goal with |- context [if ?b then _ else _] => destruct b end;
      reflexivity.
Qed.

End TimeAgo.

(* ===================================================================== *)
(** * Looking an assessment up by identity                                  *)
(* ===================================================================== *)

Section LookupById.

Context (H : Host).

(** X29.  A lookup answers for the identity asked.  In a running server (the
    world the constructor leaves, then any operations),
    [getFinancialImpactForEarthquake] hands back an assessment that names
    the identity it was asked for, and hands back nothing exactly when the
    identity is neither in the cache nor in the store. *)
Theorem a_lookup_answers_for_the_identity_asked (ops : list Operation)
    (earthquakeId : string) :
  let w := after (perform_all H ops) (initial_world H) in
  (forall d, result (getFinancialImpactForEarthquake H earthquakeId) w = Some d ->
             FinancialImpactData.earthquakeId d = earthquakeId)
  /\ (result (getFinancialImpactForEarthquake H earthquakeId) w = None
      <-> financialImpactCache w !! earthquakeId = None
          /\ JSMap.get earthquakeId (earthquakes w) = None).
Proof.
  cbv zeta.
  assert (Hagree : cache_keys_agree (after (perform_all H ops) (initial_world H))).
  { apply perform_all_agree. intros k d Hk.
    change (financialImpactCache (initial_world H)) with (∅ : gmap string FinancialImpactData.t) in Hk.
    rewrite lookup_empty in Hk. discriminate Hk. }
  destruct (Inv_perform_all H (initial_world H) ops (initial_world H)
              (conj (initial_world_well_formed H) (store_grows_refl (initial_world H))))
    as [(Hids & _) _].
  set (w := after (perform_all H ops) (initial_world H)) in *.
  destruct (financialImpactCache w !! earthquakeId) as [d0|] eqn:Hc.
  - unfold result. rewrite (getFinancialImpactForEarthquake_hit H _ _ _ Hc). cbn [fst].
    split.
    + intros d [= <-]. apply (Hagree _ _ Hc).
    + split; [discriminate | intros [E _]; discriminate E].
  - destruct (JSMap.get earthquakeId (earthquakes w)) as [e|] eqn:He.
    + unfold result at 1 2. rewrite (getFinancialImpactForEarthquake_miss H _ _ _ Hc He).
      cbn [fst]. split.
      * intros d [= <-]. rewrite (generateFinancialImpactData_names H e w Hagree).
        apply (Hids _ _ (JSMap_get_In _ _ _ He)).
      * split; [discriminate | intros [_ E]; discriminate E].
    + unfold result. rewrite (getFinancialImpactForEarthquake_unknown H _ _ Hc He).
      cbn [fst]. split; [discriminate|]. split; [intros _; split; reflexivity | reflexivity].
Qed.

End LookupById.

(* ===================================================================== *)
(** * The further statements on the reference host                          *)
(* ===================================================================== *)

Lemma RefHost_random_in_unit_interval : random_in_unit_interval Scenario.host.
Proof.
  intros n. change (random_source Scenario.host n) with (RefHost.random_cycle n).
  unfold RefHost.random_cycle.
  destruct (n mod 4)%nat as [|[|[|]]]; split; lra.
Qed.

Lemma empty_cache_agrees : cache_keys_agree empty_world.
Proof. intros k d Hk. cbn in Hk. rewrite lookup_empty in Hk. discriminate Hk. Qed.

(** X1 on the reference host: a magnitude of 6.5, and the depths 8 and 40. *)
Lemma the_two_impacts_stay_in_range_witness :
  (0 <= calculateMagnitudeImpact 6.5 <= 100)%Q
  /\ (calculateDepthImpact 40 <= calculateDepthImpact 8)%Q.
Proof.
  assert (Hm : (0 <= 6.5)%Q) by (vm_compute; discriminate).
  assert (Hd : (8 <= 40)%Q) by (vm_compute; discriminate).
  destruct (the_two_impacts_stay_in_range 6.5 8 40 Hm Hd) as (R & _ & D & _).
  split; [exact R | exact D].
Defined.

(** X2 on the reference host: an event of magnitude 7.2 at Tokyo, scored by a
    fresh process. *)
Lemma fresh_score_range_witness :
  (11 <= FinancialImpactData.marketImpactScore
           (result (generateFinancialImpactData Scenario.host
                      (Scenario.tokyo_bay "eq_tokyo" 7.2)) empty_world)
   <= 100)%Q.
Proof.
  assert (Hm : (0 <= Earthquake.magnitude (Scenario.tokyo_bay "eq_tokyo" 7.2))%Q)
    by (vm_compute; discriminate).
  exact (proj2 (fresh_score_range Scenario.host (Scenario.tokyo_bay "eq_tokyo" 7.2)
                  empty_world (lookup_empty _) Hm)).
Defined.

(** X3 on the reference host: two events of magnitude 7.2 at Tokyo, 8 and 40
    km deep. *)
Lemma risk_is_antitone_in_depth_witness :
  RiskLevel_le
    (FinancialImpactData.riskLevel
       (result (generateFinancialImpactData Scenario.host
                  (Cases.tokyo_at_depth "eq_deep" 7.2 40)) empty_world))
    (FinancialImpactData.riskLevel
       (result (generateFinancialImpactData Scenario.host
                  (Cases.tokyo_at_depth "eq_shallow" 7.2 8)) empty_world)).
Proof.
  assert (Hd : (Earthquake.depth (Cases.tokyo_at_depth "eq_shallow" 7.2 8)
                <= Earthquake.depth (Cases.tokyo_at_depth "eq_deep" 7.2 40))%Q)
    by (vm_compute; discriminate).
  exact (proj2 (risk_is_antitone_in_depth Scenario.host
                  (Cases.tokyo_at_depth "eq_shallow" 7.2 8)
                  (Cases.tokyo_at_depth "eq_deep" 7.2 40) empty_world empty_world
                  eq_refl eq_refl eq_refl Hd (lookup_empty _) (lookup_empty _))).
Defined.


(** X6 on the reference host: the volatility index of an event of magnitude
    7.2 at Tokyo. *)
Lemma fresh_assessment_ranges_witness :
  (9 <= FinancialImpactData.volatilityIndex
          (result (generateFinancialImpactData Scenario.host
                     (Scenario.tokyo_bay "eq_tokyo" 7.2)) empty_world)
   <= 100)%Q.
Proof.
  assert (Hm : (0 <= Earthquake.magnitude (Scenario.tokyo_bay "eq_tokyo" 7.2))%Q)
    by (vm_compute; discriminate).
  exact (proj1 (proj2 (fresh_assessment_ranges Scenario.host
                         (Scenario.tokyo_bay "eq_tokyo" 7.2) empty_world
                         RefHost_random_in_unit_interval (lookup_empty _) Hm))).
Defined.

(** X8 on the reference host: an ingestion, a request and a bulk scoring
    between two scorings. *)
Lemma assessment_is_permanent_witness :
  result (generateFinancialImpactData Scenario.host
            (Scenario.tokyo_bay "eq_tokyo" 5.0))
         (after (perform_all Scenario.host
                   [Ingest [Scenario.candidate_A]; Request None; BulkScore 0 Scenario.T0])
                (after (generateFinancialImpactData Scenario.host
                          (Scenario.tokyo_bay "eq_tokyo" 7.2)) empty_world))
  = result (generateFinancialImpactData Scenario.host
              (Scenario.tokyo_bay "eq_tokyo" 7.2)) empty_world.
Proof.
  exact (proj1 (assessment_is_permanent Scenario.host
                  (Scenario.tokyo_bay "eq_tokyo" 7.2) (Scenario.tokyo_bay "eq_tokyo" 5.0)
                  [Ingest [Scenario.candidate_A]; Request None; BulkScore 0 Scenario.T0]
                  empty_world eq_refl)).
Defined.

(** X9 on the reference host: an ingestion and a bulk scoring from the empty
    world. *)
Lemma assessments_name_their_event_witness :
  cache_keys_agree
    (after (perform_all Scenario.host
              [Ingest [Scenario.candidate_A]; BulkScore 0 (Scenario.T0 + 86400000)])
           empty_world).
Proof.
  exact (proj1 (assessments_name_their_event Scenario.host
                  [Ingest [Scenario.candidate_A]; BulkScore 0 (Scenario.T0 + 86400000)]
                  empty_world (Scenario.tokyo_bay "eq_tokyo" 7.2) 0 Scenario.T0
                  empty_cache_agrees)).
Defined.

(** X13 on the reference host: five requests with the key issued for 3. *)
Lemma budget_admits_exactly_n_witness :
  result (requests Scenario.host (repeat (Some Scenario.key_3) (3 + 2))) Scenario.world_3
  = map (fun b => Next (ApiKeyValidation.valid
                          (OracleSubscription.subscriber Cases.subscription_3)
                          (OracleSubscription.id Cases.subscription_3)
                          (OracleSubscription.organizationName Cases.subscription_3)
                          (b + 1)%Z (OracleSubscription.endDate Cases.subscription_3)) b)
        (countdown 3)
    ++ repeat (Respond 401 "Invalid API key" "INVALID_API_KEY") 2.
Proof.
  assert (Hne : Scenario.key_3 <> EmptyString) by (vm_compute; discriminate).
  assert (Hk : apiKeys Scenario.world_3 !! Scenario.key_3 = Some Cases.subscription_3)
    by (vm_compute; reflexivity).
  assert (Ha : OracleSubscription.active Cases.subscription_3 = true) by reflexivity.
  assert (Hb : OracleSubscription.remainingRequests Cases.subscription_3 = Z.of_nat 3)
    by reflexivity.
  assert (Hc : forall i, (i < 3)%nat ->
                 (wall_clock Scenario.host (clock_reads Scenario.world_3 + 2 * i)
                  <= OracleSubscription.endDate Cases.subscription_3)%Z).
  { intros i Hi.
    assert (E : clock_reads Scenario.world_3 = 2%nat) by (vm_compute; reflexivity).
    assert (E' : OracleSubscription.endDate Cases.subscription_3
                 = (Scenario.T0 + 1 + 30 * 86400000)%Z) by (vm_compute; reflexivity).
    rewrite E, E'.
    change (wall_clock Scenario.host (2 + 2 * i))
      with (Scenario.T0 + Z.of_nat (2 + 2 * i))%Z.
    lia. }
  exact (budget_admits_exactly_n Scenario.host 3 2 Scenario.key_3 Scenario.world_3
           Cases.subscription_3 Hne Hk Ha Hb Hc).
Defined.

(** X15 on the reference host: an ingestion into the store the constructor
    leaves. *)
Lemma nothing_leaves_the_store_witness :
  In "eq_1"%string
     (map fst (earthquakes
                 (after (perform_all Scenario.host [Ingest [Scenario.candidate_A]])
                        (initial_world Scenario.host))))
  /\ (length (earthquakes (initial_world Scenario.host))
      <= length (earthquakes
                   (after (perform_all Scenario.host [Ingest [Scenario.candidate_A]])
                          (initial_world Scenario.host))))%nat.
Proof.
  assert (Hin : In "eq_1"%string (map fst (earthquakes (initial_world Scenario.host))))
    by (vm_compute; left; reflexivity).
  destruct (nothing_leaves_the_store Scenario.host [Ingest [Scenario.candidate_A]]
              (initial_world Scenario.host) (initial_world_well_formed Scenario.host))
    as (Hkeys & Hlen & _).
  split; [exact (Hkeys _ Hin) | exact Hlen].
Defined.

(** X21 on the reference host: the record of candidate A. *)
Lemma stored_records_are_never_altered_witness :
  In Cases.stored_A
     (JSMap.values
        (earthquakes
           (after (perform_all Scenario.host [Ingest [Scenario.candidate_A]])
                  empty_world)))
  /\ ((exists x0, In x0 (JSMap.values (earthquakes empty_world))
                  /\ same_record Cases.stored_A x0)
      \/ (exists batch,
            In (Ingest batch) [Ingest [Scenario.candidate_A]]
            /\ In (Earthquake.data Cases.stored_A) batch)).
Proof.
  assert (Hin : In Cases.stored_A
                  (JSMap.values
                     (earthquakes
                        (after (perform_all Scenario.host [Ingest [Scenario.candidate_A]])
                               empty_world))))
    by (vm_compute; left; reflexivity).
  split; [exact Hin|].
  exact (stored_records_are_never_altered Scenario.host
           [Ingest [Scenario.candidate_A]] empty_world Cases.stored_A Hin).
Defined.

(** X23 on the reference host: candidate A, reported again at once. *)
Lemma an_admitted_report_is_refused_next_witness :
  processCandidate Scenario.host Scenario.candidate_A
    (after (processCandidate Scenario.host Scenario.candidate_A) empty_world)
  = (None,
     set_clock_reads
       (S (clock_reads
             (after (processCandidate Scenario.host Scenario.candidate_A) empty_world)))
       (after (processCandidate Scenario.host Scenario.candidate_A) empty_world)).
Proof.
  assert (Hfresh : ~ repeats_window Scenario.host Scenario.candidate_A empty_world).
  { intros (existing & Hin & _). exact Hin. }
  assert (Hclock :
            (wall_clock Scenario.host
               (clock_reads
                  (after (processCandidate Scenario.host Scenario.candidate_A)
                         empty_world))
             - InsertEarthquake.time Scenario.candidate_A
             <= 24 * 60 * 60 * 1000)%Z)
    by (vm_compute; discriminate).
  exact (an_admitted_report_is_refused_next Scenario.host Scenario.candidate_A
           empty_world Hfresh Hclock).
Defined.

(** X24 on the reference host: the report of three days ago, polled three
    times. *)
Lemma a_report_past_the_window_is_stored_at_every_poll_witness :
  map Earthquake.data
    (result (processNewEarthquakes Scenario.host (repeat Scenario.old_report 3))
            empty_world)
  = repeat Scenario.old_report 3.
Proof.
  assert (Hstale : forall i, (clock_reads empty_world <= i)%nat ->
                     (24 * 60 * 60 * 1000 + 5 * 60 * 1000
                      <= wall_clock Scenario.host i
                         - InsertEarthquake.time Scenario.old_report)%Z).
  { intros i _.
    change (wall_clock Scenario.host i) with (Scenario.T0 + Z.of_nat i)%Z.
    change (InsertEarthquake.time Scenario.old_report)
      with (Scenario.T0 - 3 * 86400000)%Z.
    lia. }
  exact (proj2 (a_report_past_the_window_is_stored_at_every_poll Scenario.host
                  Scenario.old_report 3 empty_world Hstale)).
Defined.

(** X10 on the reference host: the key issued for 30 days and 3 requests,
    validated at once. *)
Lemma issued_key_round_trip_witness :
  result (validateApiKey Scenario.host Scenario.key_3) Scenario.world_3
  = ApiKeyValidation.valid "0x71C7656EC7ab88b098defB751B7401B5f6d8976F"
      (OracleSubscription.id Cases.subscription_3) "Acme Re" 3
      (OracleSubscription.endDate Cases.subscription_3).
Proof.
  assert (Hpos : (0 < 3)%Z) by lia.
  assert (Hclock : (wall_clock Scenario.host (clock_reads Scenario.world_3)
                    <= OracleSubscription.endDate Cases.subscription_3)%Z)
    by (vm_compute; discriminate).
  exact (proj1 (proj2 (proj2 (proj2 (proj2 (proj2
           (issued_key_round_trip Scenario.host
              "0x71C7656EC7ab88b098defB751B7401B5f6d8976F" "Acme Re"
              "risk@acme.example" 30 3 empty_world)))))) Hpos Hclock).
Defined.

(** X11 on the reference host: five direct calls with the key issued for 3. *)
Lemma recordApiRequest_charges_without_checking_witness :
  result (record_times Scenario.host 5 Scenario.key_3) Scenario.world_3
  = map (fun i => Returned (OracleSubscription.remainingRequests Cases.subscription_3
                            - Z.of_nat i - 1)%Z) (seq 0 5).
Proof.
  assert (Hk : apiKeys Scenario.world_3 !! Scenario.key_3 = Some Cases.subscription_3)
    by (vm_compute; reflexivity).
  exact (proj1 (proj1 (recordApiRequest_charges_without_checking Scenario.host 5
                         Scenario.key_3 Scenario.world_3) Cases.subscription_3 Hk)).
Defined.

(** X17 on the reference host: the region antarctica. *)
Lemma listing_of_unlisted_filter_values_witness :
  getEarthquakes Scenario.host (EarthquakeFilters.mk "24h" "all" "antarctica")
    Scenario.world_A
  = getEarthquakes Scenario.host (EarthquakeFilters.mk "24h" "all" "global")
      Scenario.world_A.
Proof.
  assert (Hnot : ~ In "antarctica"%string
                     ["global"; "north_america"; "south_america"; "europe"; "asia";
                      "africa"; "australia"]%string).
  { cbn [In]. intros Hin.
    repeat (destruct Hin as [Hin|Hin]; [discriminate Hin|]). exact Hin. }
  exact (proj2 (proj2 (listing_of_unlisted_filter_values Scenario.host "24h" "all"
                         "antarctica" Scenario.world_A)) Hnot).
Defined.

(** X22 on the reference host: an ingestion and an on-chain verification after
    the constructor. *)
Lemma verified_listing_gains_nothing_witness :
  In Cases.sample_1
     (result getFlareVerifiedEarthquakes
        (after (perform_all Scenario.host
                  [Ingest [Scenario.candidate_A]; VerifyOnChain "eq_1"])
               (initial_world Scenario.host)))
  /\ exists x0,
       In x0 (result getFlareVerifiedEarthquakes (initial_world Scenario.host))
       /\ same_record Cases.sample_1 x0.
Proof.
  assert (Hfeed : Forall (fun quakeData =>
                            InsertEarthquake.verified quakeData <> Some true)
                    (concat (map ingested_by
                               [Ingest [Scenario.candidate_A]; VerifyOnChain "eq_1"]))).
  { cbn [map ingested_by concat app].
    apply List.Forall_cons; [discriminate | apply List.Forall_nil]. }
  assert (Hin : In Cases.sample_1
                  (result getFlareVerifiedEarthquakes
                     (after (perform_all Scenario.host
                               [Ingest [Scenario.candidate_A]; VerifyOnChain "eq_1"])
                            (initial_world Scenario.host))))
    by (vm_compute; left; reflexivity).
  split; [exact Hin|].
  exact (proj2 (verified_listing_gains_nothing Scenario.host
                  [Ingest [Scenario.candidate_A]; VerifyOnChain "eq_1"]
                  (initial_world Scenario.host)) Hfeed Cases.sample_1 Hin).
Defined.
